(** * Realtime chat client: the turn protocol of [chat.py]

    A shallow embedding of [send_message], [receive_message],
    [chat_completion] and of the reply extraction done by the voice loop of
    [main] (chat.py), of [initialize_session] and of the voice loop around
    a turn, together with the JSON codec the two message helpers delegate
    to.

    Modelling choices
    - A Python [str] is the list of its code points.  Values are the ones
      [json.loads] can produce: [None], booleans, integers, strings, lists
      and dictionaries.  A dictionary is an association list in insertion
      order, read with the first binding of a key.  Floating-point numbers
      are outside the model.
    - The socket is the script of what each [recv] followed by
      [json.loads] will produce; a send always succeeds, and the value
      handed to [json.dumps] is recorded.  The two codec functions are
      modelled on their own ([dumps], [loads]).  [receive_message] on an
      exhausted script never completes: the coroutine stays suspended
      ([Blocked]).
    - Exceptions are data: a computation returns a value, raises, or blocks.
      The text of an [Exception] message is kept as a constructor carrying
      the value that the f-string interpolates.
    - Logging is not modelled.  Of the terminal only one thing matters,
      whether [print] can write a text: standard output is taken to encode
      UTF-8 strictly, Python's default on a UTF-8 locale.  The calls of the
      speech service are taken to return. *)

From Stdlib Require Import List String Ascii NArith ZArith Bool Arith Lia.
From Stdlib Require DecimalFacts DecimalPos.
Import ListNotations.

Set Implicit Arguments.

(** ** Python values *)

Definition pystr := list N.

(** A literal of the source, as a Python string. *)
Definition py (s : string) : pystr := map N_of_ascii (list_ascii_of_string s).

Fixpoint pystr_eqb (a b : pystr) : bool :=
  match a, b with
  | [], [] => true
  | x :: a', y :: b' => N.eqb x y && pystr_eqb a' b'
  | _, _ => false
  end.

#[warnings="-register-all"]
Inductive pyval : Type :=
| VNone
| VBool (b : bool)
| VInt (n : Z)
| VStr (s : pystr)
| VList (items : list pyval)
| VDict (kvs : list (pystr * pyval)).

(** [{}], the default of most [.get] calls of the source. *)
Definition empty_dict : pyval := VDict [].

Fixpoint lookup (k : pystr) (kvs : list (pystr * pyval)) : option pyval :=
  match kvs with
  | [] => None
  | (k', v) :: more => if pystr_eqb k k' then Some v else lookup k more
  end.

Definition has_key (k : pystr) (kvs : list (pystr * pyval)) : bool :=
  match lookup k kvs with Some _ => true | None => false end.

(** [v == s] for a string literal [s]: only a string compares equal. *)
Definition py_eq_str (v : pyval) (s : pystr) : bool :=
  match v with VStr t => pystr_eqb t s | _ => false end.

(** [bool(v)], as used by [if not response]. *)
Definition truthy (v : pyval) : bool :=
  match v with
  | VNone => false
  | VBool b => b
  | VInt n => negb (Z.eqb n 0)
  | VStr s => match s with [] => false | _ => true end
  | VList l => match l with [] => false | _ => true end
  | VDict kvs => match kvs with [] => false | _ => true end
  end.

Definition is_dict (v : pyval) : bool :=
  match v with VDict _ => true | _ => false end.

(** [needle in hay] on strings: substring test. *)
Fixpoint is_prefix (p s : pystr) : bool :=
  match p, s with
  | [], _ => true
  | x :: p', y :: s' => N.eqb x y && is_prefix p' s'
  | _ :: _, [] => false
  end.

Fixpoint is_substring (p s : pystr) : bool :=
  is_prefix p s || match s with [] => false | _ :: s' => is_substring p s' end.

(** ** Exceptions and outcomes *)

(** The messages of the [Exception]s the source raises. *)
Inductive exc_message : Type :=
| ExpectedSessionCreated (response : pyval)
    (* "Expected session.created event, got: {response}" *)
| ItemCreationError (error_details : pyval)
    (* "Conversation item creation error: {error_details}" *)
| ExpectedItemCreated
    (* "Expected conversation.item.created event" *)
| APIError (error_details : pyval)
    (* "API Error: {error_details}" *)
| StreamError (error_details : pyval)
    (* "Stream Error: {error_details}" *)
| NoValidResponse
    (* "No valid response received" *)
| SessionInitializationError (error_details : pyval).
    (* "Session initialization error: {error_details}" *)

Inductive exn : Type :=
| Exception (msg : exc_message)
| ConnectionClosed     (* websockets.exceptions.ConnectionClosed *)
| ConnectError         (* websockets.connect did not yield a connection *)
| ReceiveError         (* any other failure of recv or of json.loads *)
| CancelledError       (* asyncio.CancelledError: a BaseException *)
| AttributeError
| TypeError
| KeyError
| UnicodeEncodeError.  (* print of a text that standard output cannot encode *)

(** [except Exception] catches everything but the cancellation. *)
Definition is_Exception (e : exn) : bool :=
  match e with CancelledError => false | _ => true end.

Inductive outcome (A : Type) : Type :=
| Returned (a : A)
| Raised (e : exn)
| Blocked.

Arguments Returned {A} a.
Arguments Raised {A} e.
Arguments Blocked {A}.

(** ** Operations of Python objects that can raise *)

(** [d.get(k, default)] *)
Definition py_get (d : pyval) (k : pystr) (default : pyval) : outcome pyval :=
  match d with
  | VDict kvs => Returned (match lookup k kvs with Some v => v | None => default end)
  | _ => Raised AttributeError
  end.

(** [k in c] for a string [k] *)
Definition py_in (k : pystr) (c : pyval) : outcome bool :=
  match c with
  | VDict kvs => Returned (has_key k kvs)
  | VList l => Returned (existsb (fun x => py_eq_str x k) l)
  | VStr s => Returned (is_substring k s)
  | _ => Raised TypeError
  end.

(** [d[k]] for a string [k] *)
Definition py_getitem (d : pyval) (k : pystr) : outcome pyval :=
  match d with
  | VDict kvs => match lookup k kvs with Some v => Returned v | None => Raised KeyError end
  | _ => Raised TypeError
  end.

(** The items a [for] loop over [c] visits. *)
Definition py_iter (c : pyval) : outcome (list pyval) :=
  match c with
  | VList l => Returned l
  | VDict kvs => Returned (map (fun kv => VStr (fst kv)) kvs)
  | VStr s => Returned (map (fun ch => VStr [ch]) s)
  | _ => Raised TypeError
  end.

(** ** The socket *)

(** What one [recv] followed by [json.loads] produces. *)
Inductive frame : Type :=
| Message (event : pyval)   (* a text frame that parses to [event] *)
| PeerClosed                (* recv raises ConnectionClosed *)
| Cancel                    (* the task is cancelled while it waits *)
| BadFrame.                 (* recv or json.loads fails otherwise *)

Inductive endpoint : Type :=
| Refuse
| Accept (script : list frame).

Inductive io_event : Type :=
| Connect (deployment : pystr)
| SendMsg (m : pyval)
| RecvFrame (f : frame)
| Disconnect.

Record run (A : Type) : Type := mkRun {
  out : outcome A;
  unread : list frame;
  trace : list io_event
}.

Arguments mkRun {A} out unread trace.

(** A computation over one open websocket. *)
Definition ws (A : Type) : Type := list frame -> run A.

Class Monad (M : Type -> Type) : Type := {
  ret : forall {A}, A -> M A;
  bind : forall {A B}, M A -> (A -> M B) -> M B
}.

Declare Scope monad_scope.
Delimit Scope monad_scope with monad.
Notation "x <- m ;; k" := (bind m (fun x => k))
  (at level 61, m at next level, right associativity) : monad_scope.
Notation "m ;;; k" := (bind m (fun _ => k))
  (at level 61, right associativity) : monad_scope.
Open Scope monad_scope.

Definition outcome_bind {A B} (m : outcome A) (k : A -> outcome B) : outcome B :=
  match m with
  | Returned a => k a
  | Raised e => Raised e
  | Blocked => Blocked
  end.

#[export] Instance Monad_outcome : Monad outcome :=
  {| ret := @Returned; bind := @outcome_bind |}.

Definition ws_ret {A} (a : A) : ws A := fun fs => mkRun (Returned a) fs [].

(** The run [r], preceded by the input and output [t] done before it. *)
Definition prepend {A} (t : list io_event) (r : run A) : run A :=
  mkRun (out r) (unread r) (t ++ trace r).

Definition ws_bind {A B} (m : ws A) (k : A -> ws B) : ws B := fun fs =>
  match m fs with
  | mkRun (Returned a) more t => prepend t (k a more)
  | mkRun (Raised e) more t => mkRun (Raised e) more t
  | mkRun Blocked more t => mkRun Blocked more t
  end.

#[export] Instance Monad_ws : Monad ws :=
  {| ret := @ws_ret; bind := @ws_bind |}.

Definition lift {A} (o : outcome A) : ws A := fun fs => mkRun o fs [].

Definition raise {A} (e : exn) : ws A := lift (Raised e).

(** [try: body except ...: handler] *)
Definition try_except {A} (body : ws A) (handler : exn -> ws A) : ws A := fun fs =>
  match body fs with
  | mkRun (Raised e) more t => prepend t (handler e more)
  | r => r
  end.

(** [websocket.recv()] then [json.loads]. *)
Definition receive_message : ws pyval := fun fs =>
  match fs with
  | [] => mkRun Blocked [] []
  | f :: more =>
      mkRun (match f with
             | Message event => Returned event
             | PeerClosed => Raised ConnectionClosed
             | Cancel => Raised CancelledError
             | BadFrame => Raised ReceiveError
             end) more [RecvFrame f]
  end.

(** [websocket.send(json.dumps(message))]. *)
Definition send_message (message : pyval) : ws unit := fun fs =>
  mkRun (Returned tt) fs [SendMsg message].

(** Leaving the [async with] block closes the connection, whether the
    body returned or raised; a body that is still waiting has not left. *)
Definition scoped {A} (deployment : pystr) (r : run A) : run A :=
  match r with
  | mkRun Blocked more t => mkRun Blocked more (Connect deployment :: t)
  | mkRun o more t => mkRun o more (Connect deployment :: t ++ [Disconnect])
  end.

(** [async with websockets.connect(...) as websocket: body] *)
Definition with_connect {A} (deployment : pystr) (ep : endpoint) (body : ws A) : run A :=
  match ep with
  | Refuse => mkRun (Raised ConnectError) [] []
  | Accept script => scoped deployment (body script)
  end.

(** ** The protocol: [chat_completion] *)

(** Lines 51-58: wait for the [session.created] event and read the
    session id out of it. *)
Definition negotiate : ws pyval :=
  response <- receive_message ;;
  ty <- lift (py_get response (py "type") VNone) ;;
  if negb (py_eq_str ty (py "session.created")) then
    error_details <- lift (py_get response (py "error") empty_dict) ;;
    raise (Exception (ExpectedSessionCreated response))
  else
    session <- lift (py_get response (py "session") empty_dict) ;;
    lift (py_get session (py "id") VNone).

(** [{"type": "input_text", "text": text}] *)
Definition input_text (text : pyval) : pyval :=
  VDict [(py "type", VStr (py "input_text")); (py "text", text)].

(** Lines 62-67: one content part per message of the list. *)
Fixpoint content_messages (messages : list pyval) : outcome (list pyval) :=
  match messages with
  | [] => Returned []
  | msg :: more =>
      text <- py_getitem msg (py "content") ;;
      parts <- content_messages more ;;
      Returned (input_text text :: parts)
  end.

(** Lines 70-77. *)
Definition create_item_request (content : list pyval) : pyval :=
  VDict [(py "type", VStr (py "conversation.item.create"));
         (py "item", VDict [(py "type", VStr (py "message"));
                            (py "role", VStr (py "user"));
                            (py "content", VList content)])].

(** Lines 93-96. *)
Definition response_request : pyval :=
  VDict [(py "type", VStr (py "response.create")); (py "response", empty_dict)].

(** Lines 104-118, the body of the [try] of one iteration: [Some v] is
    [break] with [final_response = v], [None] is the next iteration. *)
Definition stream_try : ws (option pyval) :=
  response <- receive_message ;;
  has_error <- lift (py_in (py "error") response) ;;
  if (has_error : bool) then
    error_details <- lift (py_get response (py "error") empty_dict) ;;
    raise (Exception (APIError error_details))
  else
    response_type <- lift (py_get response (py "type") (VStr [])) ;;
    if py_eq_str response_type (py "response.done") then
      final_response <- lift (py_get response (py "response") empty_dict) ;;
      ret (Some final_response)
    else if py_eq_str response_type (py "error") then
      error_details <- lift (py_get response (py "error") empty_dict) ;;
      raise (Exception (StreamError error_details))
    else ret None.

(** Lines 103-125: a closed connection leaves the loop with
    [final_response] still [None]; any other [Exception] is raised again. *)
Definition stream_iteration : ws (option pyval) :=
  try_except stream_try
    (fun e => match e with
              | ConnectionClosed => ret (Some VNone)
              | _ => raise e
              end).

(** Lines 102-127, [while True].  Each iteration reads one frame or leaves
    the loop, so one more step than there are unread frames is enough. *)
Fixpoint stream_loop (fuel : nat) : ws pyval :=
  match fuel with
  | O => lift Blocked
  | S fuel' =>
      step <- stream_iteration ;;
      match step with
      | Some final_response => ret final_response
      | None => stream_loop fuel'
      end
  end.

Definition stream_events : ws pyval := fun fs => stream_loop (S (List.length fs)) fs.

(** Lines 61-90: build and send the conversation item, then read the
    acknowledgement. *)
Definition submit_content (messages : list pyval) : ws unit :=
  content <- lift (content_messages messages) ;;
  send_message (create_item_request content) ;;;
  response <- receive_message ;;
  has_error <- lift (py_in (py "error") response) ;;
  if (has_error : bool) then
    error_details <- lift (py_get response (py "error") empty_dict) ;;
    raise (Exception (ItemCreationError error_details))
  else
    ty <- lift (py_get response (py "type") VNone) ;;
    if negb (py_eq_str ty (py "conversation.item.created")) then
      raise (Exception ExpectedItemCreated)
    else ret tt.

(** Lines 50-127, the body of the [async with].  The parameter
    [session_id] is rebound by the handshake before it is ever read. *)
Definition chat_session (messages : list pyval) (session_id : pyval) : ws pyval :=
  session_id <- negotiate ;;
  submit_content messages ;;;
  send_message response_request ;;;
  stream_events.

Definition chat_completion (deployment : pystr) (messages : list pyval)
    (session_id : pyval) (ep : endpoint) : run pyval :=
  with_connect deployment ep (chat_session messages session_id).

(** ** The caller: the voice loop of [main] *)

(** Lines 326-329, the inner [for] and its [break]: the transcript of the
    first part of type [audio], if there is one. *)
Fixpoint first_audio (contents : list pyval) : outcome (option pyval) :=
  match contents with
  | [] => Returned None
  | content :: more =>
      ty <- py_get content (py "type") VNone ;;
      if py_eq_str ty (py "audio") then
        transcript <- py_get content (py "transcript") (VStr []) ;;
        Returned (Some transcript)
      else first_audio more
  end.

(** [item.get('type') == 'message' and item.get('role') == 'assistant'] *)
Definition is_assistant_message (item : pyval) : outcome bool :=
  ty <- py_get item (py "type") VNone ;;
  if py_eq_str ty (py "message") then
    role <- py_get item (py "role") VNone ;;
    Returned (py_eq_str role (py "assistant"))
  else Returned false.

(** Lines 324-329, the outer [for]: it runs over every output item, and
    each assistant message with an audio part rebinds [response]. *)
Fixpoint scan_output (items : list pyval) (response : pyval) : outcome pyval :=
  match items with
  | [] => Returned response
  | item :: more =>
      hit <- is_assistant_message item ;;
      if (hit : bool) then
        content <- py_get item (py "content") (VList []) ;;
        parts <- py_iter content ;;
        found <- first_audio parts ;;
        scan_output more
          (match found with Some transcript => transcript | None => response end)
      else scan_output more response
  end.

(** Lines 323-329. *)
Definition extract_transcript (response : pyval) : outcome pyval :=
  match response with
  | VDict kvs =>
      if has_key (py "output") kvs then
        output <- py_getitem response (py "output") ;;
        items <- py_iter output ;;
        scan_output items response
      else Returned response
  | _ => Returned response
  end.

(** Lines 331-332. *)
Definition require_response (response : pyval) : outcome pyval :=
  if negb (truthy response) then Raised (Exception NoValidResponse)
  else Returned response.

(** Lines 316-332: one turn as the caller sees it, [chat_completion]
    followed by the extraction of the reply. *)
Definition executeTurn (deployment : pystr) (conversation_history : list pyval)
    (ep : endpoint) : run pyval :=
  let r := chat_completion deployment conversation_history VNone ep in
  mkRun (response <- out r ;;
         response <- extract_transcript response ;;
         require_response response)
        (unread r) (trace r).

(** A turn of the conversation, [{"role": role, "content": content}]. *)
Definition message_of (role : pystr) (content : pyval) : pyval :=
  VDict [(py "role", VStr role); (py "content", content)].

Inductive role : Type := System | User | Assistant.

Definition role_name (r : role) : pystr :=
  match r with
  | System => py "system"
  | User => py "user"
  | Assistant => py "assistant"
  end.

Record Turn : Type := mkTurn { turn_role : role; turn_content : pystr }.

Definition turn_message (t : Turn) : pyval :=
  message_of (role_name (turn_role t)) (VStr (turn_content t)).

(** [print(x)] with standard output encoding UTF-8 strictly: a string is
    written unless it holds a surrogate code point, which the codec refuses
    with [UnicodeEncodeError]; any other value is written as its [repr],
    which escapes the surrogates inside it. *)
Definition is_surrogate (c : N) : bool := ((0xd800 <=? c) && (c <=? 0xdfff))%N.

Definition prints (x : pyval) : bool :=
  match x with
  | VStr s => negb (existsb is_surrogate s)
  | _ => true
  end.

(** [c.isspace()]: the white space of Unicode, as [str.strip] with no
    argument removes it. *)
Definition isspace (c : N) : bool :=
  (((0x09 <=? c) && (c <=? 0x0d)) || ((0x1c <=? c) && (c <=? 0x20))
   || (c =? 0x85) || (c =? 0xa0) || (c =? 0x1680)
   || ((0x2000 <=? c) && (c <=? 0x200a))
   || (c =? 0x2028) || (c =? 0x2029) || (c =? 0x202f) || (c =? 0x205f)
   || (c =? 0x3000))%N.

Fixpoint lstrip (s : pystr) : pystr :=
  match s with
  | c :: s' => if isspace c then lstrip s' else s
  | [] => []
  end.

(** [s.strip()] *)
Definition strip (s : pystr) : pystr := rev (lstrip (rev (lstrip s))).

(** Whether [c] is the letter [a] (a small letter of ASCII) or its
    capital. *)
Definition is_letter (a : ascii) (c : N) : bool :=
  ((c =? N_of_ascii a) || (c =? N_of_ascii a - 32))%N.

(** [text.lower() == "exit"].  [str.lower] rewrites a string character by
    character, each into one or more characters; the only characters it
    turns into [e], [x], [i] or [t] are these letters and their capitals
    (the dotted capital I of Turkish becomes an [i] with a combining dot,
    two characters).  So the test holds of the spellings of the word in
    small and capital letters and of nothing else. *)
Definition lower_is_exit (text : pystr) : bool :=
  match text with
  | [c1; c2; c3; c4] =>
      is_letter "e" c1 && is_letter "x" c2 && is_letter "i" c3
      && is_letter "t" c4
  | _ => false
  end.

(** Lines 311-335 for one utterance that is to be answered: the history
    after the turn and the run of the turn.  The reply is printed (line
    334) before it is appended (line 335), and a [print] that raises leaves
    the [try] block like any other exception of the turn. *)
Definition voice_turn (deployment : pystr) (conversation_history : list pyval)
    (text : pystr) (ep : endpoint) : list pyval * run pyval :=
  let history := conversation_history ++ [message_of (py "user") (VStr text)] in
  let r := executeTurn deployment history ep in
  match out r with
  | Returned response =>
      if prints response
      then (history ++ [message_of (py "assistant") response], r)
      else (history, mkRun (Raised UnicodeEncodeError) (unread r) (trace r))
  | _ => (history, r)
  end.

(** Lines 288-345 and 359-362 over the recognised utterances, each the
    text of a result of reason [RecognizedSpeech] with the endpoint
    behaviour a connection made for it meets.  The text is stripped; an
    empty one is skipped (lines 297-299); the text is printed (line 301),
    and a [print] that raises is caught by the outer handler, which leaves
    the loop (lines 359-362); the word [exit] ends the loop (lines
    303-308); any other text gets a turn.  An [Exception] of the turn is
    reported and the loop goes on (lines 340-345); a cancellation or a
    suspended turn ends it. *)
Fixpoint voice_chat (deployment : pystr) (conversation_history : list pyval)
    (utterances : list (pystr * endpoint)) : list pyval * list io_event :=
  match utterances with
  | [] => (conversation_history, [])
  | (result_text, ep) :: more =>
      let text := strip result_text in
      if negb (truthy (VStr text)) then
        voice_chat deployment conversation_history more
      else if negb (prints (VStr text)) then (conversation_history, [])
      else if lower_is_exit text then (conversation_history, [])
      else
        let (history, r) := voice_turn deployment conversation_history text ep in
        let go_on :=
          match out r with
          | Returned _ => true
          | Raised e => is_Exception e
          | Blocked => false
          end in
        if go_on then
          let (final, later) := voice_chat deployment history more in
          (final, trace r ++ later)
        else (history, trace r)
  end.

(** ** The codec: [json.dumps] and [json.loads]

    [send_message] hands [json.dumps(message)] to the socket and
    [receive_message] applies [json.loads] to what the socket delivers.
    Both are modelled with the defaults the source uses them with: output
    restricted to ASCII, separators [", "] and [": "].  The text on the wire
    is a Python string as well.  Python converts between integers and
    decimal text up to [max_str_digits] digits and raises [ValueError]
    beyond: [loads] refuses such a text, and [json_dumps] below is
    [json.dumps] with this failure, [dumps] being the text it writes when
    it does not fail. *)

Open Scope N_scope.

Definition ch (a : ascii) : N := N_of_ascii a.

(** [sys.int_info.default_max_str_digits] *)
Definition max_str_digits : nat := 4300.

(** The double quote. *)
Definition dquote : N := 34.

Definition hex_digit (n : N) : N :=
  if n <? 10 then ch "0" + n else ch "a" + (n - 10).

(** ['\\u{0:04x}'.format(n)], for [n] below [0x10000] *)
Definition u_escape (n : N) : pystr :=
  [ch "\"; ch "u";
   hex_digit (N.shiftr n 12 mod 16); hex_digit (N.shiftr n 8 mod 16);
   hex_digit (N.shiftr n 4 mod 16); hex_digit (n mod 16)].

(** What [encode_basestring_ascii] writes for one character. *)
Definition escape_char (c : N) : pystr :=
  if c =? dquote then [ch "\"; dquote]
  else if c =? ch "\" then [ch "\"; ch "\"]
  else if c =? 10 then [ch "\"; ch "n"]
  else if c =? 13 then [ch "\"; ch "r"]
  else if c =? 9 then [ch "\"; ch "t"]
  else if c =? 8 then [ch "\"; ch "b"]
  else if c =? 12 then [ch "\"; ch "f"]
  else if (32 <=? c) && (c <=? 126) then [c]
  else if c <? 0x10000 then u_escape c
  else
    let n := c - 0x10000 in
    u_escape (N.lor 0xd800 (N.land (N.shiftr n 10) 0x3ff))
      ++ u_escape (N.lor 0xdc00 (N.land n 0x3ff)).

Definition encode_string (s : pystr) : pystr :=
  dquote :: flat_map escape_char s ++ [dquote].

Fixpoint uint_digits (d : Decimal.uint) : pystr :=
  match d with
  | Decimal.Nil => []
  | Decimal.D0 d' => ch "0" :: uint_digits d'
  | Decimal.D1 d' => ch "1" :: uint_digits d'
  | Decimal.D2 d' => ch "2" :: uint_digits d'
  | Decimal.D3 d' => ch "3" :: uint_digits d'
  | Decimal.D4 d' => ch "4" :: uint_digits d'
  | Decimal.D5 d' => ch "5" :: uint_digits d'
  | Decimal.D6 d' => ch "6" :: uint_digits d'
  | Decimal.D7 d' => ch "7" :: uint_digits d'
  | Decimal.D8 d' => ch "8" :: uint_digits d'
  | Decimal.D9 d' => ch "9" :: uint_digits d'
  end.

(** [int.__repr__] *)
Definition encode_int (n : Z) : pystr :=
  match n with
  | Z0 => [ch "0"]
  | Zpos p => uint_digits (Pos.to_uint p)
  | Zneg p => ch "-" :: uint_digits (Pos.to_uint p)
  end.

(** [', '.join(chunks)] *)
Fixpoint join_comma (chunks : list pystr) : pystr :=
  match chunks with
  | [] => []
  | [c] => c
  | c :: more => c ++ py ", " ++ join_comma more
  end.

(** The text [json.dumps] writes for [v].  Where [json.dumps] raises, on
    an integer of more than [max_str_digits] digits, nothing is written:
    [json_dumps] below is the call with that failure. *)
Fixpoint dumps (v : pyval) : pystr :=
  match v with
  | VNone => py "null"
  | VBool true => py "true"
  | VBool false => py "false"
  | VInt n => encode_int n
  | VStr s => encode_string s
  | VList items => ch "[" :: join_comma (map dumps items) ++ [ch "]"]
  | VDict kvs =>
      ch "{" :: join_comma
                  (map (fun kv : pystr * pyval =>
                          let (k, x) := kv in encode_string k ++ py ": " ++ dumps x)
                       kvs)
        ++ [ch "}"]
  end.

(** The text of one member of a dictionary. *)
Definition member_text (kv : pystr * pyval) : pystr :=
  let (k, x) := kv in encode_string k ++ py ": " ++ dumps x.

Definition is_ws (c : N) : bool :=
  (c =? 32) || (c =? 9) || (c =? 10) || (c =? 13).

Fixpoint skip_ws (s : pystr) : pystr :=
  match s with
  | c :: s' => if is_ws c then skip_ws s' else s
  | [] => []
  end.

Definition hex_value (c : N) : option N :=
  if (ch "0" <=? c) && (c <=? ch "9") then Some (c - ch "0")
  else if (ch "a" <=? c) && (c <=? ch "f") then Some (c - ch "a" + 10)
  else if (ch "A" <=? c) && (c <=? ch "F") then Some (c - ch "A" + 10)
  else None.

(** The value of four hexadecimal digits. *)
Definition hex4 (a b c d : N) : option N :=
  match hex_value a, hex_value b, hex_value c, hex_value d with
  | Some x, Some y, Some z, Some w => Some (((x * 16 + y) * 16 + z) * 16 + w)
  | _, _, _, _ => None
  end.

Definition is_high_surrogate (u : N) : bool := (0xd800 <=? u) && (u <=? 0xdbff).
Definition is_low_surrogate (u : N) : bool := (0xdc00 <=? u) && (u <=? 0xdfff).

Definition join_surrogates (u u2 : N) : N :=
  0x10000 + N.lor (N.shiftl (u - 0xd800) 10) (u2 - 0xdc00).

(** The character a one-letter escape stands for. *)
Definition unescape (e : N) : option N :=
  if e =? dquote then Some dquote
  else if e =? ch "\" then Some (ch "\")
  else if e =? ch "/" then Some (ch "/")
  else if e =? ch "b" then Some 8
  else if e =? ch "f" then Some 12
  else if e =? ch "n" then Some 10
  else if e =? ch "r" then Some 13
  else if e =? ch "t" then Some 9
  else None.

Definition cons_fst {A B} (a : A) (r : option (list A * B)) : option (list A * B) :=
  match r with Some (l, b) => Some (a :: l, b) | None => None end.

(** [scanstring], strict, entered after the opening quote: the string and
    the text after its closing quote.  A [\u] escape of a high surrogate
    that is followed by a [\u] escape of a low surrogate reads as the one
    character the pair encodes. *)
Fixpoint scan_string (s : pystr) : option (pystr * pystr) :=
  match s with
  | [] => None
  | c :: rest =>
      if c =? dquote then Some ([], rest)
      else if c =? ch "\" then
        match rest with
        | [] => None
        | e :: rest0 =>
            if e =? ch "u" then
              match rest0 with
              | a :: b :: c1 :: d :: rest1 =>
                  match hex4 a b c1 d with
                  | None => None
                  | Some u =>
                      match rest1 with
                      | b1 :: b2 :: a2 :: b3 :: c2 :: d2 :: rest2 =>
                          match hex4 a2 b3 c2 d2 with
                          | Some u2 =>
                              if is_high_surrogate u && (b1 =? ch "\")
                                 && (b2 =? ch "u") && is_low_surrogate u2
                              then cons_fst (join_surrogates u u2) (scan_string rest2)
                              else cons_fst u (scan_string rest1)
                          | None => cons_fst u (scan_string rest1)
                          end
                      | _ => cons_fst u (scan_string rest1)
                      end
                  end
              | _ => None
              end
            else
              match unescape e with
              | Some x => cons_fst x (scan_string rest0)
              | None => None
              end
        end
      else if c <? 32 then None
      else cons_fst c (scan_string rest)
  end.

Definition digit_value (c : N) : option N :=
  if (ch "0" <=? c) && (c <=? ch "9") then Some (c - ch "0") else None.

(** The longest run of decimal digits at the head of [s], read as a number
    continuing [acc]. *)
Fixpoint scan_digits (acc : N) (s : pystr) : N * pystr :=
  match s with
  | c :: s' =>
      match digit_value c with
      | Some d => scan_digits (acc * 10 + d) s'
      | None => (acc, s)
      end
  | [] => (acc, [])
  end.

(** A number that goes on with a fraction or an exponent is a float, and
    after an integer no other token can start with one of these characters:
    either way the model has no value for the text. *)
Definition float_follows (s : pystr) : bool :=
  match s with
  | c :: _ => (c =? ch ".") || (c =? ch "e") || (c =? ch "E")
  | [] => false
  end.

(** An integer: an optional minus sign, then [0] alone or a digit from 1
    to 9 and the digits after it, [max_str_digits] digits at most. *)
Definition scan_number (s : pystr) : option (Z * pystr) :=
  let (negative, s1) :=
    match s with
    | c :: s' => if c =? ch "-" then (true, s') else (false, s)
    | [] => (false, [])
    end in
  match s1 with
  | c :: s2 =>
      match digit_value c with
      | Some d =>
          let (n, rest) := if d =? 0 then (0%N, s2) else scan_digits d s2 in
          if float_follows rest then None
          else if (max_str_digits <? List.length s1 - List.length rest)%nat
          then None
          else Some (if negative then (- Z.of_N n)%Z else Z.of_N n, rest)
      | None => None
      end
  | [] => None
  end.

(** [dict(pairs)]: a repeated key keeps its place and takes the last value. *)
Fixpoint dict_set (k : pystr) (v : pyval) (d : list (pystr * pyval))
    : list (pystr * pyval) :=
  match d with
  | [] => [(k, v)]
  | (k', v') :: d' =>
      if pystr_eqb k k' then (k', v) :: d' else (k', v') :: dict_set k v d'
  end.

Definition dict_of_pairs (pairs : list (pystr * pyval)) : list (pystr * pyval) :=
  fold_left (fun d kv => dict_set (fst kv) (snd kv) d) pairs [].

(** [scan_once], [JSONArray] and [JSONObject].  Every call reads at least
    one character, so a call on [s] never needs more than [length s] nested
    calls; [fuel] bounds them. *)
Fixpoint scan_once (fuel : nat) (s : pystr) {struct fuel} : option (pyval * pystr) :=
  match fuel with
  | O => None
  | S fuel' =>
      match s with
      | [] => None
      | c :: rest =>
          if c =? dquote then
            match scan_string rest with
            | Some (text, rest') => Some (VStr text, rest')
            | None => None
            end
          else if c =? ch "{" then
            match skip_ws rest with
            | [] => None
            | c1 :: rest1 =>
                if c1 =? ch "}" then Some (VDict [], rest1)
                else
                  match scan_members fuel' (c1 :: rest1) with
                  | Some (pairs, rest') => Some (VDict (dict_of_pairs pairs), rest')
                  | None => None
                  end
            end
          else if c =? ch "[" then
            match skip_ws rest with
            | [] => None
            | c1 :: rest1 =>
                if c1 =? ch "]" then Some (VList [], rest1)
                else
                  match scan_elements fuel' (c1 :: rest1) with
                  | Some (values, rest') => Some (VList values, rest')
                  | None => None
                  end
            end
          else if is_prefix (py "null") s then Some (VNone, skipn 4%nat s)
          else if is_prefix (py "true") s then Some (VBool true, skipn 4%nat s)
          else if is_prefix (py "false") s then Some (VBool false, skipn 5%nat s)
          else
            match scan_number s with
            | Some (n, rest') => Some (VInt n, rest')
            | None => None
            end
      end
  end

with scan_elements (fuel : nat) (s : pystr) {struct fuel}
    : option (list pyval * pystr) :=
  match fuel with
  | O => None
  | S fuel' =>
      match scan_once fuel' s with
      | None => None
      | Some (value, rest) =>
          match skip_ws rest with
          | [] => None
          | c :: rest1 =>
              if c =? ch "]" then Some ([value], rest1)
              else if c =? ch "," then
                match scan_elements fuel' (skip_ws rest1) with
                | Some (values, rest') => Some (value :: values, rest')
                | None => None
                end
              else None
          end
      end
  end

with scan_members (fuel : nat) (s : pystr) {struct fuel}
    : option (list (pystr * pyval) * pystr) :=
  match fuel with
  | O => None
  | S fuel' =>
      match s with
      | [] => None
      | q :: rest =>
          if q =? dquote then
            match scan_string rest with
            | None => None
            | Some (key, rest1) =>
                match skip_ws rest1 with
                | [] => None
                | c1 :: rest2 =>
                    if c1 =? ch ":" then
                      match scan_once fuel' (skip_ws rest2) with
                      | None => None
                      | Some (value, rest3) =>
                          match skip_ws rest3 with
                          | [] => None
                          | c2 :: rest4 =>
                              if c2 =? ch "}" then Some ([(key, value)], rest4)
                              else if c2 =? ch "," then
                                match scan_members fuel' (skip_ws rest4) with
                                | Some (pairs, rest') =>
                                    Some ((key, value) :: pairs, rest')
                                | None => None
                                end
                              else None
                          end
                      end
                    else None
                end
            end
          else None
      end
  end.

(** [json.loads]: one value, with nothing but white space around it; a
    text that starts with a byte order mark is refused.  [None] stands for
    a [JSONDecodeError], for the [ValueError] of an integer with too many
    digits and for a text whose value holds a float. *)
Definition loads (s : pystr) : option pyval :=
  if match s with c :: _ => c =? 0xfeff | [] => false end then None
  else
    match scan_once (S (List.length s)) (skip_ws s) with
    | Some (v, rest) =>
        match skip_ws rest with
        | [] => Some v
        | _ :: _ => None
        end
    | None => None
    end.

(** A conversation item as it is written to the wire, for any role and any
    texts. *)
Definition item_create_event (role : pystr) (texts : list pystr) : pyval :=
  VDict [(py "type", VStr (py "conversation.item.create"));
         (py "item", VDict [(py "type", VStr (py "message"));
                            (py "role", VStr role);
                            (py "content",
                             VList (map (fun t => input_text (VStr t)) texts))])].

(** The strings the round trip leaves alone: code points of Unicode, and
    no high surrogate directly before a low surrogate. *)
Fixpoint no_surrogate_pair (s : pystr) : bool :=
  match s with
  | c :: (c' :: _) as s' =>
      negb (is_high_surrogate c && is_low_surrogate c') && no_surrogate_pair s'
  | _ => true
  end.

Definition text_ok (s : pystr) : bool :=
  forallb (fun c => c <? 0x110000) s && no_surrogate_pair s.

Fixpoint keys_distinct (ks : list pystr) : bool :=
  match ks with
  | [] => true
  | k :: more => negb (existsb (pystr_eqb k) more) && keys_distinct more
  end.

(** The number of decimal digits of an integer, and the integers Python
    converts to text and back. *)
Definition int_digits (n : Z) : nat := List.length (encode_int (Z.abs n)).

Definition int_ok (n : Z) : bool := (int_digits n <=? max_str_digits)%nat.



(** The values the round trip leaves alone: every string in them, keys
    included, is [text_ok], every integer is within the limit on digits, and
    no dictionary repeats a key. *)
Fixpoint wire_safe (v : pyval) : bool :=
  match v with
  | VInt n => int_ok n
  | VStr s => text_ok s
  | VList items => forallb wire_safe items
  | VDict kvs =>
      keys_distinct (map fst kvs)
      && forallb (fun kv : pystr * pyval =>
                    let (k, x) := kv in text_ok k && wire_safe x) kvs
  | _ => true
  end.

(** A text ends a number when it does not go on with a digit, a fraction
    or an exponent. *)
Definition ends_number (tail : pystr) : bool :=
  match tail with
  | [] => true
  | c :: _ =>
      match digit_value c with
      | Some _ => false
      | None => negb (float_follows tail)
      end
  end.

(** What the induction on values provides: with fuel for its text, a
    value is read back from the head of any text that continues after it. *)
Definition reads_back (x : pyval) : Prop :=
  wire_safe x = true ->
  forall (fuel : nat) (tail : pystr),
    (List.length (dumps x) <= fuel)%nat -> ends_number tail = true ->
    scan_once fuel (dumps x ++ tail) = Some (x, tail).

(** Whether [t] starts with the [\u] escape of a low surrogate. *)
Definition low_escape_head (t : pystr) : bool :=
  match t with
  | b1 :: b2 :: a :: b :: c :: d :: _ =>
      (b1 =? ch "\") && (b2 =? ch "u")
      && match hex4 a b c d with
         | Some u2 => is_low_surrogate u2
         | None => false
         end
  | _ => false
  end.

Close Scope N_scope.

(** ** Vocabulary for statements about events *)

Definition field (k : pystr) (event : pyval) : option pyval :=
  match event with VDict kvs => lookup k kvs | _ => None end.

(** The event is an object whose [type] is the string [s]. *)
Definition has_type (event : pyval) (s : pystr) : bool :=
  match field (py "type") event with Some v => py_eq_str v s | None => false end.

(** The event is an object with an [error] member. *)
Definition has_error (event : pyval) : bool :=
  match field (py "error") event with Some _ => true | None => false end.

Definition error_details (event : pyval) : pyval :=
  match field (py "error") event with Some v => v | None => empty_dict end.

Definition session_id_of (event : pyval) : pyval :=
  match field (py "session") event with
  | Some (VDict session) =>
      match lookup (py "id") session with Some v => v | None => VNone end
  | _ => VNone
  end.

(** A [session.created] event whose [session] member, when present, is an
    object. *)
Definition handshake_ok (event : pyval) : bool :=
  has_type event (py "session.created") &&
  match field (py "session") event with
  | None | Some (VDict _) => true
  | Some _ => false
  end.

Definition item_created_ok (event : pyval) : bool :=
  negb (has_error event) && has_type event (py "conversation.item.created").

(** An event of the stream that is neither an error nor the completion. *)
Definition intermediate (event : pyval) : bool :=
  is_dict event && negb (has_error event) &&
  negb (has_type event (py "response.done")) &&
  negb (has_type event (py "error")).

Definition response_done (event : pyval) : bool :=
  negb (has_error event) && has_type event (py "response.done").

Definition response_payload (event : pyval) : pyval :=
  match field (py "response") event with Some v => v | None => empty_dict end.

(** The content parts [chat_completion] derives from a conversation. *)
Definition parts_of (conversation : list Turn) : list pyval :=
  map (fun t => input_text (VStr (turn_content t))) conversation.

Definition sends (t : list io_event) : list pyval :=
  flat_map (fun e => match e with SendMsg m => [m] | _ => [] end) t.

Definition connects (t : list io_event) : nat :=
  List.length (filter (fun e => match e with Connect _ => true | _ => false end) t).

Definition disconnects (t : list io_event) : nat :=
  List.length (filter (fun e => match e with Disconnect => true | _ => false end) t).

Definition exited {A} (o : outcome A) : bool :=
  match o with Blocked => false | _ => true end.

(** An output item that leaves [response] as it is: not an assistant
    message, or one whose content is a list of objects none of type
    [audio]. *)
Definition not_audio (part : pyval) : bool :=
  is_dict part && negb (has_type part (py "audio")).

Definition assistant_message (item : pyval) : bool :=
  has_type item (py "message") &&
  match field (py "role") item with
  | Some v => py_eq_str v (py "assistant")
  | None => false
  end.

Definition silent (item : pyval) : bool :=
  is_dict item &&
  (negb (assistant_message item) ||
   match field (py "content") item with
   | None => true
   | Some (VList parts) => forallb not_audio parts
   | Some _ => false
   end).

(** The reply as the specification words it: in the first output item of
    type [message] and role [assistant], the text of the first content part
    that carries one, the [transcript] of an [audio] part or the [text] of
    a [text] part. *)
Definition part_text (part : pyval) : option pyval :=
  if has_type part (py "audio") then field (py "transcript") part
  else if has_type part (py "text") then field (py "text") part
  else None.

Fixpoint first_text (parts : list pyval) : option pyval :=
  match parts with
  | [] => None
  | part :: more =>
      match part_text part with Some t => Some t | None => first_text more end
  end.

Definition spec_reply (response : pyval) : option pyval :=
  match field (py "output") response with
  | Some (VList items) =>
      match find assistant_message items with
      | Some item =>
          match field (py "content") item with
          | Some (VList parts) => first_text parts
          | _ => None
          end
      | None => None
      end
  | _ => None
  end.

(** Literals for the examples. *)
Definition obj (members : list (string * pyval)) : pyval :=
  VDict (map (fun kv => (py (fst kv), snd kv)) members).

Definition str (s : string) : pyval := VStr (py s).

(** The events of the examples. *)
Definition session_created_s1 : pyval :=
  obj [("type", str "session.created"); ("session", obj [("id", str "s1")])]%string.

Definition item_created : pyval :=
  obj [("type", str "conversation.item.created")]%string.

Definition audio_delta : pyval :=
  obj [("type", str "response.audio_transcript.delta"); ("delta", str "Hel")]%string.

Definition response_done_with (output : list pyval) : pyval :=
  obj [("type", str "response.done");
       ("response", obj [("output", VList output)])]%string.

Definition assistant_item (parts : list pyval) : pyval :=
  obj [("type", str "message"); ("role", str "assistant");
       ("content", VList parts)]%string.

Definition audio_part (transcript : string) : pyval :=
  obj [("type", str "audio"); ("transcript", str transcript)]%string.

Definition text_part (text : string) : pyval :=
  obj [("type", str "text"); ("text", str text)]%string.

Definition demo_conversation : list Turn :=
  [mkTurn System (py "You are a helpful assistant. Keep your responses concise and natural.");
   mkTurn User (py "hi")].

Definition demo_deployment : pystr := py "gpt-4o-realtime-preview".

Definition error_event (type message : string) : pyval :=
  obj [("type", str type); ("error", obj [("message", str message)])]%string.

(** Input and output on an open connection, as opposed to opening or
    closing one. *)
Definition is_traffic (e : io_event) : bool :=
  match e with SendMsg _ | RecvFrame _ => true | _ => false end.

Definition traffic_only {A} (m : ws A) : Prop :=
  forall fs, forallb is_traffic (trace (m fs)) = true.

(** What a call has sent and read once it asks for the response. *)
Definition exchange_prefix (deployment : pystr) (conversation : list Turn)
    (hs ic : pyval) : list io_event :=
  [Connect deployment; RecvFrame (Message hs);
   SendMsg (create_item_request (parts_of conversation));
   RecvFrame (Message ic); SendMsg response_request].

(** ** Further parts of [chat.py] *)

(** The exception [receive_message] raises on a frame that is not a
    message. *)
Definition frame_error (f : frame) : option exn :=
  match f with
  | Message _ => None
  | PeerClosed => Some ConnectionClosed
  | Cancel => Some CancelledError
  | BadFrame => Some ReceiveError
  end.

(** Lines 144-150 of [initialize_session]. *)
Definition session_create_request (deployment : pystr) : pyval :=
  VDict [(py "type", VStr (py "session.create"));
         (py "session", VDict [(py "deployment_id", VStr deployment);
                               (py "output_format", VStr (py "text"))])].

(** Lines 143-162, the body of the [async with] of [initialize_session]. *)
Definition initialize_session_ws (deployment : pystr) : ws pyval :=
  send_message (session_create_request deployment) ;;;
  response <- receive_message ;;
  has_error <- lift (py_in (py "error") response) ;;
  if (has_error : bool) then
    error_details <- lift (py_get response (py "error") empty_dict) ;;
    raise (Exception (SessionInitializationError error_details))
  else
    session <- lift (py_get response (py "session") empty_dict) ;;
    lift (py_get session (py "id") VNone).

Definition initialize_session (deployment : pystr) (ep : endpoint)
    : run pyval :=
  with_connect deployment ep (initialize_session_ws deployment).

(** [s.replace(old, new)] for a non-empty [old]: the occurrences of [old]
    are found from the left and do not overlap; [skip] counts the characters
    of an occurrence still to pass over. *)
Fixpoint replace_from (skip : nat) (old new s : pystr) : pystr :=
  match s with
  | [] => []
  | c :: s' =>
      match skip with
      | S k => replace_from k old new s'
      | O =>
          if is_prefix old s
          then new ++ replace_from (List.length old - 1) old new s'
          else c :: replace_from 0 old new s'
      end
  end.

Definition str_replace (old new s : pystr) : pystr := replace_from 0 old new s.

(** What an f-string writes for a value of [os.getenv]. *)
Definition format_env (v : option pystr) : pystr :=
  match v with Some s => s | None => py "None" end.

(** Lines 35-39 (and 131-134): the URL of the connection, from the values
    of the environment.  An unset endpoint has no [replace]. *)
Definition ws_url (endpoint deployment : option pystr) : outcome pystr :=
  match endpoint with
  | None => Raised AttributeError
  | Some e =>
      Returned (py "wss://" ++ str_replace (py "https://") [] e
                ++ py "?api-version=2024-10-01-preview&deployment="
                ++ format_env deployment)
  end.

(** No dictionary in the value repeats a key. *)
Fixpoint keys_unique (v : pyval) : bool :=
  match v with
  | VList items => forallb keys_unique items
  | VDict kvs =>
      keys_distinct (map fst kvs)
      && forallb (fun kv : pystr * pyval => let (_, x) := kv in keys_unique x) kvs
  | _ => true
  end.

(** A printable character of ASCII. *)
Definition printable (c : N) : bool := ((32 <=? c) && (c <=? 126))%N.

(** A computation that sends nothing, whatever it reads. *)
Definition receives_only {A} (m : ws A) : Prop :=
  forall fs, sends (trace (m fs)) = [].

(** What a frame that decodes to something other than an object raises
    where [chat_completion] first tests it for an [error] member. *)
Definition not_an_object_error (event : pyval) : exn :=
  match event with
  | VList _ | VStr _ => AttributeError
  | _ => TypeError
  end.

(** An output item the extraction passes without raising: an object that
    is not an assistant message, or one whose content is absent or a list of
    objects. *)
Definition readable (item : pyval) : bool :=
  is_dict item &&
  (negb (assistant_message item) ||
   match field (py "content") item with
   | None => true
   | Some (VList parts) => forallb is_dict parts
   | Some _ => false
   end).

(** A message of a history: an object with a [role] member. *)
Definition has_role (role : pystr) (message : pyval) : bool :=
  match field (py "role") message with
  | Some v => py_eq_str v role
  | None => false
  end.


(** * Properties *)

Unset Implicit Arguments.

Arguments py : simpl never.

(** ** Strings and dictionaries *)

Lemma pystr_eqb_refl (s : pystr) : pystr_eqb s s = true.
Proof.
  induction s as [|c s IH]; simpl; [reflexivity|].
  now rewrite N.eqb_refl, IH.
Qed.

Lemma pystr_eqb_eq (a b : pystr) : pystr_eqb a b = true <-> a = b.
Proof.
  split.
  - revert b. induction a as [|x a IH]; intros [|y b] H; simpl in H;
      try discriminate; [reflexivity|].
    apply andb_true_iff in H. destruct H as [Hx Hab].
    apply N.eqb_eq in Hx. apply IH in Hab. now subst.
  - intros ->. apply pystr_eqb_refl.
Qed.

(** ** Running the socket monad *)

Lemma prepend_nil {A} (r : run A) : prepend [] r = r.
Proof. now destruct r. Qed.

Lemma prepend_prepend {A} (t1 t2 : list io_event) (r : run A) :
  prepend t1 (prepend t2 r) = prepend (t1 ++ t2) r.
Proof. unfold prepend; simpl. now rewrite app_assoc. Qed.

Lemma prepend_mkRun {A} t (o : outcome A) more t' :
  prepend t (mkRun o more t') = mkRun o more (t ++ t').
Proof. reflexivity. Qed.

Lemma bind_lift_returned {A B} (a : A) (k : A -> ws B) fs :
  (x <- lift (Returned a) ;; k x) fs = k a fs.
Proof. simpl. unfold ws_bind, lift. apply prepend_nil. Qed.

Lemma bind_lift_raised {A B} e (k : A -> ws B) fs :
  (x <- lift (Raised e) ;; k x) fs = mkRun (Raised e) fs [].
Proof. reflexivity. Qed.

Lemma bind_receive_message {B} (k : pyval -> ws B) event fs :
  (x <- receive_message ;; k x) (Message event :: fs)
  = prepend [RecvFrame (Message event)] (k event fs).
Proof. reflexivity. Qed.

Lemma bind_send_message {B} (k : ws B) m fs :
  (send_message m ;;; k) fs = prepend [SendMsg m] (k fs).
Proof. reflexivity. Qed.

Lemma bind_bind {A B C} (m : ws A) (k : A -> ws B) (h : B -> ws C) fs :
  (y <- (x <- m ;; k x) ;; h y) fs = (x <- m ;; y <- k x ;; h y) fs.
Proof.
  simpl. unfold ws_bind. destruct (m fs) as [[a|e|] more t]; try reflexivity.
  destruct (k a more) as [[b|e|] more' t']; simpl; try reflexivity.
  now rewrite prepend_prepend.
Qed.

Lemma bind_returned {A B} (m : ws A) (k : A -> ws B) fs a more t :
  m fs = mkRun (Returned a) more t ->
  (x <- m ;; k x) fs = prepend t (k a more).
Proof. intros H. simpl. unfold ws_bind. now rewrite H. Qed.

Lemma bind_raised {A B} (m : ws A) (k : A -> ws B) fs e more t :
  m fs = mkRun (Raised e) more t ->
  (x <- m ;; k x) fs = mkRun (Raised e) more t.
Proof. intros H. simpl. unfold ws_bind. now rewrite H. Qed.

Lemma raise_run {A} e fs : @raise A e fs = mkRun (Raised e) fs [].
Proof. reflexivity. Qed.

Lemma ret_run {A} (a : A) fs : (ret a : ws A) fs = mkRun (Returned a) fs [].
Proof. reflexivity. Qed.

(** ** The phases of [chat_session] *)

Lemma has_type_dict event s : has_type event s = true -> exists kvs, event = VDict kvs.
Proof.
  destruct event; unfold has_type, field; try discriminate. eauto.
Qed.

Lemma has_error_dict event : has_error event = true -> exists kvs, event = VDict kvs.
Proof.
  destruct event; unfold has_error, field; try discriminate. eauto.
Qed.

Lemma is_dict_dict event : is_dict event = true -> exists kvs, event = VDict kvs.
Proof. destruct event; try discriminate. eauto. Qed.

(** For an object, the comparison of [.get("type")] with a literal is
    [has_type], whichever default the call names. *)
Lemma get_type_eq kvs s default :
  py_eq_str default s = false ->
  py_eq_str (match lookup (py "type") kvs with Some v => v | None => default end) s
  = has_type (VDict kvs) s.
Proof.
  intros Hd. unfold has_type, field.
  destruct (lookup (py "type") kvs); [reflexivity | exact Hd].
Qed.

Lemma negotiate_accepts hs fs :
  handshake_ok hs = true ->
  negotiate (Message hs :: fs)
  = mkRun (Returned (session_id_of hs)) fs [RecvFrame (Message hs)].
Proof.
  intros H. apply andb_true_iff in H. destruct H as [Hty Hs].
  destruct (has_type_dict _ _ Hty) as [kvs ->].
  unfold negotiate. rewrite bind_receive_message.
  unfold py_get at 1. rewrite bind_lift_returned.
  rewrite (get_type_eq kvs (py "session.created") VNone eq_refl), Hty.
  cbn [negb].
  unfold py_get at 1. rewrite bind_lift_returned.
  unfold session_id_of. unfold field in *.
  destruct (lookup (py "session") kvs) as [[]|]; try discriminate; reflexivity.
Qed.

Lemma negotiate_rejects hs fs :
  is_dict hs = true -> has_type hs (py "session.created") = false ->
  negotiate (Message hs :: fs)
  = mkRun (Raised (Exception (ExpectedSessionCreated hs))) fs [RecvFrame (Message hs)].
Proof.
  intros Hd Hty. destruct (is_dict_dict _ Hd) as [kvs ->].
  unfold negotiate. rewrite bind_receive_message.
  unfold py_get at 1. rewrite bind_lift_returned.
  rewrite (get_type_eq kvs (py "session.created") VNone eq_refl), Hty.
  cbn [negb].
  unfold py_get at 1. rewrite bind_lift_returned. reflexivity.
Qed.

Lemma content_messages_turns (conversation : list Turn) :
  content_messages (map turn_message conversation) = Returned (parts_of conversation).
Proof.
  induction conversation as [|t ts IH]; [reflexivity|].
  simpl. rewrite IH. reflexivity.
Qed.

Section SubmitContent.

Variables (messages content : list pyval).
Hypothesis Hcontent : content_messages messages = Returned content.

Lemma submit_content_rejected event fs :
  has_error event = true ->
  submit_content messages (Message event :: fs)
  = mkRun (Raised (Exception (ItemCreationError (error_details event)))) fs
          [SendMsg (create_item_request content); RecvFrame (Message event)].
Proof.
  intros He. destruct (has_error_dict _ He) as [kvs ->].
  unfold submit_content. rewrite Hcontent, bind_lift_returned.
  rewrite bind_send_message, bind_receive_message.
  unfold py_in. rewrite bind_lift_returned.
  change (has_key (py "error") kvs) with (has_error (VDict kvs)). rewrite He.
  unfold py_get. rewrite bind_lift_returned. reflexivity.
Qed.

Lemma submit_content_unexpected event fs :
  is_dict event = true -> has_error event = false ->
  has_type event (py "conversation.item.created") = false ->
  submit_content messages (Message event :: fs)
  = mkRun (Raised (Exception ExpectedItemCreated)) fs [SendMsg (create_item_request content); RecvFrame (Message event)].
Proof.
  intros Hd He Hty. destruct (is_dict_dict _ Hd) as [kvs ->].
  unfold submit_content. rewrite Hcontent, bind_lift_returned.
  rewrite bind_send_message, bind_receive_message.
  unfold py_in. rewrite bind_lift_returned.
  change (has_key (py "error") kvs) with (has_error (VDict kvs)). rewrite He.
  unfold py_get. rewrite bind_lift_returned.
  rewrite (get_type_eq kvs (py "conversation.item.created") VNone eq_refl), Hty.
  reflexivity.
Qed.

Lemma submit_content_created event fs :
  item_created_ok event = true ->
  submit_content messages (Message event :: fs)
  = mkRun (Returned tt) fs [SendMsg (create_item_request content); RecvFrame (Message event)].
Proof.
  intros H. apply andb_true_iff in H. destruct H as [He Hty].
  apply negb_true_iff in He.
  destruct (has_type_dict _ _ Hty) as [kvs ->].
  unfold submit_content. rewrite Hcontent, bind_lift_returned.
  rewrite bind_send_message, bind_receive_message.
  unfold py_in. rewrite bind_lift_returned.
  change (has_key (py "error") kvs) with (has_error (VDict kvs)). rewrite He.
  unfold py_get. rewrite bind_lift_returned.
  rewrite (get_type_eq kvs (py "conversation.item.created") VNone eq_refl), Hty.
  reflexivity.
Qed.

End SubmitContent.

(** ** The event stream *)

Lemma stream_try_message kvs fs :
  stream_try (Message (VDict kvs) :: fs)
  = mkRun (if has_error (VDict kvs)
           then Raised (Exception (APIError (error_details (VDict kvs))))
           else if has_type (VDict kvs) (py "response.done")
           then Returned (Some (response_payload (VDict kvs)))
           else if has_type (VDict kvs) (py "error")
           then Raised (Exception (StreamError (error_details (VDict kvs))))
           else Returned None)
          fs [RecvFrame (Message (VDict kvs))].
Proof.
  unfold stream_try. rewrite bind_receive_message.
  unfold py_in. rewrite bind_lift_returned.
  change (has_key (py "error") kvs) with (has_error (VDict kvs)).
  destruct (has_error (VDict kvs)).
  - unfold py_get. rewrite bind_lift_returned. reflexivity.
  - unfold py_get at 1. rewrite bind_lift_returned.
    rewrite (get_type_eq kvs (py "response.done") (VStr []) eq_refl).
    destruct (has_type (VDict kvs) (py "response.done")).
    + unfold py_get. rewrite bind_lift_returned. reflexivity.
    + rewrite (get_type_eq kvs (py "error") (VStr []) eq_refl).
      destruct (has_type (VDict kvs) (py "error")).
      * unfold py_get. rewrite bind_lift_returned. reflexivity.
      * reflexivity.
Qed.

Lemma stream_iteration_message kvs fs :
  stream_iteration (Message (VDict kvs) :: fs) = stream_try (Message (VDict kvs) :: fs).
Proof.
  unfold stream_iteration, try_except. rewrite stream_try_message.
  destruct (has_error (VDict kvs)); [reflexivity|].
  destruct (has_type (VDict kvs) (py "response.done")); [reflexivity|].
  destruct (has_type (VDict kvs) (py "error")); reflexivity.
Qed.

Lemma stream_loop_intermediate n event fs :
  intermediate event = true ->
  stream_loop (S n) (Message event :: fs)
  = prepend [RecvFrame (Message event)] (stream_loop n fs).
Proof.
  unfold intermediate. rewrite !andb_true_iff, !negb_true_iff.
  intros [[[Hd He] Hdone] Hty]. destruct (is_dict_dict _ Hd) as [kvs ->].
  simpl. unfold ws_bind.
  rewrite stream_iteration_message, stream_try_message, He, Hdone, Hty.
  reflexivity.
Qed.

Lemma stream_loop_error n event fs :
  has_error event = true ->
  stream_loop (S n) (Message event :: fs)
  = mkRun (Raised (Exception (APIError (error_details event)))) fs
          [RecvFrame (Message event)].
Proof.
  intros He. destruct (has_error_dict _ He) as [kvs ->].
  simpl. unfold ws_bind.
  rewrite stream_iteration_message, stream_try_message, He. reflexivity.
Qed.

Lemma stream_loop_done n event fs :
  response_done event = true ->
  stream_loop (S n) (Message event :: fs)
  = mkRun (Returned (response_payload event)) fs [RecvFrame (Message event)].
Proof.
  unfold response_done. rewrite andb_true_iff, negb_true_iff. intros [He Hty].
  destruct (has_type_dict _ _ Hty) as [kvs ->].
  simpl. unfold ws_bind.
  rewrite stream_iteration_message, stream_try_message, He, Hty. reflexivity.
Qed.

Lemma stream_loop_closed n fs :
  stream_loop (S n) (PeerClosed :: fs)
  = mkRun (Returned VNone) fs [RecvFrame PeerClosed].
Proof. reflexivity. Qed.

(** The loop reads through any run of intermediate events. *)
Lemma stream_events_skip (mids : list pyval) fs :
  forallb intermediate mids = true ->
  stream_events (map Message mids ++ fs)
  = prepend (map (fun e => RecvFrame (Message e)) mids) (stream_events fs).
Proof.
  unfold stream_events. induction mids as [|m mids IH]; intros H.
  - simpl app. simpl map. now rewrite prepend_nil.
  - simpl in H. apply andb_true_iff in H. destruct H as [Hm H].
    simpl map. simpl app. simpl List.length.
    rewrite stream_loop_intermediate by exact Hm.
    rewrite (IH H), prepend_prepend. reflexivity.
Qed.

Lemma stream_events_error event fs :
  has_error event = true ->
  stream_events (Message event :: fs)
  = mkRun (Raised (Exception (APIError (error_details event)))) fs
          [RecvFrame (Message event)].
Proof. intros. unfold stream_events. now apply stream_loop_error. Qed.

Lemma stream_events_done event fs :
  response_done event = true ->
  stream_events (Message event :: fs)
  = mkRun (Returned (response_payload event)) fs [RecvFrame (Message event)].
Proof. intros. unfold stream_events. now apply stream_loop_done. Qed.

Lemma stream_events_closed fs :
  stream_events (PeerClosed :: fs)
  = mkRun (Returned VNone) fs [RecvFrame PeerClosed].
Proof. reflexivity. Qed.

(** ** The whole exchange *)

Lemma chat_session_stream conversation session_id hs ic fs :
  handshake_ok hs = true -> item_created_ok ic = true ->
  chat_session (map turn_message conversation) session_id
    (Message hs :: Message ic :: fs)
  = prepend [RecvFrame (Message hs);
             SendMsg (create_item_request (parts_of conversation));
             RecvFrame (Message ic); SendMsg response_request]
      (stream_events fs).
Proof.
  intros Hhs Hic. unfold chat_session. simpl bind. unfold ws_bind.
  rewrite negotiate_accepts by exact Hhs.
  rewrite (@submit_content_created _ _ (content_messages_turns conversation) ic fs Hic).
  simpl. unfold prepend. simpl. reflexivity.
Qed.

Lemma out_scoped {A} d (r : run A) : out (scoped d r) = out r.
Proof. now destruct r as [[| |] ? ?]. Qed.

Lemma unread_scoped {A} d (r : run A) : unread (scoped d r) = unread r.
Proof. now destruct r as [[| |] ? ?]. Qed.

Lemma trace_scoped {A} d (r : run A) :
  trace (scoped d r)
  = Connect d :: trace r ++ (if exited (out r) then [Disconnect] else []).
Proof. destruct r as [[| |] ? ?]; simpl; try reflexivity. now rewrite app_nil_r. Qed.

Lemma chat_completion_stream deployment conversation session_id hs ic fs :
  handshake_ok hs = true -> item_created_ok ic = true ->
  chat_completion deployment (map turn_message conversation) session_id
    (Accept (Message hs :: Message ic :: fs))
  = scoped deployment
      (prepend [RecvFrame (Message hs);
                SendMsg (create_item_request (parts_of conversation));
                RecvFrame (Message ic); SendMsg response_request]
         (stream_events fs)).
Proof.
  intros Hhs Hic. unfold chat_completion, with_connect.
  now rewrite chat_session_stream.
Qed.

(** ** The extraction of the reply *)

Lemma is_assistant_message_dict kvs :
  is_assistant_message (VDict kvs) = Returned (assistant_message (VDict kvs)).
Proof.
  unfold is_assistant_message, assistant_message. simpl.
  rewrite (get_type_eq kvs (py "message") VNone eq_refl).
  destruct (has_type (VDict kvs) (py "message")); [|reflexivity].
  simpl. destruct (lookup (py "role") kvs); reflexivity.
Qed.

Lemma first_audio_none parts :
  forallb not_audio parts = true -> first_audio parts = Returned None.
Proof.
  induction parts as [|p parts IH]; intros H; [reflexivity|].
  simpl in H. apply andb_true_iff in H. destruct H as [Hp H].
  unfold not_audio in Hp. apply andb_true_iff in Hp. destruct Hp as [Hd Hty].
  apply negb_true_iff in Hty. destruct (is_dict_dict _ Hd) as [kvs ->].
  simpl. rewrite (get_type_eq kvs (py "audio") VNone eq_refl), Hty.
  now apply IH.
Qed.

Lemma first_audio_found cpre part cpost :
  forallb not_audio cpre = true -> has_type part (py "audio") = true ->
  first_audio (cpre ++ part :: cpost)
  = Returned (Some (match field (py "transcript") part with
                    | Some v => v
                    | None => VStr []
                    end)).
Proof.
  intros Hpre Hty. induction cpre as [|p cpre IH].
  - destruct (has_type_dict _ _ Hty) as [kvs ->].
    simpl. rewrite (get_type_eq kvs (py "audio") VNone eq_refl), Hty.
    reflexivity.
  - simpl in Hpre. apply andb_true_iff in Hpre. destruct Hpre as [Hp Hpre].
    unfold not_audio in Hp. apply andb_true_iff in Hp. destruct Hp as [Hd Hp].
    apply negb_true_iff in Hp. destruct (is_dict_dict _ Hd) as [kvs ->].
    simpl. rewrite (get_type_eq kvs (py "audio") VNone eq_refl), Hp.
    now apply IH.
Qed.

(** Silent items at the head of the output are passed over. *)
Lemma scan_output_skip pre rest response :
  forallb silent pre = true ->
  scan_output (pre ++ rest) response = scan_output rest response.
Proof.
  induction pre as [|item pre IH]; intros H; [reflexivity|].
  simpl in H. apply andb_true_iff in H. destruct H as [Hi H].
  unfold silent in Hi. apply andb_true_iff in Hi. destruct Hi as [Hd Hi].
  destruct (is_dict_dict _ Hd) as [kvs ->].
  simpl. rewrite is_assistant_message_dict. simpl.
  destruct (assistant_message (VDict kvs)); simpl in Hi; [|now apply IH].
  destruct (lookup (py "content") kvs) as [[]|]; try discriminate.
  - simpl. rewrite first_audio_none by exact Hi. simpl. now apply IH.
  - simpl. now apply IH.
Qed.

Lemma scan_output_silent items response :
  forallb silent items = true -> scan_output items response = Returned response.
Proof.
  intros H. rewrite <- (app_nil_r items). now rewrite scan_output_skip.
Qed.

Lemma scan_output_found pre item post cpre part cpost response :
  forallb silent pre = true -> forallb silent post = true ->
  assistant_message item = true ->
  field (py "content") item = Some (VList (cpre ++ part :: cpost)) ->
  forallb not_audio cpre = true -> has_type part (py "audio") = true ->
  scan_output (pre ++ item :: post) response
  = Returned (match field (py "transcript") part with
              | Some v => v
              | None => VStr []
              end).
Proof.
  intros Hpre Hpost Hitem Hcontent Hcpre Hpart.
  rewrite scan_output_skip by exact Hpre.
  assert (Hd : exists kvs, item = VDict kvs).
  { unfold assistant_message in Hitem. apply andb_true_iff in Hitem.
    destruct Hitem as [Hty _]. exact (has_type_dict _ _ Hty). }
  destruct Hd as [kvs ->].
  simpl. rewrite is_assistant_message_dict, Hitem. simpl.
  simpl in Hcontent. rewrite Hcontent. simpl.
  rewrite first_audio_found by assumption. simpl.
  now apply scan_output_silent.
Qed.

(** ** One turn as the caller sees it *)

Lemma executeTurn_stream deployment conversation hs ic fs :
  handshake_ok hs = true -> item_created_ok ic = true ->
  executeTurn deployment (map turn_message conversation)
    (Accept (Message hs :: Message ic :: fs))
  = mkRun (response <- out (stream_events fs) ;;
           response <- extract_transcript response ;;
           require_response response)
          (unread (stream_events fs))
          (exchange_prefix deployment conversation hs ic
             ++ trace (stream_events fs)
             ++ (if exited (out (stream_events fs)) then [Disconnect] else [])).
Proof.
  intros Hhs Hic. unfold executeTurn.
  rewrite chat_completion_stream by assumption.
  rewrite out_scoped, unread_scoped, trace_scoped.
  reflexivity.
Qed.

Lemma extract_transcript_found rkvs pre item post cpre part cpost :
  lookup (py "output") rkvs = Some (VList (pre ++ item :: post)) ->
  forallb silent pre = true -> forallb silent post = true ->
  assistant_message item = true ->
  field (py "content") item = Some (VList (cpre ++ part :: cpost)) ->
  forallb not_audio cpre = true -> has_type part (py "audio") = true ->
  extract_transcript (VDict rkvs)
  = Returned (match field (py "transcript") part with
              | Some v => v
              | None => VStr []
              end).
Proof.
  intros Hout Hpre Hpost Hitem Hcontent Hcpre Hpart.
  unfold extract_transcript, has_key. rewrite Hout.
  simpl. rewrite Hout. simpl.
  now apply scan_output_found with (cpre := cpre) (cpost := cpost).
Qed.

Lemma extract_transcript_silent rkvs items :
  lookup (py "output") rkvs = Some (VList items) ->
  forallb silent items = true ->
  extract_transcript (VDict rkvs) = Returned (VDict rkvs).
Proof.
  intros Hout Hitems.
  unfold extract_transcript, has_key. rewrite Hout.
  simpl. rewrite Hout. simpl. now apply scan_output_silent.
Qed.

(** C1, as the code has it.  When the stream ends in a [response.done]
    event and exactly one output item is an assistant message with a part of
    type [audio], the turn returns the transcript of the first such part of
    that item, provided it is a non-empty string.  Parts of type [text] are
    not looked at. *)
Theorem executeTurn_returns_audio_transcript
    deployment conversation hs ic mids done more
    rkvs pre item post cpre part cpost transcript :
  handshake_ok hs = true ->
  item_created_ok ic = true ->
  forallb intermediate mids = true ->
  response_done done = true ->
  field (py "response") done = Some (VDict rkvs) ->
  lookup (py "output") rkvs = Some (VList (pre ++ item :: post)) ->
  forallb silent pre = true ->
  forallb silent post = true ->
  assistant_message item = true ->
  field (py "content") item = Some (VList (cpre ++ part :: cpost)) ->
  forallb not_audio cpre = true ->
  has_type part (py "audio") = true ->
  field (py "transcript") part = Some (VStr transcript) ->
  transcript <> [] ->
  out (executeTurn deployment (map turn_message conversation)
         (Accept (Message hs :: Message ic ::
                  map Message mids ++ Message done :: more)))
  = Returned (VStr transcript)
  /\ unread (executeTurn deployment (map turn_message conversation)
         (Accept (Message hs :: Message ic ::
                  map Message mids ++ Message done :: more)))
  = more.
Proof.
  intros Hhs Hic Hmids Hdone Hresp Hout Hpre Hpost Hitem Hcontent Hcpre Hpart
    Htr Hne.
  rewrite executeTurn_stream by assumption.
  rewrite stream_events_skip by assumption.
  rewrite stream_events_done by assumption.
  simpl. split; [|reflexivity].
  unfold response_payload. rewrite Hresp.
  rewrite (extract_transcript_found rkvs pre item post cpre part cpost)
    by assumption.
  rewrite Htr. unfold require_response.
  destruct transcript; [contradiction|reflexivity].
Qed.

Lemma executeTurn_returns_audio_transcript_witness :
  out (executeTurn demo_deployment (map turn_message demo_conversation)
         (Accept (Message session_created_s1 :: Message item_created ::
                  map Message [audio_delta] ++
                  Message (response_done_with
                             [assistant_item [text_part "Hello"; audio_part "Hello!"]])
                  :: [])))
  = Returned (str "Hello!")
  /\ unread (executeTurn demo_deployment (map turn_message demo_conversation)
         (Accept (Message session_created_s1 :: Message item_created ::
                  map Message [audio_delta] ++
                  Message (response_done_with
                             [assistant_item [text_part "Hello"; audio_part "Hello!"]])
                  :: [])))
  = [].
Proof.
  apply (@executeTurn_returns_audio_transcript
           demo_deployment demo_conversation session_created_s1 item_created
           [audio_delta]
           (response_done_with
              [assistant_item [text_part "Hello"; audio_part "Hello!"]])
           []
           [(py "output",
             VList [assistant_item [text_part "Hello"; audio_part "Hello!"]])]
           [] (assistant_item [text_part "Hello"; audio_part "Hello!"]) []
           [text_part "Hello"] (audio_part "Hello!") [] (py "Hello!"));
    try reflexivity.
  discriminate.
Defined.

(** C1 as stated fails: when the first content part of the assistant
    message is of type [text], the specification's reply is its text, but the
    turn hands back the whole response payload. *)
Lemma executeTurn_text_part_counterexample :
  spec_reply (response_payload
                (response_done_with [assistant_item [text_part "Hello!"]]))
  = Some (str "Hello!")
  /\ out (executeTurn demo_deployment (map turn_message demo_conversation)
            (Accept [Message session_created_s1; Message item_created;
                     Message (response_done_with
                                [assistant_item [text_part "Hello!"]])]))
     = Returned (response_payload
                   (response_done_with [assistant_item [text_part "Hello!"]]))
  /\ out (executeTurn demo_deployment (map turn_message demo_conversation)
            (Accept [Message session_created_s1; Message item_created;
                     Message (response_done_with
                                [assistant_item [text_part "Hello!"]])]))
     <> Returned (str "Hello!").
Proof.
  split; [reflexivity|]. split; [reflexivity|]. vm_compute. discriminate.
Qed.

(** C2, as the code has it.  When the peer closes the connection while the
    stream is being read, [chat_completion] catches the closure and returns
    [None]; the caller then fails the turn with "No valid response
    received", the error of an empty reply.  No send follows the closure. *)
Theorem executeTurn_connection_closed
    deployment conversation session_id hs ic mids more :
  handshake_ok hs = true ->
  item_created_ok ic = true ->
  forallb intermediate mids = true ->
  out (chat_completion deployment (map turn_message conversation) session_id
         (Accept (Message hs :: Message ic ::
                  map Message mids ++ PeerClosed :: more)))
  = Returned VNone
  /\ out (executeTurn deployment (map turn_message conversation)
         (Accept (Message hs :: Message ic ::
                  map Message mids ++ PeerClosed :: more)))
  = Raised (Exception NoValidResponse)
  /\ trace (executeTurn deployment (map turn_message conversation)
         (Accept (Message hs :: Message ic ::
                  map Message mids ++ PeerClosed :: more)))
  = exchange_prefix deployment conversation hs ic
      ++ map (fun e => RecvFrame (Message e)) mids
      ++ [RecvFrame PeerClosed; Disconnect].
Proof.
  intros Hhs Hic Hmids.
  rewrite chat_completion_stream, executeTurn_stream by assumption.
  rewrite out_scoped.
  rewrite stream_events_skip by assumption.
  rewrite stream_events_closed. simpl.
  repeat split. now rewrite <- app_assoc.
Qed.

Lemma executeTurn_connection_closed_witness :
  out (chat_completion demo_deployment (map turn_message demo_conversation) VNone
         (Accept (Message session_created_s1 :: Message item_created ::
                  map Message [audio_delta] ++ PeerClosed :: [])))
  = Returned VNone
  /\ out (executeTurn demo_deployment (map turn_message demo_conversation)
         (Accept (Message session_created_s1 :: Message item_created ::
                  map Message [audio_delta] ++ PeerClosed :: [])))
  = Raised (Exception NoValidResponse)
  /\ trace (executeTurn demo_deployment (map turn_message demo_conversation)
         (Accept (Message session_created_s1 :: Message item_created ::
                  map Message [audio_delta] ++ PeerClosed :: [])))
  = exchange_prefix demo_deployment demo_conversation
      session_created_s1 item_created
      ++ map (fun e => RecvFrame (Message e)) [audio_delta]
      ++ [RecvFrame PeerClosed; Disconnect].
Proof.
  apply (@executeTurn_connection_closed demo_deployment demo_conversation VNone
           session_created_s1 item_created [audio_delta] []);
    reflexivity.
Defined.

(** C2 as stated fails: with the connection closed in mid-stream,
    [chat_completion] returns a value, [None], and the turn does not end in
    [ConnectionClosed] but in the error of an empty reply. *)
Lemma executeTurn_closed_counterexample :
  out (chat_completion demo_deployment (map turn_message demo_conversation) VNone
         (Accept [Message session_created_s1; Message item_created; PeerClosed]))
  = Returned VNone
  /\ out (executeTurn demo_deployment (map turn_message demo_conversation)
            (Accept [Message session_created_s1; Message item_created; PeerClosed]))
     <> Raised ConnectionClosed
  /\ out (executeTurn demo_deployment (map turn_message demo_conversation)
            (Accept [Message session_created_s1; Message item_created; PeerClosed]))
     = out (executeTurn demo_deployment (map turn_message demo_conversation)
            (Accept [Message session_created_s1; Message item_created;
                     Message (obj [("type", str "response.done")]%string)])).
Proof.
  split; [reflexivity|]. split; [vm_compute; discriminate | reflexivity].
Qed.

(** C5 on the code: a completion whose output holds no assistant message
    leaves [response] bound to the payload, a non-empty dictionary, so the
    test [if not response] lets it through as the reply. *)
Theorem executeTurn_empty_output_returns_payload :
  out (executeTurn demo_deployment (map turn_message demo_conversation)
         (Accept [Message session_created_s1; Message item_created;
                  Message (response_done_with [])]))
  = Returned (obj [("output", VList [])]%string)
  /\ fst (voice_turn demo_deployment
            [turn_message (mkTurn System (py "Be brief."))] (py "hi")
            (Accept [Message session_created_s1; Message item_created;
                     Message (response_done_with [])]))
     = [turn_message (mkTurn System (py "Be brief."));
        turn_message (mkTurn User (py "hi"));
        message_of (py "assistant") (obj [("output", VList [])]%string)].
Proof. split; reflexivity. Qed.

(** The same for every completion whose output items are all silent. *)
Lemma executeTurn_silent_output_returns_payload
    deployment conversation hs ic mids done more rkvs items :
  handshake_ok hs = true ->
  item_created_ok ic = true ->
  forallb intermediate mids = true ->
  response_done done = true ->
  field (py "response") done = Some (VDict rkvs) ->
  lookup (py "output") rkvs = Some (VList items) ->
  forallb silent items = true ->
  out (executeTurn deployment (map turn_message conversation)
         (Accept (Message hs :: Message ic ::
                  map Message mids ++ Message done :: more)))
  = Returned (VDict rkvs).
Proof.
  intros Hhs Hic Hmids Hdone Hresp Hout Hitems.
  rewrite executeTurn_stream by assumption.
  rewrite stream_events_skip by assumption.
  rewrite stream_events_done by assumption.
  simpl. unfold response_payload. rewrite Hresp.
  rewrite (extract_transcript_silent rkvs items) by assumption.
  unfold require_response. destruct rkvs; [discriminate|reflexivity].
Qed.

(** ** What is sent *)

Lemma sends_app t1 t2 : sends (t1 ++ t2) = sends t1 ++ sends t2.
Proof. unfold sends. now rewrite flat_map_app. Qed.

Lemma chat_session_submits conversation session_id hs more :
  handshake_ok hs = true ->
  exists r : run pyval,
    chat_session (map turn_message conversation) session_id (Message hs :: more)
    = prepend [RecvFrame (Message hs);
               SendMsg (create_item_request (parts_of conversation))] r.
Proof.
  intros Hhs. unfold chat_session.
  rewrite (bind_returned _ _ _ _ _ _ (negotiate_accepts hs more Hhs)).
  unfold submit_content.
  rewrite bind_bind, content_messages_turns, bind_lift_returned.
  rewrite bind_bind, bind_send_message, prepend_prepend.
  eexists. reflexivity.
Qed.

(** C3, as the code has it.  After the handshake the first message sent is
    the event [conversation.item.create], whose item is one message of role
    [user]; its content list holds one [input_text] part for every message
    of the list the call was given, in order, each with that message's text:
    the system prompt and all earlier turns as well as the latest user
    message. *)
Theorem create_item_carries_every_message
    deployment conversation session_id hs more :
  handshake_ok hs = true ->
  exists later,
    sends (trace (chat_completion deployment (map turn_message conversation)
                    session_id (Accept (Message hs :: more))))
    = VDict [(py "type", VStr (py "conversation.item.create"));
             (py "item",
              VDict [(py "type", VStr (py "message"));
                     (py "role", VStr (py "user"));
                     (py "content",
                      VList (map (fun t =>
                                    VDict [(py "type", VStr (py "input_text"));
                                           (py "text", VStr (turn_content t))])
                                 conversation))])]
      :: later.
Proof.
  intros Hhs. unfold chat_completion, with_connect.
  destruct (chat_session_submits conversation session_id hs more Hhs) as [r ->].
  rewrite trace_scoped. simpl trace.
  change (Connect deployment :: ?t) with ([Connect deployment] ++ t).
  rewrite !sends_app. simpl. eexists. reflexivity.
Qed.

Lemma create_item_carries_every_message_witness :
  exists later,
    sends (trace (chat_completion demo_deployment
                    (map turn_message demo_conversation) VNone
                    (Accept (Message session_created_s1 :: [Message item_created]))))
    = VDict [(py "type", VStr (py "conversation.item.create"));
             (py "item",
              VDict [(py "type", VStr (py "message"));
                     (py "role", VStr (py "user"));
                     (py "content",
                      VList [VDict [(py "type", VStr (py "input_text"));
                                    (py "text",
                                     VStr (py "You are a helpful assistant. Keep your responses concise and natural."))];
                             VDict [(py "type", VStr (py "input_text"));
                                    (py "text", VStr (py "hi"))]])])]
      :: later.
Proof.
  apply (create_item_carries_every_message demo_deployment demo_conversation
           VNone session_created_s1 [Message item_created]).
  reflexivity.
Defined.

(** C3 as stated fails: for the history of the first turn of a voice chat,
    the system prompt and one user message, the content list of the event
    sent has two parts, the first with the system prompt, and is not the
    single part of the user message. *)
Lemma create_item_history_counterexample :
  sends (trace (chat_completion demo_deployment
                  (map turn_message demo_conversation) VNone
                  (Accept [Message session_created_s1; Message item_created;
                           Message (response_done_with [])])))
  = [VDict [(py "type", VStr (py "conversation.item.create"));
            (py "item",
             VDict [(py "type", VStr (py "message"));
                    (py "role", VStr (py "user"));
                    (py "content",
                     VList [VDict [(py "type", VStr (py "input_text"));
                                   (py "text",
                                    VStr (py "You are a helpful assistant. Keep your responses concise and natural."))];
                            VDict [(py "type", VStr (py "input_text"));
                                   (py "text", VStr (py "hi"))]])])];
     VDict [(py "type", VStr (py "response.create")); (py "response", VDict [])]]
  /\ [VDict [(py "type", VStr (py "input_text"));
             (py "text",
              VStr (py "You are a helpful assistant. Keep your responses concise and natural."))];
      VDict [(py "type", VStr (py "input_text")); (py "text", VStr (py "hi"))]]
     <> [VDict [(py "type", VStr (py "input_text")); (py "text", VStr (py "hi"))]].
Proof. split; [reflexivity | discriminate]. Qed.

(** ** The handshake and the acknowledgement *)

Lemma chat_completion_handshake_rejected deployment messages session_id hs more :
  is_dict hs = true -> has_type hs (py "session.created") = false ->
  chat_completion deployment messages session_id (Accept (Message hs :: more))
  = mkRun (Raised (Exception (ExpectedSessionCreated hs))) more
      [Connect deployment; RecvFrame (Message hs); Disconnect].
Proof.
  intros Hd Hty. unfold chat_completion, with_connect, chat_session.
  rewrite (bind_raised _ _ _ _ _ _ (negotiate_rejects hs more Hd Hty)).
  reflexivity.
Qed.

Lemma chat_completion_item_raises deployment conversation session_id hs event more e :
  handshake_ok hs = true ->
  submit_content (map turn_message conversation) (Message event :: more)
  = mkRun (Raised e) more
      [SendMsg (create_item_request (parts_of conversation));
       RecvFrame (Message event)] ->
  chat_completion deployment (map turn_message conversation) session_id
    (Accept (Message hs :: Message event :: more))
  = mkRun (Raised e) more
      [Connect deployment; RecvFrame (Message hs);
       SendMsg (create_item_request (parts_of conversation));
       RecvFrame (Message event); Disconnect].
Proof.
  intros Hhs Hsub. unfold chat_completion, with_connect, chat_session.
  rewrite (bind_returned _ _ _ _ _ _ (negotiate_accepts hs _ Hhs)).
  rewrite (bind_raised _ _ _ _ _ _ Hsub).
  reflexivity.
Qed.

(** C6.  The handshake reads exactly one event.  An event whose type is
    not [session.created] ends the call with the exception that quotes the
    event; otherwise the session id is the [id] member of the event's
    [session] object. *)
Theorem negotiate_handshake deployment messages session_id kvs more :
  unread (negotiate (Message (VDict kvs) :: more)) = more
  /\ trace (negotiate (Message (VDict kvs) :: more))
     = [RecvFrame (Message (VDict kvs))]
  /\ (has_type (VDict kvs) (py "session.created") = false ->
      out (negotiate (Message (VDict kvs) :: more))
      = Raised (Exception (ExpectedSessionCreated (VDict kvs)))
      /\ chat_completion deployment messages session_id
           (Accept (Message (VDict kvs) :: more))
         = mkRun (Raised (Exception (ExpectedSessionCreated (VDict kvs)))) more
             [Connect deployment; RecvFrame (Message (VDict kvs)); Disconnect])
  /\ (has_type (VDict kvs) (py "session.created") = true ->
      forall session id,
        lookup (py "session") kvs = Some (VDict session) ->
        lookup (py "id") session = Some id ->
        out (negotiate (Message (VDict kvs) :: more)) = Returned id)
  /\ out (negotiate (Message session_created_s1 :: more)) = Returned (str "s1").
Proof.
  destruct (has_type (VDict kvs) (py "session.created")) eqn:Hty.
  - assert (Hrun : exists o, negotiate (Message (VDict kvs) :: more)
                             = mkRun o more [RecvFrame (Message (VDict kvs))]).
    { unfold negotiate. rewrite bind_receive_message.
      unfold py_get at 1. rewrite bind_lift_returned.
      rewrite (get_type_eq kvs (py "session.created") VNone eq_refl), Hty.
      cbn [negb]. unfold py_get at 1. rewrite bind_lift_returned.
      unfold lift, prepend. simpl. eexists. reflexivity. }
    destruct Hrun as [o Hrun]. rewrite Hrun. simpl.
    split; [reflexivity|]. split; [reflexivity|].
    split; [discriminate|]. split; [|reflexivity].
    intros _ session id Hs Hid.
    assert (Hok : handshake_ok (VDict kvs) = true).
    { unfold handshake_ok. rewrite Hty. simpl. now rewrite Hs. }
    rewrite (negotiate_accepts _ more Hok) in Hrun.
    injection Hrun as <-. unfold session_id_of. simpl. now rewrite Hs, Hid.
  - rewrite (negotiate_rejects (VDict kvs) more eq_refl Hty). simpl.
    split; [reflexivity|]. split; [reflexivity|].
    split; [|split; [discriminate|reflexivity]].
    intros _. split; [reflexivity|].
    now apply chat_completion_handshake_rejected.
Qed.

Lemma negotiate_handshake_witness :
  out (negotiate (Message (obj [("type", str "error");
                                 ("error", obj [("message", str "denied")])]%string)
                  :: []))
  = Raised (Exception (ExpectedSessionCreated
                         (obj [("type", str "error");
                               ("error", obj [("message", str "denied")])]%string)))
  /\ out (negotiate (Message session_created_s1 :: [])) = Returned (str "s1").
Proof.
  split.
  - apply (proj1 (proj1 (proj2 (proj2
      (negotiate_handshake demo_deployment [] VNone
         [(py "type", str "error");
          (py "error", obj [("message", str "denied")]%string)] [])))
      eq_refl)).
  - apply (proj1 (proj2 (proj2 (proj2
      (negotiate_handshake demo_deployment [] VNone
         [(py "type", str "session.created");
          (py "session", obj [("id", str "s1")]%string)] []))))
      eq_refl [(py "id", str "s1")] (str "s1") eq_refl eq_refl).
Defined.

(** C7.  The event that answers the conversation item is classified in
    this order: an [error] member ends the call with the item-creation
    exception carrying the error details, whatever the type; otherwise a
    type other than [conversation.item.created] ends it with the
    unexpected-event exception; otherwise the next thing the call does is to
    send the request [{"type": "response.create", "response": {}}]. *)
Theorem item_acknowledgement_classified
    deployment conversation session_id hs event more :
  handshake_ok hs = true ->
  is_dict event = true ->
  (has_error event = true ->
   chat_completion deployment (map turn_message conversation) session_id
     (Accept (Message hs :: Message event :: more))
   = mkRun (Raised (Exception (ItemCreationError (error_details event)))) more
       [Connect deployment; RecvFrame (Message hs);
        SendMsg
          (VDict [(py "type", VStr (py "conversation.item.create"));
                  (py "item",
                   VDict [(py "type", VStr (py "message"));
                          (py "role", VStr (py "user"));
                          (py "content",
                           VList (map (fun t =>
                                         VDict [(py "type", VStr (py "input_text"));
                                                (py "text", VStr (turn_content t))])
                                      conversation))])]);
        RecvFrame (Message event); Disconnect])
  /\ (has_error event = false ->
      has_type event (py "conversation.item.created") = false ->
      chat_completion deployment (map turn_message conversation) session_id
        (Accept (Message hs :: Message event :: more))
      = mkRun (Raised (Exception ExpectedItemCreated)) more
          [Connect deployment; RecvFrame (Message hs);
           SendMsg
          (VDict [(py "type", VStr (py "conversation.item.create"));
                  (py "item",
                   VDict [(py "type", VStr (py "message"));
                          (py "role", VStr (py "user"));
                          (py "content",
                           VList (map (fun t =>
                                         VDict [(py "type", VStr (py "input_text"));
                                                (py "text", VStr (turn_content t))])
                                      conversation))])]);
           RecvFrame (Message event); Disconnect])
  /\ (has_error event = false ->
      has_type event (py "conversation.item.created") = true ->
      exists later,
        trace (chat_completion deployment (map turn_message conversation)
                 session_id (Accept (Message hs :: Message event :: more)))
        = [Connect deployment; RecvFrame (Message hs);
           SendMsg
          (VDict [(py "type", VStr (py "conversation.item.create"));
                  (py "item",
                   VDict [(py "type", VStr (py "message"));
                          (py "role", VStr (py "user"));
                          (py "content",
                           VList (map (fun t =>
                                         VDict [(py "type", VStr (py "input_text"));
                                                (py "text", VStr (turn_content t))])
                                      conversation))])]);
           RecvFrame (Message event);
           SendMsg (VDict [(py "type", VStr (py "response.create"));
                           (py "response", VDict [])])] ++ later).
Proof.
  intros Hhs Hd. split; [|split].
  - intros He.
    apply (chat_completion_item_raises deployment conversation session_id
             hs event more); [exact Hhs|].
    now apply submit_content_rejected; [apply content_messages_turns|].
  - intros He Hty.
    apply (chat_completion_item_raises deployment conversation session_id
             hs event more); [exact Hhs|].
    now apply submit_content_unexpected; [apply content_messages_turns| | |].
  - intros He Hty.
    assert (Hic : item_created_ok event = true).
    { unfold item_created_ok. now rewrite He, Hty. }
    rewrite chat_completion_stream by assumption.
    rewrite trace_scoped. simpl. eexists. reflexivity.
Qed.

Lemma item_acknowledgement_classified_witness :
  chat_completion demo_deployment (map turn_message demo_conversation) VNone
    (Accept (Message session_created_s1 ::
             Message (error_event "conversation.item.created" "too long") :: []))
  = mkRun (Raised (Exception (ItemCreationError
                                (obj [("message", str "too long")]%string)))) []
      [Connect demo_deployment; RecvFrame (Message session_created_s1);
       SendMsg (create_item_request (parts_of demo_conversation));
       RecvFrame (Message (error_event "conversation.item.created" "too long"));
       Disconnect]
  /\ chat_completion demo_deployment (map turn_message demo_conversation) VNone
       (Accept (Message session_created_s1 :: Message audio_delta :: []))
     = mkRun (Raised (Exception ExpectedItemCreated)) []
         [Connect demo_deployment; RecvFrame (Message session_created_s1);
          SendMsg (create_item_request (parts_of demo_conversation));
          RecvFrame (Message audio_delta); Disconnect]
  /\ exists later,
       trace (chat_completion demo_deployment (map turn_message demo_conversation)
                VNone (Accept (Message session_created_s1 ::
                               Message item_created :: [])))
       = [Connect demo_deployment; RecvFrame (Message session_created_s1);
          SendMsg (create_item_request (parts_of demo_conversation));
          RecvFrame (Message item_created);
          SendMsg (VDict [(py "type", VStr (py "response.create"));
                          (py "response", VDict [])])] ++ later.
Proof.
  split; [|split].
  - apply (proj1 (item_acknowledgement_classified demo_deployment
                    demo_conversation VNone session_created_s1
                    (error_event "conversation.item.created" "too long") []
                    eq_refl eq_refl) eq_refl).
  - apply (proj1 (proj2 (item_acknowledgement_classified demo_deployment
                    demo_conversation VNone session_created_s1
                    audio_delta [] eq_refl eq_refl)) eq_refl eq_refl).
  - apply (proj2 (proj2 (item_acknowledgement_classified demo_deployment
                    demo_conversation VNone session_created_s1
                    item_created [] eq_refl eq_refl)) eq_refl eq_refl).
Defined.

(** C4, as the code has it.  Once the handshake event has been accepted,
    an event that carries an [error] member ends the turn where it is read,
    whatever its type: as the answer to the conversation item with the
    item-creation exception, in the stream with the API exception, each
    carrying the event's error details; the connection is closed and nothing
    is sent after the event.  The handshake event itself is judged by its
    type alone. *)
Theorem error_event_ends_turn_after_handshake deployment conversation hs :
  handshake_ok hs = true ->
  (forall event more,
     has_error event = true ->
     executeTurn deployment (map turn_message conversation)
       (Accept (Message hs :: Message event :: more))
     = mkRun (Raised (Exception (ItemCreationError (error_details event)))) more
         [Connect deployment; RecvFrame (Message hs);
          SendMsg (create_item_request (parts_of conversation));
          RecvFrame (Message event); Disconnect])
  /\ (forall ic mids event more,
        item_created_ok ic = true ->
        forallb intermediate mids = true ->
        has_error event = true ->
        executeTurn deployment (map turn_message conversation)
          (Accept (Message hs :: Message ic ::
                   map Message mids ++ Message event :: more))
        = mkRun (Raised (Exception (APIError (error_details event)))) more
            (exchange_prefix deployment conversation hs ic
               ++ map (fun e => RecvFrame (Message e)) mids
               ++ [RecvFrame (Message event); Disconnect])).
Proof.
  intros Hhs. split.
  - intros event more He. unfold executeTurn.
    rewrite (chat_completion_item_raises deployment conversation VNone hs event
               more (Exception (ItemCreationError (error_details event))) Hhs).
    + reflexivity.
    + now apply submit_content_rejected; [apply content_messages_turns|].
  - intros ic mids event more Hic Hmids He.
    rewrite executeTurn_stream by assumption.
    rewrite stream_events_skip by assumption.
    rewrite stream_events_error by assumption.
    simpl. now rewrite <- app_assoc.
Qed.

Lemma error_event_ends_turn_after_handshake_witness :
  executeTurn demo_deployment (map turn_message demo_conversation)
    (Accept (Message session_created_s1 ::
             Message (error_event "conversation.item.created" "too long")
             :: [Message item_created]))
  = mkRun (Raised (Exception (ItemCreationError
                                (obj [("message", str "too long")]%string))))
      [Message item_created]
      [Connect demo_deployment; RecvFrame (Message session_created_s1);
       SendMsg (create_item_request (parts_of demo_conversation));
       RecvFrame (Message (error_event "conversation.item.created" "too long"));
       Disconnect]
  /\ executeTurn demo_deployment (map turn_message demo_conversation)
       (Accept (Message session_created_s1 :: Message item_created ::
                map Message [audio_delta] ++
                Message (error_event "response.done" "rate limited") :: []))
     = mkRun (Raised (Exception (APIError
                                   (obj [("message", str "rate limited")]%string))))
         []
         (exchange_prefix demo_deployment demo_conversation
            session_created_s1 item_created
            ++ map (fun e => RecvFrame (Message e)) [audio_delta]
            ++ [RecvFrame (Message (error_event "response.done" "rate limited"));
                Disconnect]).
Proof.
  split.
  - apply (proj1 (error_event_ends_turn_after_handshake demo_deployment
                    demo_conversation session_created_s1 eq_refl)
             (error_event "conversation.item.created" "too long")
             [Message item_created] eq_refl).
  - apply (proj2 (error_event_ends_turn_after_handshake demo_deployment
                    demo_conversation session_created_s1 eq_refl)
             item_created [audio_delta]
             (error_event "response.done" "rate limited") []
             eq_refl eq_refl eq_refl).
Defined.

(** C4 as stated fails at the handshake: a first event of type
    [session.created] that carries an [error] member does not end the turn;
    both requests are sent after it and the turn returns a reply. *)
Lemma error_at_handshake_counterexample :
  has_error (error_event "session.created" "rate limited") = true
  /\ executeTurn demo_deployment (map turn_message demo_conversation)
       (Accept [Message (error_event "session.created" "rate limited");
                Message item_created;
                Message (response_done_with [assistant_item [audio_part "Hello!"]])])
     = mkRun (Returned (str "Hello!")) []
         [Connect demo_deployment;
          RecvFrame (Message (error_event "session.created" "rate limited"));
          SendMsg (create_item_request (parts_of demo_conversation));
          RecvFrame (Message item_created);
          SendMsg response_request;
          RecvFrame (Message (response_done_with
                                [assistant_item [audio_part "Hello!"]]));
          Disconnect].
Proof. split; reflexivity. Qed.

(** C10.  The [session_id] argument has no effect: two calls that differ
    only in it send the same messages and return the same result; their
    whole runs are equal, because the handshake rebinds the variable before
    anything reads it. *)
Theorem chat_completion_ignores_session_id
    deployment messages (session_id1 session_id2 : pyval) ep :
  sends (trace (chat_completion deployment messages session_id1 ep))
  = sends (trace (chat_completion deployment messages session_id2 ep))
  /\ out (chat_completion deployment messages session_id1 ep)
     = out (chat_completion deployment messages session_id2 ep)
  /\ chat_completion deployment messages session_id1 ep
     = chat_completion deployment messages session_id2 ep.
Proof.
  assert (Hbody : forall fs,
             chat_session messages session_id1 fs
             = chat_session messages session_id2 fs).
  { intros fs. unfold chat_session. reflexivity. }
  assert (Hrun : chat_completion deployment messages session_id1 ep
                 = chat_completion deployment messages session_id2 ep).
  { unfold chat_completion, with_connect. destruct ep as [|script];
      [reflexivity | now rewrite Hbody]. }
  now rewrite Hrun.
Qed.

(** ** The connection of a call *)

Lemma traffic_lift {A} (o : outcome A) : traffic_only (lift o).
Proof. intros fs. reflexivity. Qed.

Lemma traffic_ret {A} (a : A) : traffic_only (ret a : ws A).
Proof. intros fs. reflexivity. Qed.

Lemma traffic_raise {A} e : traffic_only (@raise A e).
Proof. intros fs. reflexivity. Qed.

Lemma traffic_receive_message : traffic_only receive_message.
Proof. intros [|f fs]; reflexivity. Qed.

Lemma traffic_send_message m : traffic_only (send_message m).
Proof. intros fs. reflexivity. Qed.

Lemma traffic_bind {A B} (m : ws A) (k : A -> ws B) :
  traffic_only m -> (forall a, traffic_only (k a)) ->
  traffic_only (x <- m ;; k x).
Proof.
  intros Hm Hk fs. simpl. unfold ws_bind. specialize (Hm fs).
  destruct (m fs) as [[a|e|] more t]; simpl in *; try exact Hm.
  rewrite forallb_app, Hm. apply Hk.
Qed.

Lemma traffic_try_except {A} (body : ws A) handler :
  traffic_only body -> (forall e, traffic_only (handler e)) ->
  traffic_only (try_except body handler).
Proof.
  intros Hb Hh fs. unfold try_except. specialize (Hb fs).
  destruct (body fs) as [[a|e|] more t]; simpl in *; try exact Hb.
  rewrite forallb_app, Hb. apply Hh.
Qed.

Lemma traffic_if {A} (b : bool) (m1 m2 : ws A) :
  traffic_only m1 -> traffic_only m2 -> traffic_only (if b then m1 else m2).
Proof. now destruct b. Qed.

Create HintDb traffic.

#[local] Hint Resolve traffic_lift traffic_ret traffic_raise
  traffic_receive_message traffic_send_message : traffic.

Ltac traffic :=
  repeat first
    [ apply traffic_bind; [|intros ?]
    | apply traffic_try_except; [|intros ?]
    | apply traffic_if
    | solve [auto with traffic] ].

Lemma traffic_negotiate : traffic_only negotiate.
Proof. unfold negotiate. traffic. Qed.

Lemma traffic_submit_content messages : traffic_only (submit_content messages).
Proof. unfold submit_content. traffic. Qed.

Lemma traffic_stream_iteration : traffic_only stream_iteration.
Proof.
  unfold stream_iteration, stream_try. traffic.
  match goal with e : exn |- _ => destruct e end; auto with traffic.
Qed.

Lemma traffic_stream_loop fuel : traffic_only (stream_loop fuel).
Proof.
  induction fuel as [|fuel IH]; simpl stream_loop; [apply traffic_lift|].
  apply traffic_bind; [apply traffic_stream_iteration|].
  intros [v|]; [apply traffic_ret | exact IH].
Qed.

Lemma traffic_chat_session messages session_id :
  traffic_only (chat_session messages session_id).
Proof.
  unfold chat_session.
  apply traffic_bind; [apply traffic_negotiate | intros _].
  apply traffic_bind; [apply traffic_submit_content | intros _].
  apply traffic_bind; [apply traffic_send_message | intros _].
  intros fs. apply traffic_stream_loop.
Qed.

Lemma traffic_counts t :
  forallb is_traffic t = true -> connects t = 0 /\ disconnects t = 0.
Proof.
  unfold connects, disconnects.
  induction t as [|e t IH]; intros H; [now split|].
  cbn [forallb] in H. apply andb_true_iff in H. destruct H as [He H].
  destruct (IH H) as [Hc Hd].
  destruct e; try discriminate; cbn [filter]; now split.
Qed.

(** C8, as the code has it.  Every call of [chat_completion] opens one
    connection of its own as its first step and, if it leaves the block by
    returning or by raising (a cancellation included), closes it as its last;
    in between it only sends and receives.  A refused connection raises
    before any traffic.  Each turn of the voice loop is one such call, so
    each turn has a connection of its own. *)
Theorem chat_completion_scoped_connection
    deployment messages session_id script history text ep :
  (exists traffic,
     forallb is_traffic traffic = true
     /\ trace (chat_completion deployment messages session_id (Accept script))
        = Connect deployment :: traffic
            ++ (if exited (out (chat_completion deployment messages session_id
                                  (Accept script)))
                then [Disconnect] else []))
  /\ connects (trace (chat_completion deployment messages session_id
                        (Accept script))) = 1
  /\ disconnects (trace (chat_completion deployment messages session_id
                           (Accept script)))
     = (if exited (out (chat_completion deployment messages session_id
                          (Accept script)))
        then 1 else 0)
  /\ chat_completion deployment messages session_id Refuse
     = mkRun (Raised ConnectError) [] []
  /\ trace (snd (voice_turn deployment history text ep))
     = trace (chat_completion deployment
                (history ++ [message_of (py "user") (VStr text)]) VNone ep).
Proof.
  assert (Htrace :
    trace (chat_completion deployment messages session_id (Accept script))
    = Connect deployment :: trace (chat_session messages session_id script)
        ++ (if exited (out (chat_completion deployment messages session_id
                              (Accept script)))
            then [Disconnect] else [])).
  { unfold chat_completion, with_connect. now rewrite trace_scoped, out_scoped. }
  pose proof (traffic_chat_session messages session_id script) as Htraffic.
  destruct (traffic_counts _ Htraffic) as [Hc Hd].
  split; [|split; [|split; [|split]]].
  - exists (trace (chat_session messages session_id script)). now split.
  - rewrite Htrace. unfold connects in *. cbn [filter List.length].
    rewrite filter_app, length_app, Hc.
    now destruct (exited _).
  - rewrite Htrace. unfold disconnects in *. cbn [filter].
    rewrite filter_app, length_app, Hd.
    now destruct (exited _).
  - reflexivity.
  - unfold voice_turn.
    destruct (out (executeTurn _ _ _)) as [response| |];
      [destruct (prints response)| |]; reflexivity.
Qed.

(** C8 as stated fails: two successive turns of a voice chat do not share
    a connection; the trace shows two connections opened and closed. *)
Lemma voice_chat_reconnects_counterexample :
  snd (voice_chat demo_deployment [turn_message (mkTurn System (py "Be brief."))]
         [(py "hi",
           Accept [Message session_created_s1; Message item_created;
                   Message (response_done_with [assistant_item [audio_part "Hello!"]])]);
          (py "bye",
           Accept [Message session_created_s1; Message item_created;
                   Message (response_done_with [assistant_item [audio_part "Bye!"]])])])
  = [Connect demo_deployment;
     RecvFrame (Message session_created_s1);
     SendMsg (create_item_request [input_text (str "Be brief."); input_text (str "hi")]);
     RecvFrame (Message item_created);
     SendMsg response_request;
     RecvFrame (Message (response_done_with [assistant_item [audio_part "Hello!"]]));
     Disconnect;
     Connect demo_deployment;
     RecvFrame (Message session_created_s1);
     SendMsg (create_item_request
                [input_text (str "Be brief."); input_text (str "hi");
                 input_text (str "Hello!"); input_text (str "bye")]);
     RecvFrame (Message item_created);
     SendMsg response_request;
     RecvFrame (Message (response_done_with [assistant_item [audio_part "Bye!"]]));
     Disconnect]
  /\ connects
       (snd (voice_chat demo_deployment
               [turn_message (mkTurn System (py "Be brief."))]
               [(py "hi",
                 Accept [Message session_created_s1; Message item_created;
                         Message (response_done_with
                                    [assistant_item [audio_part "Hello!"]])]);
                (py "bye",
                 Accept [Message session_created_s1; Message item_created;
                         Message (response_done_with
                                    [assistant_item [audio_part "Bye!"]])])]))
     <> 1.
Proof. split; [reflexivity | vm_compute; discriminate]. Qed.

(** ** The codec *)

Section Codec.

Open Scope N_scope.

Lemma hex_value_hex_digit n : n < 16 -> hex_value (hex_digit n) = Some n.
Proof.
  intros H. unfold hex_value, hex_digit, ch. simpl N_of_ascii.
  destruct (N.ltb_spec n 10).
  - replace ((48 <=? 48 + n) && (48 + n <=? 57)) with true
      by (symmetry; apply andb_true_iff; split; apply N.leb_le; lia).
    f_equal. lia.
  - replace ((48 <=? 97 + (n - 10)) && (97 + (n - 10) <=? 57)) with false
      by (symmetry; apply andb_false_iff; right; apply N.leb_gt; lia).
    replace ((97 <=? 97 + (n - 10)) && (97 + (n - 10) <=? 102)) with true
      by (symmetry; apply andb_true_iff; split; apply N.leb_le; lia).
    f_equal. lia.
Qed.

(** Reading back the four digits of [u_escape]. *)
Lemma hex4_u_escape n :
  n < 0x10000 ->
  hex4 (hex_digit (N.shiftr n 12 mod 16)) (hex_digit (N.shiftr n 8 mod 16))
       (hex_digit (N.shiftr n 4 mod 16)) (hex_digit (n mod 16))
  = Some n.
Proof.
  intros H. unfold hex4.
  rewrite !hex_value_hex_digit by (apply N.mod_lt; discriminate).
  f_equal. rewrite !N.shiftr_div_pow2.
  change (2 ^ 12) with (16 * 16 * 16). change (2 ^ 8) with (16 * 16).
  change (2 ^ 4) with 16.
  rewrite <- !N.Div0.div_div.
  set (q1 := n / 16). set (q2 := q1 / 16). set (q3 := q2 / 16).
  pose proof (N.div_mod n 16) as E1. pose proof (N.div_mod q1 16) as E2.
  pose proof (N.div_mod q2 16) as E3. pose proof (N.div_mod q3 16) as E4.
  pose proof (N.mod_lt n 16) as L1. pose proof (N.mod_lt q1 16) as L2.
  pose proof (N.mod_lt q2 16) as L3. pose proof (N.mod_lt q3 16) as L4.
  fold q1 in E1. fold q2 in E2. fold q3 in E3.
  specialize (E1 ltac:(discriminate)). specialize (E2 ltac:(discriminate)).
  specialize (E3 ltac:(discriminate)). specialize (E4 ltac:(discriminate)).
  specialize (L1 ltac:(discriminate)). specialize (L2 ltac:(discriminate)).
  specialize (L3 ltac:(discriminate)). specialize (L4 ltac:(discriminate)).
  clearbody q1 q2 q3.
  generalize dependent (n mod 16). generalize dependent (q1 mod 16).
  generalize dependent (q2 mod 16). generalize dependent (q3 mod 16).
  generalize dependent (q3 / 16). intros. lia.
Qed.

Lemma lor_shiftl_low a b :
  b < 2 ^ 10 -> N.lor (N.shiftl a 10) b = a * 2 ^ 10 + b.
Proof.
  intros Hb. rewrite <- N.shiftl_mul_pow2.
  assert (Hland : N.land (N.shiftl a 10) b = 0).
  { apply N.bits_inj. intros i. rewrite N.land_spec, N.bits_0.
    destruct (N.lt_ge_cases i 10) as [Hi|Hi].
    - now rewrite N.shiftl_spec_low.
    - rewrite <- (N.mod_small b (2 ^ 10)) by exact Hb.
      rewrite N.mod_pow2_bits_high by exact Hi. apply andb_false_r. }
  rewrite <- N.lxor_lor by exact Hland.
  symmetry. now apply N.add_nocarry_lxor.
Qed.

(** The two halves [encode_basestring_ascii] writes for a character
    beyond the basic plane, and what [scanstring] makes of them. *)
Lemma surrogate_halves c :
  0x10000 <= c -> c < 0x110000 ->
  let n := c - 0x10000 in
  let hi := N.lor 0xd800 (N.land (N.shiftr n 10) 0x3ff) in
  let lo := N.lor 0xdc00 (N.land n 0x3ff) in
  hi < 0x10000 /\ lo < 0x10000
  /\ is_high_surrogate hi = true /\ is_low_surrogate lo = true
  /\ join_surrogates hi lo = c.
Proof.
  intros Hlo Hhi n hi lo.
  assert (Hn : n < 2 ^ 20) by (subst n; change (2 ^ 20) with 1048576; lia).
  assert (Hq : n / 2 ^ 10 < 2 ^ 10).
  { apply N.Div0.div_lt_upper_bound. now rewrite <- N.pow_add_r. }
  assert (Hr : n mod 2 ^ 10 < 2 ^ 10) by (apply N.mod_lt; discriminate).
  assert (Ehi : hi = 0xd800 + n / 2 ^ 10).
  { subst hi. change 0x3ff with (N.ones 10). rewrite N.land_ones.
    rewrite N.shiftr_div_pow2, (N.mod_small _ _ Hq).
    change 0xd800 with (N.shiftl 54 10). now rewrite lor_shiftl_low. }
  assert (Elo : lo = 0xdc00 + n mod 2 ^ 10).
  { subst lo. change 0x3ff with (N.ones 10). rewrite N.land_ones.
    change 0xdc00 with (N.shiftl 55 10). now rewrite lor_shiftl_low. }
  assert (Hc : c = 0x10000 + n) by (unfold n; lia).
  pose proof (N.div_mod n (2 ^ 10) ltac:(discriminate)) as Hdm.
  unfold is_high_surrogate, is_low_surrogate, join_surrogates.
  rewrite Ehi, Elo. clear Ehi Elo. clearbody n. clear hi lo.
  change (2 ^ 10) with 1024 in *. change (2 ^ 20) with 1048576 in *.
  generalize dependent (n / 1024). generalize dependent (n mod 1024).
  intros r Hr q Hq Hdm.
  replace (0xd800 + q - 0xd800) with q by lia.
  replace (0xdc00 + r - 0xdc00) with r by lia.
  rewrite lor_shiftl_low by exact Hr. change (2 ^ 10) with 1024.
  repeat split; try lia.
  - apply andb_true_iff; split; apply N.leb_le; lia.
  - apply andb_true_iff; split; apply N.leb_le; lia.
Qed.

Lemma scan_string_literal c t :
  32 <= c -> c <> dquote -> c <> ch "\" ->
  scan_string (c :: t) = cons_fst c (scan_string t).
Proof.
  intros H32 Hq Hb. simpl. unfold ch, dquote in *. simpl N_of_ascii in *.
  rewrite (proj2 (N.eqb_neq _ _) Hq), (proj2 (N.eqb_neq _ _) Hb).
  now rewrite (proj2 (N.ltb_ge _ _) H32).
Qed.

Lemma scan_string_u a b c d u t :
  hex4 a b c d = Some u ->
  is_high_surrogate u && low_escape_head t = false ->
  scan_string (ch "\" :: ch "u" :: a :: b :: c :: d :: t)
  = cons_fst u (scan_string t).
Proof.
  intros Hhex Hpair.
  change (scan_string (ch "\" :: ch "u" :: a :: b :: c :: d :: t))
    with (match hex4 a b c d with
          | None => None
          | Some u =>
              match t with
              | b1 :: b2 :: a2 :: b3 :: c2 :: d2 :: rest2 =>
                  match hex4 a2 b3 c2 d2 with
                  | Some u2 =>
                      if is_high_surrogate u && (b1 =? ch "\")
                         && (b2 =? ch "u") && is_low_surrogate u2
                      then cons_fst (join_surrogates u u2) (scan_string rest2)
                      else cons_fst u (scan_string t)
                  | None => cons_fst u (scan_string t)
                  end
              | _ => cons_fst u (scan_string t)
              end
          end).
  rewrite Hhex.
  destruct t as [|b1 [|b2 [|a2 [|b3 [|c2 [|d2 rest2]]]]]]; try reflexivity.
  unfold low_escape_head in Hpair.
  destruct (hex4 a2 b3 c2 d2) as [u2|]; [|reflexivity].
  destruct (is_high_surrogate u); [|reflexivity].
  cbn [andb] in Hpair |- *.
  destruct (b1 =? ch "\"); [|reflexivity].
  destruct (b2 =? ch "u"); [|reflexivity].
  cbn [andb] in Hpair |- *. now rewrite Hpair.
Qed.

Lemma scan_string_pair a b c d u a2 b2 c2 d2 u2 t :
  hex4 a b c d = Some u -> hex4 a2 b2 c2 d2 = Some u2 ->
  is_high_surrogate u = true -> is_low_surrogate u2 = true ->
  scan_string (ch "\" :: ch "u" :: a :: b :: c :: d ::
               ch "\" :: ch "u" :: a2 :: b2 :: c2 :: d2 :: t)
  = cons_fst (join_surrogates u u2) (scan_string t).
Proof.
  intros Hhex Hhex2 Hhi Hlo.
  change (scan_string (ch "\" :: ch "u" :: a :: b :: c :: d ::
                       ch "\" :: ch "u" :: a2 :: b2 :: c2 :: d2 :: t))
    with (match hex4 a b c d with
          | None => None
          | Some u =>
              match hex4 a2 b2 c2 d2 with
              | Some u2 =>
                  if is_high_surrogate u && (ch "\" =? ch "\")
                     && (ch "u" =? ch "u") && is_low_surrogate u2
                  then cons_fst (join_surrogates u u2) (scan_string t)
                  else cons_fst u
                         (scan_string (ch "\" :: ch "u" :: a2 :: b2 :: c2 :: d2 :: t))
              | None =>
                  cons_fst u
                    (scan_string (ch "\" :: ch "u" :: a2 :: b2 :: c2 :: d2 :: t))
              end
          end).
  now rewrite Hhex, Hhex2, Hhi, Hlo.
Qed.

Lemma low_escape_head_u_escape n t :
  n < 0x10000 -> low_escape_head (u_escape n ++ t) = is_low_surrogate n.
Proof.
  intros Hn. unfold u_escape, low_escape_head. cbn [app].
  now rewrite hex4_u_escape.
Qed.

Lemma low_escape_head_first b1 t :
  (b1 =? ch "\") = false -> low_escape_head (b1 :: t) = false.
Proof.
  intros H. unfold low_escape_head.
  destruct t as [|b2 [|a [|b [|c [|d ?]]]]]; try reflexivity.
  now rewrite H.
Qed.

Lemma low_escape_head_second b1 b2 t :
  (b2 =? ch "u") = false -> low_escape_head (b1 :: b2 :: t) = false.
Proof.
  intros H. unfold low_escape_head.
  destruct t as [|a [|b [|c [|d ?]]]]; try reflexivity.
  rewrite H. now rewrite andb_false_r.
Qed.

(** What follows a character of the string never starts with the escape
    of a low surrogate, unless the next character is one. *)
Lemma low_escape_head_escape_char c t :
  c < 0x110000 -> is_low_surrogate c = false ->
  low_escape_head (escape_char c ++ t) = false.
Proof.
  intros Hc Hlow. unfold escape_char.
  destruct (c =? dquote); [now apply low_escape_head_second|].
  destruct (N.eqb_spec c (ch "\")) as [|Hb]; [now apply low_escape_head_second|].
  destruct (c =? 10); [now apply low_escape_head_second|].
  destruct (c =? 13); [now apply low_escape_head_second|].
  destruct (c =? 9); [now apply low_escape_head_second|].
  destruct (c =? 8); [now apply low_escape_head_second|].
  destruct (c =? 12); [now apply low_escape_head_second|].
  destruct ((32 <=? c) && (c <=? 126)) eqn:Hprint.
  - apply low_escape_head_first. now apply N.eqb_neq.
  - destruct (N.ltb_spec c 0x10000) as [Hbmp|Hastral].
    + now rewrite low_escape_head_u_escape.
    + destruct (surrogate_halves c Hastral Hc) as (Hhi & _ & Hhigh & _ & _).
      cbv zeta in Hhi, Hhigh. rewrite <- app_assoc.
      rewrite low_escape_head_u_escape by exact Hhi.
      unfold is_high_surrogate in Hhigh. unfold is_low_surrogate.
      apply andb_true_iff in Hhigh. destruct Hhigh as [_ Hle].
      apply N.leb_le in Hle. apply andb_false_iff. left.
      apply N.leb_gt. lia.
Qed.

(** One character of the string, written and read back. *)
Lemma scan_string_escape_char c t :
  c < 0x110000 ->
  is_high_surrogate c && low_escape_head t = false ->
  scan_string (escape_char c ++ t) = cons_fst c (scan_string t).
Proof.
  intros Hc Hpair. unfold escape_char.
  destruct (N.eqb_spec c dquote) as [->|Hq]; [reflexivity|].
  destruct (N.eqb_spec c (ch "\")) as [->|Hb]; [reflexivity|].
  destruct (N.eqb_spec c 10) as [->|]; [reflexivity|].
  destruct (N.eqb_spec c 13) as [->|]; [reflexivity|].
  destruct (N.eqb_spec c 9) as [->|]; [reflexivity|].
  destruct (N.eqb_spec c 8) as [->|]; [reflexivity|].
  destruct (N.eqb_spec c 12) as [->|]; [reflexivity|].
  destruct ((32 <=? c) && (c <=? 126)) eqn:Hprint.
  - apply andb_true_iff in Hprint. destruct Hprint as [Hge _].
    apply N.leb_le in Hge. now apply scan_string_literal.
  - destruct (N.ltb_spec c 0x10000) as [Hbmp|Hastral].
    + unfold u_escape. cbn [app].
      apply scan_string_u; [now apply hex4_u_escape | exact Hpair].
    + destruct (surrogate_halves c Hastral Hc)
        as (Hhi & Hlo & Hhigh & Hlow & Hjoin).
      cbv zeta in Hhi, Hlo, Hhigh, Hlow, Hjoin.
      unfold u_escape. cbn [app].
      erewrite scan_string_pair;
        [ now rewrite Hjoin
        | now apply hex4_u_escape | now apply hex4_u_escape
        | exact Hhigh | exact Hlow ].
Qed.

Lemma scan_string_encoded s tail :
  text_ok s = true ->
  scan_string (flat_map escape_char s ++ dquote :: tail) = Some (s, tail).
Proof.
  unfold text_ok. rewrite andb_true_iff. intros [Hvalid Hpairs].
  induction s as [|c s IH]; [reflexivity|].
  simpl in Hvalid. apply andb_true_iff in Hvalid. destruct Hvalid as [Hc Hvalid].
  apply N.ltb_lt in Hc.
  cbn [flat_map]. rewrite <- app_assoc.
  rewrite scan_string_escape_char; [| exact Hc |].
  - rewrite IH; [reflexivity | exact Hvalid |].
    destruct s; [reflexivity|]. cbn [no_surrogate_pair] in Hpairs.
    now apply andb_true_iff in Hpairs.
  - destruct s as [|c' s].
    + cbn [flat_map app]. rewrite low_escape_head_first by reflexivity.
      apply andb_false_r.
    + cbn [no_surrogate_pair] in Hpairs. apply andb_true_iff in Hpairs.
      destruct Hpairs as [Hcc _]. apply negb_true_iff in Hcc.
      destruct (is_high_surrogate c); [|reflexivity].
      cbn [andb] in Hcc |- *. cbn [flat_map]. rewrite <- app_assoc.
      apply low_escape_head_escape_char; [|exact Hcc].
      simpl in Hvalid. apply andb_true_iff in Hvalid.
      now apply N.ltb_lt.
Qed.

Lemma scan_once_string fuel s tail :
  text_ok s = true ->
  scan_once (S fuel) (encode_string s ++ tail) = Some (VStr s, tail).
Proof.
  intros Hs. unfold encode_string. cbn [app scan_once].
  change (dquote =? dquote) with true. cbv iota.
  rewrite <- app_assoc. cbn [app]. now rewrite scan_string_encoded.
Qed.

(** *** Integers *)

Lemma ends_number_no_digit tail :
  ends_number tail = true ->
  forall acc, scan_digits acc tail = (acc, tail).
Proof.
  intros H acc. destruct tail as [|c tail]; [reflexivity|].
  unfold ends_number in H. cbn [scan_digits].
  destruct (digit_value c); [discriminate | reflexivity].
Qed.

Lemma ends_number_no_float tail :
  ends_number tail = true -> float_follows tail = false.
Proof.
  destruct tail as [|c tail]; [reflexivity|]. unfold ends_number.
  destruct (digit_value c); [discriminate|]. apply negb_true_iff.
Qed.

Lemma scan_digits_uint d acc tail :
  ends_number tail = true ->
  scan_digits (Npos acc) (uint_digits d ++ tail)
  = (Npos (Pos.of_uint_acc d acc), tail).
Proof.
  intros Htail. revert acc.
  induction d as [|d IH|d IH|d IH|d IH|d IH|d IH|d IH|d IH|d IH|d IH];
    intros acc;
    [ now apply ends_number_no_digit | .. ];
    cbn [uint_digits app scan_digits Pos.of_uint_acc];
    change (digit_value (ch "0")) with (Some 0);
    change (digit_value (ch "1")) with (Some 1);
    change (digit_value (ch "2")) with (Some 2);
    change (digit_value (ch "3")) with (Some 3);
    change (digit_value (ch "4")) with (Some 4);
    change (digit_value (ch "5")) with (Some 5);
    change (digit_value (ch "6")) with (Some 6);
    change (digit_value (ch "7")) with (Some 7);
    change (digit_value (ch "8")) with (Some 8);
    change (digit_value (ch "9")) with (Some 9);
    cbv iota; rewrite <- IH; f_equal; lia.
Qed.

Lemma to_uint_head p :
  exists d, Pos.to_uint p = d /\ d <> Decimal.Nil
            /\ forall d', d <> Decimal.D0 d'.
Proof.
  exists (Pos.to_uint p). split; [reflexivity|].
  split; [apply DecimalPos.Unsigned.to_uint_nonnil|].
  intros d' E.
  pose proof (DecimalPos.Unsigned.to_of (Pos.to_uint p)) as Hnorm.
  rewrite DecimalPos.Unsigned.of_to in Hnorm.
  change (N.to_uint (Npos p)) with (Pos.to_uint p) in Hnorm.
  rewrite E in Hnorm. rewrite DecimalFacts.unorm_D0 in Hnorm.
  unfold Decimal.unorm in Hnorm.
  destruct (Decimal.nzhead d') eqn:Hnz;
    try (symmetry in Hnorm; revert Hnorm; rewrite <- Hnz;
         apply DecimalFacts.nzhead_nonzero).
  injection Hnorm as ->.
  apply (DecimalPos.Unsigned.to_uint_nonzero p). exact E.
Qed.

Lemma scan_number_digits p tail :
  ends_number tail = true ->
  exists c more,
    uint_digits (Pos.to_uint p) ++ tail = c :: more
    /\ (c =? ch "-") = false
    /\ exists d, digit_value c = Some d /\ (d =? 0) = false
       /\ scan_digits d more = (Npos p, tail).
Proof.
  intros Htail.
  destruct (to_uint_head p) as (d & E & Hnil & Hzero).
  pose proof (DecimalPos.Unsigned.of_to p) as Hof. rewrite E in *.
  destruct d as [|d|d|d|d|d|d|d|d|d|d];
    [ contradiction | exfalso; now apply (Hzero d) | .. ];
    cbn [uint_digits app]; eexists; eexists; (split; [reflexivity|]);
    (split; [reflexivity|]); eexists; (split; [reflexivity|]);
    (split; [reflexivity|]);
    cbn [Pos.of_uint] in Hof; rewrite <- Hof;
    apply (scan_digits_uint d _ tail Htail).
Qed.

Lemma digits_consumed (digits tail : pystr) :
  (List.length (digits ++ tail) - List.length tail = List.length digits)%nat.
Proof. rewrite length_app. lia. Qed.

Lemma within_limit n :
  int_ok n = true -> (max_str_digits <? int_digits n)%nat = false.
Proof. unfold int_ok. intros H. apply Nat.ltb_ge. now apply Nat.leb_le. Qed.

Lemma scan_number_encode_int n tail :
  int_ok n = true -> ends_number tail = true ->
  scan_number (encode_int n ++ tail) = Some (n, tail).
Proof.
  intros Hok Htail. pose proof (ends_number_no_float _ Htail) as Hfloat.
  apply within_limit in Hok. unfold int_digits in Hok.
  destruct n as [|p|p]; cbn [encode_int Z.abs] in *.
  - unfold scan_number. cbn [app].
    change (ch "0" =? ch "-") with false. cbv iota.
    change (digit_value (ch "0")) with (Some 0). cbv iota.
    change (0 =? 0) with true. cbv iota. rewrite Hfloat.
    change (ch "0" :: tail) with ([ch "0"] ++ tail).
    rewrite digits_consumed. reflexivity.
  - destruct (scan_number_digits p tail Htail)
      as (c & more & E & Hminus & d & Hd & Hnz & Hscan).
    rewrite E. unfold scan_number. rewrite Hminus, Hd, Hnz, Hscan, Hfloat.
    rewrite <- E, digits_consumed, Hok. reflexivity.
  - destruct (scan_number_digits p tail Htail)
      as (c & more & E & Hminus & d & Hd & Hnz & Hscan).
    cbn [app]. unfold scan_number. change (ch "-" =? ch "-") with true.
    cbv iota. rewrite E, Hd, Hnz, Hscan, Hfloat.
    rewrite <- E, digits_consumed, Hok. reflexivity.
Qed.

(** *** Dictionaries *)

Lemma pystr_eqb_neq a b : pystr_eqb a b = false <-> a <> b.
Proof.
  rewrite <- pystr_eqb_eq. destruct (pystr_eqb a b); split; congruence.
Qed.

Lemma existsb_pystr_eqb k ks : existsb (pystr_eqb k) ks = true <-> In k ks.
Proof.
  rewrite existsb_exists. split.
  - intros (x & Hx & E). apply pystr_eqb_eq in E. now subst.
  - intros H. exists k. split; [exact H | apply pystr_eqb_refl].
Qed.

Lemma keys_distinct_NoDup ks : keys_distinct ks = true -> NoDup ks.
Proof.
  induction ks as [|k ks IH]; intros H; constructor;
    cbn [keys_distinct] in H; apply andb_true_iff in H; destruct H as [Hk H].
  - intros Hin. apply existsb_pystr_eqb in Hin. rewrite Hin in Hk. discriminate.
  - now apply IH.
Qed.

Lemma dict_set_fresh k v d :
  ~ In k (map fst d) -> dict_set k v d = d ++ [(k, v)].
Proof.
  induction d as [|[k' v'] d IH]; intros Hk; [reflexivity|].
  cbn [dict_set app]. cbn [map fst] in Hk.
  destruct (pystr_eqb k k') eqn:E.
  - apply pystr_eqb_eq in E. subst. exfalso. apply Hk. now left.
  - rewrite IH; [reflexivity|]. intros Hin. apply Hk. now right.
Qed.

Lemma fold_dict_set pairs acc :
  NoDup (map fst (acc ++ pairs)) ->
  fold_left (fun d kv => dict_set (fst kv) (snd kv) d) pairs acc = acc ++ pairs.
Proof.
  revert acc. induction pairs as [|[k v] pairs IH]; intros acc Hnd.
  - now rewrite app_nil_r.
  - cbn [fold_left fst snd].
    rewrite dict_set_fresh.
    + rewrite IH; rewrite <- app_assoc; [reflexivity | exact Hnd].
    + rewrite map_app in Hnd. cbn [map fst] in Hnd.
      apply NoDup_remove_2 in Hnd. intros Hin. apply Hnd.
      apply in_or_app. now left.
Qed.

Lemma dict_of_pairs_distinct kvs :
  keys_distinct (map fst kvs) = true -> dict_of_pairs kvs = kvs.
Proof.
  intros H. unfold dict_of_pairs.
  now rewrite fold_dict_set by (now apply keys_distinct_NoDup).
Qed.

(** *** Values *)

Lemma digit_value_range c d : digit_value c = Some d -> 48 <= c /\ c <= 57.
Proof.
  unfold digit_value, ch. simpl N_of_ascii.
  destruct ((48 <=? c) && (c <=? 57)) eqn:E; [|discriminate].
  intros _. apply andb_true_iff in E. destruct E as [E1 E2].
  apply N.leb_le in E1, E2. now split.
Qed.

Lemma encode_int_head n tail :
  exists c more,
    encode_int n ++ tail = c :: more
    /\ ((48 <= c /\ c <= 57) \/ c = ch "-").
Proof.
  destruct n as [|p|p]; cbn [encode_int].
  - exists (ch "0"), tail. split; [reflexivity|]. left. unfold ch. simpl. lia.
  - destruct (scan_number_digits p [] eq_refl)
      as (c & more & E & _ & d & Hd & _).
    rewrite app_nil_r in E. rewrite E.
    exists c, (more ++ tail). split; [reflexivity|].
    left. exact (digit_value_range _ _ Hd).
  - exists (ch "-"). eexists. split; [reflexivity|]. now right.
Qed.

Lemma is_ws_false c : 33 <= c -> is_ws c = false.
Proof.
  intros H. unfold is_ws.
  rewrite !(proj2 (N.eqb_neq c _)) by lia. reflexivity.
Qed.

Lemma dumps_head v tail :
  exists c more,
    dumps v ++ tail = c :: more
    /\ is_ws c = false /\ (c =? ch "]") = false /\ (c =? ch "}") = false
    /\ (c =? 0xfeff) = false.
Proof.
  destruct v as [|[|]|n|s|items|kvs];
    try (eexists; eexists; split; [reflexivity|]; repeat split; reflexivity).
  destruct (encode_int_head n tail) as (c & more & E & Hc).
  exists c, more. split; [exact E|].
  unfold ch in *. simpl N_of_ascii in *.
  repeat split;
    [apply is_ws_false | apply N.eqb_neq | apply N.eqb_neq | apply N.eqb_neq];
    destruct Hc as [[? ?]| ->]; lia.
Qed.

Lemma skip_ws_head c more : is_ws c = false -> skip_ws (c :: more) = c :: more.
Proof. intros H. cbn [skip_ws]. now rewrite H. Qed.

Lemma skip_ws_dumps v tail : skip_ws (dumps v ++ tail) = dumps v ++ tail.
Proof.
  destruct (dumps_head v tail) as (c & more & -> & Hws & _).
  now apply skip_ws_head.
Qed.

Lemma scan_once_number fuel c more :
  (48 <= c /\ c <= 57) \/ c = ch "-" ->
  scan_once (S fuel) (c :: more)
  = match scan_number (c :: more) with
    | Some (n, rest') => Some (VInt n, rest')
    | None => None
    end.
Proof.
  intros Hc. cbn [scan_once]. unfold is_prefix, py. cbn [map list_ascii_of_string].
  unfold ch, dquote in *. simpl N_of_ascii in *.
  rewrite !(proj2 (N.eqb_neq c _)) by (destruct Hc as [[? ?]| ->]; lia).
  rewrite !(proj2 (N.eqb_neq _ c)) by (destruct Hc as [[? ?]| ->]; lia).
  reflexivity.
Qed.

Lemma pyval_nested_ind (P : pyval -> Prop) :
  P VNone -> (forall b, P (VBool b)) -> (forall n, P (VInt n)) ->
  (forall s, P (VStr s)) ->
  (forall items, Forall P items -> P (VList items)) ->
  (forall kvs, Forall (fun kv => P (snd kv)) kvs -> P (VDict kvs)) ->
  forall v, P v.
Proof.
  intros HNone HBool HInt HStr HList HDict.
  fix IH 1. intros [|b|n|s|items|kvs].
  - exact HNone.
  - apply HBool.
  - apply HInt.
  - apply HStr.
  - apply HList. revert items. fix IHitems 1.
    intros [|x items]; constructor; [apply IH | apply IHitems].
  - apply HDict. revert kvs. fix IHkvs 1.
    intros [|[k x] kvs]; constructor; [apply IH | apply IHkvs].
Qed.

End Codec.


Lemma join_comma_cons (c c' : pystr) (cs : list pystr) :
  join_comma (c :: c' :: cs) = c ++ py ", " ++ join_comma (c' :: cs).
Proof. reflexivity. Qed.

Lemma skip_ws_space s : skip_ws (32%N :: s) = skip_ws s.
Proof. reflexivity. Qed.

Lemma skip_ws_elements y items tail :
  skip_ws (join_comma (map dumps (y :: items)) ++ tail)
  = join_comma (map dumps (y :: items)) ++ tail.
Proof.
  destruct items as [|z items]; cbn [map].
  - apply skip_ws_dumps.
  - rewrite join_comma_cons, <- app_assoc. apply skip_ws_dumps.
Qed.

Lemma scan_elements_dumps items :
  Forall reads_back items ->
  forallb wire_safe items = true ->
  forall x fuel tail,
    reads_back x -> wire_safe x = true ->
    List.length (join_comma (map dumps (x :: items))) < fuel ->
    scan_elements fuel (join_comma (map dumps (x :: items)) ++ ch "]" :: tail)
    = Some (x :: items, tail).
Proof.
  intros Hall.
  induction Hall as [|y items Hy Hall IH]; intros Hsafe x fuel tail Hx Hsx Hfuel;
    (destruct fuel as [|fuel]; [inversion Hfuel|]).
  - cbn [map join_comma] in *. cbn [scan_elements].
    rewrite (Hx Hsx fuel (ch "]" :: tail)) by (try reflexivity; lia).
    reflexivity.
  - cbn [forallb] in Hsafe. apply andb_true_iff in Hsafe.
    destruct Hsafe as [Hsy Hsafe].
    cbn [map] in *. rewrite join_comma_cons in *.
    rewrite !length_app in Hfuel. change (List.length (py ", ")) with 2 in Hfuel.
    rewrite <- !app_assoc.
    cbn [scan_elements].
    rewrite (Hx Hsx fuel) by (try reflexivity; lia).
    change (py ", ") with [ch ","; 32%N]. cbn [app skip_ws].
    change (is_ws (ch ",")) with false. change (is_ws 32) with true.
    cbv iota. change (ch "," =? ch "]")%N with false.
    change (ch "," =? ch ",")%N with true. cbv iota.
    change (dumps y :: map dumps items) with (map dumps (y :: items)).
    rewrite skip_ws_space, skip_ws_elements. cbn [map].
    rewrite (IH Hsafe y fuel tail Hy Hsy); [reflexivity|].
    lia.
Qed.

Lemma dumps_dict kvs :
  dumps (VDict kvs) = ch "{" :: join_comma (map member_text kvs) ++ [ch "}"].
Proof. reflexivity. Qed.

Lemma scan_members_step fuel k x R :
  text_ok k = true -> reads_back x -> wire_safe x = true ->
  List.length (dumps x) <= fuel ->
  ends_number R = true -> skip_ws R = R ->
  scan_members (S fuel) (member_text (k, x) ++ R)
  = match R with
    | [] => None
    | c2 :: rest4 =>
        if (c2 =? ch "}")%N then Some ([(k, x)], rest4)
        else if (c2 =? ch ",")%N then
          match scan_members fuel (skip_ws rest4) with
          | Some (pairs, rest') => Some ((k, x) :: pairs, rest')
          | None => None
          end
        else None
    end.
Proof.
  intros Hk Hx Hsx Hfuel HR Hws.
  unfold member_text, encode_string. cbn [app]. rewrite <- !app_assoc.
  cbn [app scan_members]. change (dquote =? dquote)%N with true. cbv iota.
  rewrite scan_string_encoded by exact Hk.
  change (py ": ") with [ch ":"; 32%N]. cbn [app skip_ws].
  change (is_ws (ch ":")) with false. cbv iota.
  change (ch ":" =? ch ":")%N with true. cbv iota.
  rewrite skip_ws_space, skip_ws_dumps.
  rewrite (Hx Hsx fuel R Hfuel HR). rewrite Hws. reflexivity.
Qed.

Lemma skip_ws_members k x kvs tail :
  skip_ws (join_comma (map member_text ((k, x) :: kvs)) ++ tail)
  = join_comma (map member_text ((k, x) :: kvs)) ++ tail.
Proof.
  destruct kvs as [|kv kvs]; cbn [map]; [|rewrite join_comma_cons];
    unfold member_text at 1, encode_string; reflexivity.
Qed.

Lemma scan_members_dumps kvs :
  Forall (fun kv => reads_back (snd kv)) kvs ->
  forallb (fun kv : pystr * pyval =>
             let (k, x) := kv in text_ok k && wire_safe x) kvs = true ->
  forall k x fuel tail,
    reads_back x -> text_ok k = true -> wire_safe x = true ->
    List.length (join_comma (map member_text ((k, x) :: kvs))) < fuel ->
    scan_members fuel
      (join_comma (map member_text ((k, x) :: kvs)) ++ ch "}" :: tail)
    = Some ((k, x) :: kvs, tail).
Proof.
  intros Hall.
  induction Hall as [|[k' y] kvs Hy Hall IH];
    intros Hsafe k x fuel tail Hx Hk Hsx Hfuel;
    (destruct fuel as [|fuel]; [inversion Hfuel|]).
  - cbn [map join_comma] in *.
    assert (Hlen : List.length (dumps x) <= fuel).
    { unfold member_text in Hfuel. rewrite !length_app in Hfuel. lia. }
    rewrite scan_members_step by (try reflexivity; assumption).
    reflexivity.
  - cbn [forallb] in Hsafe. apply andb_true_iff in Hsafe.
    destruct Hsafe as [Hky Hsafe]. apply andb_true_iff in Hky.
    destruct Hky as [Hk' Hsy]. cbn [snd] in Hy.
    cbn [map] in *. rewrite join_comma_cons in *.
    rewrite !length_app in Hfuel. change (List.length (py ", ")) with 2 in Hfuel.
    assert (Hlen : List.length (dumps x) <= fuel).
    { unfold member_text at 1 in Hfuel. rewrite !length_app in Hfuel. lia. }
    rewrite <- !app_assoc.
    rewrite scan_members_step by (try reflexivity; assumption).
    change (py ", ") with [ch ","; 32%N]. cbn [app].
    change (ch "," =? ch "}")%N with false.
    change (ch "," =? ch ",")%N with true. cbv iota.
    rewrite skip_ws_space.
    change (member_text (k', y) :: map member_text kvs)
      with (map member_text ((k', y) :: kvs)).
    rewrite skip_ws_members. cbn [map].
    rewrite (IH Hsafe k' y fuel tail Hy Hk' Hsy); [reflexivity|].
    lia.
Qed.

Lemma scan_once_dumps v : reads_back v.
Proof.
  induction v as [|b|n|s|items IH|kvs IH] using pyval_nested_ind;
    intros Hsafe fuel tail Hfuel Htail.
  - destruct fuel as [|fuel]; [inversion Hfuel|]. reflexivity.
  - destruct fuel as [|fuel]; [destruct b; inversion Hfuel|].
    destruct b; reflexivity.
  - destruct (encode_int_head n tail) as (c & more & E & Hc).
    destruct fuel as [|fuel].
    { destruct (encode_int_head n []) as (c0 & more0 & E0 & _).
      rewrite app_nil_r in E0. cbn [dumps] in Hfuel. rewrite E0 in Hfuel.
      inversion Hfuel. }
    cbn [dumps]. rewrite E, scan_once_number by exact Hc.
    rewrite <- E. now rewrite scan_number_encode_int.
  - destruct fuel as [|fuel]; [inversion Hfuel|].
    cbn [dumps]. now apply scan_once_string.
  - destruct fuel as [|fuel]; [inversion Hfuel|].
    cbn [wire_safe] in Hsafe. cbn [dumps] in *.
    cbn [List.length] in Hfuel. rewrite length_app in Hfuel.
    cbn [List.length] in Hfuel.
    cbn [app scan_once].
    change (ch "[" =? dquote)%N with false.
    change (ch "[" =? ch "{")%N with false.
    change (ch "[" =? ch "[")%N with true. cbv iota.
    rewrite <- app_assoc. cbn [app].
    destruct items as [|x items]; [reflexivity|].
    rewrite skip_ws_elements.
    destruct (dumps_head x []) as (c & more & E & _ & Hclose & _ & _).
    rewrite app_nil_r in E.
    assert (Ehead : exists more',
               join_comma (map dumps (x :: items)) ++ ch "]" :: tail
               = c :: more').
    { destruct items as [|y items]; cbn [map];
        [|rewrite join_comma_cons]; cbn [join_comma]; rewrite E;
        eexists; reflexivity. }
    destruct Ehead as [more' Ehead]. rewrite Ehead, Hclose, <- Ehead.
    apply andb_true_iff in Hsafe. destruct Hsafe as [Hsx Hsafe].
    inversion IH as [|? ? Hx Hall]; subst.
    rewrite (scan_elements_dumps items Hall Hsafe x fuel tail Hx Hsx)
      by lia.
    reflexivity.
  - destruct fuel as [|fuel]; [inversion Hfuel|].
    cbn [wire_safe] in Hsafe. apply andb_true_iff in Hsafe.
    destruct Hsafe as [Hkeys Hsafe].
    rewrite dumps_dict in *.
    cbn [List.length] in Hfuel. rewrite length_app in Hfuel.
    cbn [List.length] in Hfuel.
    cbn [app scan_once].
    change (ch "{" =? dquote)%N with false.
    change (ch "{" =? ch "{")%N with true. cbv iota.
    rewrite <- app_assoc. cbn [app].
    destruct kvs as [|[k x] kvs]; [reflexivity|].
    rewrite skip_ws_members.
    assert (Ehead : exists more',
               join_comma (map member_text ((k, x) :: kvs)) ++ ch "}" :: tail
               = dquote :: more').
    { destruct kvs as [|kv kvs]; cbn [map];
        [|rewrite join_comma_cons]; cbn [join_comma];
        unfold member_text at 1, encode_string; eexists; reflexivity. }
    destruct Ehead as [more' Ehead]. rewrite Ehead.
    change (dquote =? ch "}")%N with false. cbv iota. rewrite <- Ehead.
    cbn [forallb] in Hsafe. apply andb_true_iff in Hsafe.
    destruct Hsafe as [Hkx Hsafe]. apply andb_true_iff in Hkx.
    destruct Hkx as [Hk Hsx].
    inversion IH as [|? ? Hx Hall]; subst. cbn [snd] in Hx.
    rewrite (scan_members_dumps kvs Hall Hsafe k x fuel tail Hx Hk Hsx)
      by lia.
    now rewrite dict_of_pairs_distinct.
Qed.

(** Decoding what was encoded gives the value back. *)
Lemma loads_dumps v : wire_safe v = true -> loads (dumps v) = Some v.
Proof.
  intros Hsafe. unfold loads.
  destruct (dumps_head v []) as (c & more & E & _ & _ & _ & Hbom).
  rewrite app_nil_r in E. rewrite E at 1. rewrite Hbom.
  rewrite <- (app_nil_r (dumps v)) at 2. rewrite skip_ws_dumps.
  rewrite (scan_once_dumps v Hsafe (S (List.length (dumps v))) [])
    by (try reflexivity; lia).
  reflexivity.
Qed.



Lemma wire_safe_item_create_event role texts :
  text_ok role = true -> forallb text_ok texts = true ->
  wire_safe (item_create_event role texts) = true.
Proof.
  intros Hrole Htexts. unfold item_create_event.
  cbn [wire_safe map fst forallb]. rewrite Hrole.
  assert (Hparts : forallb wire_safe (map (fun t => input_text (VStr t)) texts)
                   = true).
  { induction texts as [|t texts IH]; [reflexivity|].
    cbn [forallb] in Htexts. apply andb_true_iff in Htexts.
    destruct Htexts as [Ht Htexts].
    cbn [map forallb]. rewrite (IH Htexts).
    unfold input_text. cbn [wire_safe map fst forallb]. now rewrite Ht. }
  rewrite Hparts. reflexivity.
Qed.

(** C9, as the code has it.  A conversation item whose role and texts are
    strings of Unicode code points, none with a high surrogate directly
    before a low surrogate, is decoded from its encoding as the same event:
    same role, same text parts, verbatim. *)
Theorem item_create_round_trip role texts :
  text_ok role = true ->
  forallb text_ok texts = true ->
  loads (dumps (item_create_event role texts))
  = Some (item_create_event role texts).
Proof.
  intros Hrole Htexts. apply loads_dumps.
  now apply wire_safe_item_create_event.
Qed.

Lemma item_create_round_trip_witness :
  loads (dumps (item_create_event (py "user")
                  [py "hi"; [104; 10; 233; 0x1F600; 34; 0xd83d; 0x20ac]%N]))
  = Some (item_create_event (py "user")
            [py "hi"; [104; 10; 233; 0x1F600; 34; 0xd83d; 0x20ac]%N]).
Proof.
  apply (item_create_round_trip (py "user")
           [py "hi"; [104; 10; 233; 0x1F600; 34; 0xd83d; 0x20ac]%N]);
    reflexivity.
Defined.

(** The event [chat_completion] sends is such an event. *)
Lemma create_item_request_round_trip conversation :
  forallb (fun t => text_ok (turn_content t)) conversation = true ->
  loads (dumps (create_item_request (parts_of conversation)))
  = Some (create_item_request (parts_of conversation)).
Proof.
  intros H.
  replace (create_item_request (parts_of conversation))
    with (item_create_event (py "user") (map turn_content conversation)).
  - apply loads_dumps. apply wire_safe_item_create_event; [reflexivity|].
    induction conversation as [|t ts IH]; [reflexivity|].
    cbn [forallb map] in *. apply andb_true_iff in H. destruct H as [Ht H].
    now rewrite Ht, IH.
  - unfold item_create_event, create_item_request, parts_of.
    now rewrite map_map.
Qed.

(** C9 as stated fails: a text made of a high surrogate followed by a low
    surrogate is written as two escapes, which are read back as the one
    character the pair encodes. *)
Lemma item_create_surrogates_counterexample :
  dumps (VStr [0xd83d; 0xde00]%N) = dquote :: py "\ud83d\ude00" ++ [dquote]
  /\ loads (dumps (item_create_event (py "user") [[0xd83d; 0xde00]%N]))
     = Some (item_create_event (py "user") [[0x1f600]%N])
  /\ loads (dumps (item_create_event (py "user") [[0xd83d; 0xde00]%N]))
     <> Some (item_create_event (py "user") [[0xd83d; 0xde00]%N]).
Proof.
  split; [reflexivity|]. split; [reflexivity|]. vm_compute. discriminate.
Qed.

(** * Further properties *)

(** ** Failures of a receive *)

Lemma receive_message_fails f e more :
  frame_error f = Some e ->
  receive_message (f :: more) = mkRun (Raised e) more [RecvFrame f].
Proof. destruct f; intros H; inversion H; reflexivity. Qed.

Lemma has_type_unique event a b :
  has_type event a = true -> a <> b -> has_type event b = false.
Proof.
  unfold has_type. destruct (field (py "type") event) as [v|]; [|discriminate].
  destruct v as [| | |s| |]; try discriminate. simpl. intros Ha Hab.
  apply pystr_eqb_eq in Ha. subst s.
  destruct (pystr_eqb a b) eqn:E; [|reflexivity].
  apply pystr_eqb_eq in E. contradiction.
Qed.

Lemma stream_loop_fails n f e fs :
  frame_error f = Some e -> e <> ConnectionClosed ->
  stream_loop (S n) (f :: fs) = mkRun (Raised e) fs [RecvFrame f].
Proof.
  destruct f; intros H He; inversion H; subst; try reflexivity.
  contradiction.
Qed.

Lemma stream_events_fails f e fs :
  frame_error f = Some e -> e <> ConnectionClosed ->
  stream_events (f :: fs) = mkRun (Raised e) fs [RecvFrame f].
Proof. intros. unfold stream_events. now apply stream_loop_fails. Qed.

(** X1.  A receive that fails (the peer closes, the task is cancelled, the
    frame cannot be read) during the handshake or while the acknowledgement
    of the conversation item is awaited raises out of [chat_completion]; in
    the stream every such failure but the closure does.  The connection is
    closed and nothing is sent after the failure. *)
Theorem chat_completion_receive_failure
    deployment conversation session_id f e hs ic mids more :
  frame_error f = Some e ->
  chat_completion deployment (map turn_message conversation) session_id
    (Accept (f :: more))
  = mkRun (Raised e) more [Connect deployment; RecvFrame f; Disconnect]
  /\ (handshake_ok hs = true ->
      chat_completion deployment (map turn_message conversation) session_id
        (Accept (Message hs :: f :: more))
      = mkRun (Raised e) more
          [Connect deployment; RecvFrame (Message hs);
           SendMsg (create_item_request (parts_of conversation));
           RecvFrame f; Disconnect])
  /\ (handshake_ok hs = true -> item_created_ok ic = true ->
      forallb intermediate mids = true -> e <> ConnectionClosed ->
      chat_completion deployment (map turn_message conversation) session_id
        (Accept (Message hs :: Message ic :: map Message mids ++ f :: more))
      = mkRun (Raised e) more
          (exchange_prefix deployment conversation hs ic
             ++ map (fun ev => RecvFrame (Message ev)) mids
             ++ [RecvFrame f; Disconnect])).
Proof.
  intros Hf. split; [|split].
  - unfold chat_completion, with_connect, chat_session, negotiate.
    rewrite bind_bind.
    rewrite (bind_raised _ _ _ _ _ _ (receive_message_fails f e more Hf)).
    reflexivity.
  - intros Hhs. unfold chat_completion, with_connect, chat_session.
    rewrite (bind_returned _ _ _ _ _ _ (negotiate_accepts hs _ Hhs)).
    unfold submit_content.
    rewrite !bind_bind, content_messages_turns, bind_lift_returned.
    rewrite !bind_bind, bind_send_message, !bind_bind.
    rewrite (bind_raised _ _ _ _ _ _ (receive_message_fails f e more Hf)).
    reflexivity.
  - intros Hhs Hic Hmids He.
    rewrite chat_completion_stream by assumption.
    rewrite stream_events_skip by assumption.
    rewrite (stream_events_fails f e more Hf He).
    simpl. now rewrite <- app_assoc.
Qed.

Lemma chat_completion_receive_failure_witness :
  chat_completion demo_deployment (map turn_message demo_conversation) VNone
    (Accept (PeerClosed :: []))
  = mkRun (Raised ConnectionClosed) []
      [Connect demo_deployment; RecvFrame PeerClosed; Disconnect]
  /\ chat_completion demo_deployment (map turn_message demo_conversation) VNone
       (Accept (Message session_created_s1 :: Cancel :: []))
     = mkRun (Raised CancelledError) []
         [Connect demo_deployment; RecvFrame (Message session_created_s1);
          SendMsg (create_item_request (parts_of demo_conversation));
          RecvFrame Cancel; Disconnect]
  /\ chat_completion demo_deployment (map turn_message demo_conversation) VNone
       (Accept (Message session_created_s1 :: Message item_created ::
                map Message [audio_delta] ++ BadFrame :: []))
     = mkRun (Raised ReceiveError) []
         (exchange_prefix demo_deployment demo_conversation
            session_created_s1 item_created
            ++ map (fun ev => RecvFrame (Message ev)) [audio_delta]
            ++ [RecvFrame BadFrame; Disconnect]).
Proof.
  split; [|split].
  - apply (proj1 (chat_completion_receive_failure demo_deployment
             demo_conversation VNone PeerClosed ConnectionClosed
             session_created_s1 item_created [] [] eq_refl)).
  - apply (proj1 (proj2 (chat_completion_receive_failure demo_deployment
             demo_conversation VNone Cancel CancelledError
             session_created_s1 item_created [] [] eq_refl)) eq_refl).
  - apply (proj2 (proj2 (chat_completion_receive_failure demo_deployment
             demo_conversation VNone BadFrame ReceiveError
             session_created_s1 item_created [audio_delta] [] eq_refl))
             eq_refl eq_refl eq_refl).
    discriminate.
Defined.

(** ** The stream *)

Lemma stream_loop_error_type n event fs :
  has_error event = false -> has_type event (py "error") = true ->
  stream_loop (S n) (Message event :: fs)
  = mkRun (Raised (Exception (StreamError empty_dict))) fs
      [RecvFrame (Message event)].
Proof.
  intros He Hty. destruct (has_type_dict _ _ Hty) as [kvs ->].
  assert (Hdone : has_type (VDict kvs) (py "response.done") = false).
  { apply (has_type_unique _ _ _ Hty). discriminate. }
  simpl. unfold ws_bind.
  rewrite stream_iteration_message, stream_try_message, He, Hdone, Hty.
  unfold error_details. unfold has_error in He.
  destruct (field (py "error") (VDict kvs)); [discriminate | reflexivity].
Qed.

Lemma stream_events_error_type event fs :
  has_error event = false -> has_type event (py "error") = true ->
  stream_events (Message event :: fs)
  = mkRun (Raised (Exception (StreamError empty_dict))) fs
      [RecvFrame (Message event)].
Proof. intros. unfold stream_events. now apply stream_loop_error_type. Qed.

(** X2.  An event of type [error] that has no [error] member ends the turn
    with the stream exception, and the details it carries are always the
    empty dictionary: an event with an [error] member never gets that far. *)
Theorem stream_error_carries_no_details
    deployment conversation hs ic mids event more :
  handshake_ok hs = true ->
  item_created_ok ic = true ->
  forallb intermediate mids = true ->
  has_error event = false ->
  has_type event (py "error") = true ->
  executeTurn deployment (map turn_message conversation)
    (Accept (Message hs :: Message ic ::
             map Message mids ++ Message event :: more))
  = mkRun (Raised (Exception (StreamError empty_dict))) more
      (exchange_prefix deployment conversation hs ic
         ++ map (fun e => RecvFrame (Message e)) mids
         ++ [RecvFrame (Message event); Disconnect]).
Proof.
  intros Hhs Hic Hmids He Hty.
  rewrite executeTurn_stream by assumption.
  rewrite stream_events_skip by assumption.
  rewrite stream_events_error_type by assumption.
  simpl. now rewrite <- app_assoc.
Qed.

Lemma stream_error_carries_no_details_witness :
  executeTurn demo_deployment (map turn_message demo_conversation)
    (Accept (Message session_created_s1 :: Message item_created ::
             map Message [audio_delta] ++
             Message (obj [("type", str "error"); ("code", str "rate_limited")]%string)
             :: []))
  = mkRun (Raised (Exception (StreamError empty_dict))) []
      (exchange_prefix demo_deployment demo_conversation
         session_created_s1 item_created
         ++ map (fun e => RecvFrame (Message e)) [audio_delta]
         ++ [RecvFrame (Message (obj [("type", str "error");
                                      ("code", str "rate_limited")]%string));
             Disconnect]).
Proof.
  apply (stream_error_carries_no_details demo_deployment demo_conversation
           session_created_s1 item_created [audio_delta]
           (obj [("type", str "error"); ("code", str "rate_limited")]%string) []);
    reflexivity.
Defined.

Lemma sends_received (events : list pyval) :
  sends (map (fun e => RecvFrame (Message e)) events) = [].
Proof. induction events as [|e events IH]; [reflexivity | exact IH]. Qed.

(** X3.  Intermediate events are read and dropped: a run of them in the
    stream changes neither the result of the call, nor what it leaves
    unread, nor what it sends. *)
Theorem intermediate_events_are_dropped
    deployment conversation session_id hs ic mids fs :
  handshake_ok hs = true ->
  item_created_ok ic = true ->
  forallb intermediate mids = true ->
  out (chat_completion deployment (map turn_message conversation) session_id
         (Accept (Message hs :: Message ic :: map Message mids ++ fs)))
  = out (chat_completion deployment (map turn_message conversation) session_id
           (Accept (Message hs :: Message ic :: fs)))
  /\ unread (chat_completion deployment (map turn_message conversation)
               session_id
               (Accept (Message hs :: Message ic :: map Message mids ++ fs)))
     = unread (chat_completion deployment (map turn_message conversation)
                 session_id (Accept (Message hs :: Message ic :: fs)))
  /\ sends (trace (chat_completion deployment (map turn_message conversation)
                     session_id
                     (Accept (Message hs :: Message ic :: map Message mids ++ fs))))
     = sends (trace (chat_completion deployment (map turn_message conversation)
                       session_id (Accept (Message hs :: Message ic :: fs)))).
Proof.
  intros Hhs Hic Hmids.
  rewrite !chat_completion_stream by assumption.
  rewrite stream_events_skip by assumption.
  rewrite !out_scoped, !unread_scoped, !trace_scoped.
  simpl out. simpl unread. simpl trace.
  split; [reflexivity|]. split; [reflexivity|].
  pose proof (sends_received mids) as Hrecv.
  unfold sends in *. cbn [flat_map app]. rewrite !flat_map_app.
  now rewrite Hrecv.
Qed.

Lemma intermediate_events_are_dropped_witness :
  out (chat_completion demo_deployment (map turn_message demo_conversation) VNone
         (Accept (Message session_created_s1 :: Message item_created ::
                  map Message [audio_delta; audio_delta] ++
                  [Message (response_done_with [])])))
  = out (chat_completion demo_deployment (map turn_message demo_conversation)
           VNone
           (Accept (Message session_created_s1 :: Message item_created ::
                    [Message (response_done_with [])])))
  /\ unread (chat_completion demo_deployment (map turn_message demo_conversation)
               VNone
               (Accept (Message session_created_s1 :: Message item_created ::
                        map Message [audio_delta; audio_delta] ++
                        [Message (response_done_with [])])))
     = unread (chat_completion demo_deployment
                 (map turn_message demo_conversation) VNone
                 (Accept (Message session_created_s1 :: Message item_created ::
                          [Message (response_done_with [])])))
  /\ sends (trace (chat_completion demo_deployment
                     (map turn_message demo_conversation) VNone
                     (Accept (Message session_created_s1 :: Message item_created ::
                              map Message [audio_delta; audio_delta] ++
                              [Message (response_done_with [])]))))
     = sends (trace (chat_completion demo_deployment
                       (map turn_message demo_conversation) VNone
                       (Accept (Message session_created_s1 :: Message item_created ::
                                [Message (response_done_with [])])))).
Proof.
  apply (intermediate_events_are_dropped demo_deployment demo_conversation VNone
           session_created_s1 item_created [audio_delta; audio_delta]
           [Message (response_done_with [])]);
    reflexivity.
Defined.

(** X4.  While only intermediate events arrive the call neither returns
    nor raises: it is still waiting for the next event, with the connection
    open. *)
Theorem chat_completion_waits_for_completion
    deployment conversation session_id hs ic mids :
  handshake_ok hs = true ->
  item_created_ok ic = true ->
  forallb intermediate mids = true ->
  chat_completion deployment (map turn_message conversation) session_id
    (Accept (Message hs :: Message ic :: map Message mids))
  = mkRun Blocked []
      (exchange_prefix deployment conversation hs ic
         ++ map (fun e => RecvFrame (Message e)) mids).
Proof.
  intros Hhs Hic Hmids.
  rewrite <- (app_nil_r (map Message mids)).
  rewrite chat_completion_stream by assumption.
  rewrite stream_events_skip by assumption.
  change (stream_events []) with (@mkRun pyval Blocked [] []).
  simpl. now rewrite !app_nil_r.
Qed.

Lemma chat_completion_waits_for_completion_witness :
  chat_completion demo_deployment (map turn_message demo_conversation) VNone
    (Accept (Message session_created_s1 :: Message item_created ::
             map Message [audio_delta; audio_delta]))
  = mkRun Blocked []
      (exchange_prefix demo_deployment demo_conversation
         session_created_s1 item_created
         ++ map (fun e => RecvFrame (Message e)) [audio_delta; audio_delta]).
Proof.
  apply (chat_completion_waits_for_completion demo_deployment demo_conversation
           VNone session_created_s1 item_created [audio_delta; audio_delta]);
    reflexivity.
Defined.

(** ** Every run of [chat_completion] *)

Lemma out_bind_returned {A B} (m : ws A) (k : A -> ws B) fs b :
  out ((x <- m ;; k x) fs) = Returned b ->
  exists a more t,
    m fs = mkRun (Returned a) more t /\ out (k a more) = Returned b.
Proof.
  simpl. unfold ws_bind. destruct (m fs) as [[a|e|] more t]; try discriminate.
  intros H. exists a, more, t. split; [reflexivity | exact H].
Qed.

Lemma trace_bind {A B} (m : ws A) (k : A -> ws B) fs :
  trace ((x <- m ;; k x) fs)
  = trace (m fs)
      ++ match out (m fs) with
         | Returned a => trace (k a (unread (m fs)))
         | _ => []
         end.
Proof.
  simpl. unfold ws_bind. destruct (m fs) as [[a|e|] more t]; simpl;
    [reflexivity | now rewrite app_nil_r | now rewrite app_nil_r].
Qed.

(** The handshake reads one frame, and accepts it only if it is an object
    of type [session.created]. *)
Lemma negotiate_run f more :
  exists o,
    negotiate (f :: more) = mkRun o more [RecvFrame f]
    /\ forall v, o = Returned v ->
         exists kvs, f = Message (VDict kvs)
                     /\ has_type (VDict kvs) (py "session.created") = true.
Proof.
  destruct f as [event| | |];
    try (eexists; split; [reflexivity | discriminate]).
  destruct event as [|b|n|s|items|kvs];
    try (eexists; split; [reflexivity | discriminate]).
  destruct (has_type (VDict kvs) (py "session.created")) eqn:Hty.
  - unfold negotiate. rewrite bind_receive_message.
    unfold py_get at 1. rewrite bind_lift_returned.
    rewrite (get_type_eq kvs (py "session.created") VNone eq_refl), Hty.
    cbn [negb]. unfold py_get at 1. rewrite bind_lift_returned.
    unfold lift, prepend. simpl. eexists. split; [reflexivity|].
    intros v _. now exists kvs.
  - rewrite (negotiate_rejects (VDict kvs) more eq_refl Hty).
    eexists. split; [reflexivity | discriminate].
Qed.

Lemma content_messages_not_blocked messages :
  content_messages messages <> Blocked.
Proof.
  induction messages as [|msg messages IH]; [discriminate|].
  simpl. destruct (py_getitem msg (py "content")) as [text|e|] eqn:E;
    try discriminate.
  - simpl. destruct (content_messages messages); [discriminate.. | contradiction].
  - destruct msg as [| | | | |kvs]; try discriminate.
    simpl in E. destruct (lookup (py "content") kvs); discriminate.
Qed.

Lemma submit_content_no_content messages e fs :
  content_messages messages = Raised e ->
  submit_content messages fs = mkRun (Raised e) fs [].
Proof. intros H. unfold submit_content. now rewrite H. Qed.

Lemma submit_content_waits messages content :
  content_messages messages = Returned content ->
  submit_content messages []
  = mkRun Blocked [] [SendMsg (create_item_request content)].
Proof. intros H. unfold submit_content. now rewrite H. Qed.

(** With a content list built, the item is sent and one frame is read; the
    call goes on only if that frame is an error-free object of type
    [conversation.item.created]. *)
Lemma submit_content_run messages content f more :
  content_messages messages = Returned content ->
  exists o,
    submit_content messages (f :: more)
    = mkRun o more [SendMsg (create_item_request content); RecvFrame f]
    /\ forall u, o = Returned u ->
         exists ic, f = Message ic /\ item_created_ok ic = true.
Proof.
  intros Hc.
  destruct f as [event| | |];
    try (unfold submit_content; rewrite Hc;
         eexists; split; [reflexivity | discriminate]).
  destruct event as [|b|n|s|items|kvs];
    try (unfold submit_content; rewrite Hc;
         eexists; split; [reflexivity | discriminate]).
  - unfold submit_content. rewrite Hc, bind_lift_returned.
    rewrite bind_send_message, bind_receive_message.
    unfold py_in. rewrite bind_lift_returned.
    destruct (is_substring (py "error") s);
      (eexists; split; [reflexivity | discriminate]).
  - unfold submit_content. rewrite Hc, bind_lift_returned.
    rewrite bind_send_message, bind_receive_message.
    unfold py_in. rewrite bind_lift_returned.
    destruct (existsb _ items);
      (eexists; split; [reflexivity | discriminate]).
  - destruct (has_error (VDict kvs)) eqn:He.
    + rewrite (submit_content_rejected messages content Hc (VDict kvs) more He).
      eexists. split; [reflexivity | discriminate].
    + destruct (has_type (VDict kvs) (py "conversation.item.created")) eqn:Hty.
      * assert (Hic : item_created_ok (VDict kvs) = true).
        { unfold item_created_ok. now rewrite He, Hty. }
        rewrite (submit_content_created messages content Hc (VDict kvs) more Hic).
        eexists. split; [reflexivity|]. intros u _. now exists (VDict kvs).
      * rewrite (submit_content_unexpected messages content Hc (VDict kvs) more
                   eq_refl He Hty).
        eexists. split; [reflexivity | discriminate].
Qed.

(** One iteration of the loop reads one frame; it leaves the loop with a
    value only for a closure or for an error-free [response.done] event. *)
Lemma stream_iteration_run f more :
  exists o,
    stream_iteration (f :: more) = mkRun o more [RecvFrame f]
    /\ forall v, o = Returned (Some v) ->
         (f = PeerClosed /\ v = VNone)
         \/ exists event, f = Message event /\ response_done event = true
                          /\ v = response_payload event.
Proof.
  destruct f as [event| | |].
  - destruct event as [|b|n|s|items|kvs];
      try (eexists; split; [reflexivity | discriminate]).
    + unfold stream_iteration, try_except, stream_try.
      rewrite bind_receive_message. unfold py_in. rewrite bind_lift_returned.
      destruct (is_substring (py "error") s);
        (eexists; split; [reflexivity | discriminate]).
    + unfold stream_iteration, try_except, stream_try.
      rewrite bind_receive_message. unfold py_in. rewrite bind_lift_returned.
      destruct (existsb _ items);
        (eexists; split; [reflexivity | discriminate]).
    + rewrite stream_iteration_message, stream_try_message.
      eexists. split; [reflexivity|].
      intros v Hv. right. exists (VDict kvs). unfold response_done.
      destruct (has_error (VDict kvs)); [discriminate|].
      destruct (has_type (VDict kvs) (py "response.done")).
      * injection Hv as <-. repeat split.
      * destruct (has_type (VDict kvs) (py "error")); discriminate.
  - eexists. split; [reflexivity|]. intros v Hv. left.
    injection Hv as <-. now split.
  - eexists. split; [reflexivity | discriminate].
  - eexists. split; [reflexivity | discriminate].
Qed.

Lemma stream_loop_step n f more :
  exists o,
    stream_iteration (f :: more) = mkRun o more [RecvFrame f]
    /\ stream_loop (S n) (f :: more)
       = match o with
         | Returned (Some v) => mkRun (Returned v) more [RecvFrame f]
         | Returned None => prepend [RecvFrame f] (stream_loop n more)
         | Raised e => mkRun (Raised e) more [RecvFrame f]
         | Blocked => mkRun Blocked more [RecvFrame f]
         end.
Proof.
  destruct (stream_iteration_run f more) as (o & Hrun & _).
  exists o. split; [exact Hrun|].
  simpl. unfold ws_bind. rewrite Hrun.
  destruct o as [[v|]|e|]; reflexivity.
Qed.

Lemma stream_loop_returns n fs v :
  out (stream_loop n fs) = Returned v ->
  (v = VNone /\ In PeerClosed fs)
  \/ exists event, In (Message event) fs /\ response_done event = true
                   /\ v = response_payload event.
Proof.
  revert fs. induction n as [|n IH]; intros fs H; [discriminate|].
  destruct fs as [|f more]; [discriminate|].
  destruct (stream_iteration_run f more) as (o & Hrun & Ho).
  destruct (stream_loop_step n f more) as (o' & Hrun' & Hstep).
  rewrite Hrun in Hrun'. injection Hrun' as <-.
  rewrite Hstep in H. destruct o as [[w|]|e|]; try discriminate.
  - simpl in H. injection H as <-.
    destruct (Ho w eq_refl) as [[-> ->]|(event & -> & Hd & ->)].
    + left. split; [reflexivity | now left].
    + right. exists event. repeat split; [now left | exact Hd].
  - simpl in H. destruct (IH more H) as [[-> Hin]|(event & Hin & Hd & ->)].
    + left. split; [reflexivity | now right].
    + right. exists event. repeat split; [now right | exact Hd].
Qed.

(** X5.  Whatever the peer sends and whatever the messages are, a value
    returned by [chat_completion] is either [None], after the peer closed the
    connection in the stream, or the [response] payload of an error-free
    [response.done] event of the stream; and then the exchange began with a
    [session.created] event and an error-free [conversation.item.created]
    event. *)
Theorem chat_completion_returns_only_completions
    deployment messages session_id script v :
  out (chat_completion deployment messages session_id (Accept script))
  = Returned v ->
  exists hs ic stream,
    script = Message hs :: Message ic :: stream
    /\ has_type hs (py "session.created") = true
    /\ item_created_ok ic = true
    /\ ((v = VNone /\ In PeerClosed stream)
        \/ exists event,
             In (Message event) stream /\ response_done event = true
             /\ v = response_payload event).
Proof.
  unfold chat_completion, with_connect. rewrite out_scoped.
  unfold chat_session. intros H.
  apply out_bind_returned in H. destruct H as (id & more1 & t1 & Hneg & H).
  destruct script as [|f script]; [discriminate|].
  destruct (negotiate_run f script) as (o & Hrun & Ho).
  rewrite Hrun in Hneg. injection Hneg as -> <- _.
  destruct (Ho id eq_refl) as (kvs & -> & Hty).
  apply out_bind_returned in H. destruct H as (u & more2 & t2 & Hsub & H).
  destruct (content_messages messages) as [content|e|] eqn:Hc.
  - destruct script as [|f2 script].
    { rewrite (submit_content_waits messages content Hc) in Hsub. discriminate. }
    destruct (submit_content_run messages content f2 script Hc)
      as (o2 & Hrun2 & Ho2).
    rewrite Hrun2 in Hsub. injection Hsub as -> <- _.
    destruct (Ho2 u eq_refl) as (ic & -> & Hic).
    apply out_bind_returned in H. destruct H as (u' & more3 & t3 & Hsend & H).
    injection Hsend as _ <- _.
    exists (VDict kvs), ic, script. repeat split; try assumption.
    now apply (stream_loop_returns _ _ _ H).
  - rewrite (submit_content_no_content messages e script Hc) in Hsub.
    discriminate.
  - exfalso. now apply (content_messages_not_blocked messages).
Qed.

Lemma chat_completion_returns_only_completions_witness :
  exists hs ic stream,
    [Message session_created_s1; Message item_created; Message audio_delta;
     Message (response_done_with [assistant_item [audio_part "Hello!"]])]
    = Message hs :: Message ic :: stream
    /\ has_type hs (py "session.created") = true
    /\ item_created_ok ic = true
    /\ ((obj [("output", VList [assistant_item [audio_part "Hello!"]])]%string
         = VNone /\ In PeerClosed stream)
        \/ exists event,
             In (Message event) stream /\ response_done event = true
             /\ obj [("output", VList [assistant_item [audio_part "Hello!"]])]%string
                = response_payload event).
Proof.
  apply (chat_completion_returns_only_completions demo_deployment
           (map turn_message demo_conversation) VNone
           [Message session_created_s1; Message item_created; Message audio_delta;
            Message (response_done_with [assistant_item [audio_part "Hello!"]])]
           (obj [("output", VList [assistant_item [audio_part "Hello!"]])]%string)).
  reflexivity.
Defined.

(** ** What a call sends *)

Lemma receives_only_lift {A} (o : outcome A) : receives_only (lift o).
Proof. intros fs. reflexivity. Qed.

Lemma receives_only_ret {A} (a : A) : receives_only (ret a : ws A).
Proof. intros fs. reflexivity. Qed.

Lemma receives_only_raise {A} e : receives_only (@raise A e).
Proof. intros fs. reflexivity. Qed.

Lemma receives_only_receive_message : receives_only receive_message.
Proof. intros [|f fs]; reflexivity. Qed.

Lemma receives_only_bind {A B} (m : ws A) (k : A -> ws B) :
  receives_only m -> (forall a, receives_only (k a)) ->
  receives_only (x <- m ;; k x).
Proof.
  intros Hm Hk fs. rewrite trace_bind, sends_app, Hm.
  destruct (out (m fs)); [apply Hk | reflexivity | reflexivity].
Qed.

Lemma receives_only_try_except {A} (body : ws A) handler :
  receives_only body -> (forall e, receives_only (handler e)) ->
  receives_only (try_except body handler).
Proof.
  intros Hb Hh fs. unfold try_except. specialize (Hb fs).
  destruct (body fs) as [[a|e|] more t]; simpl in *; try exact Hb.
  rewrite sends_app, Hb. apply Hh.
Qed.

Lemma receives_only_if {A} (b : bool) (m1 m2 : ws A) :
  receives_only m1 -> receives_only m2 ->
  receives_only (if b then m1 else m2).
Proof. now destruct b. Qed.

Create HintDb receives.

#[local] Hint Resolve receives_only_lift receives_only_ret receives_only_raise
  receives_only_receive_message : receives.

Ltac receives :=
  repeat first
    [ apply receives_only_bind; [|intros ?]
    | apply receives_only_try_except; [|intros ?]
    | apply receives_only_if
    | solve [auto with receives] ].

Lemma receives_only_negotiate : receives_only negotiate.
Proof. unfold negotiate. receives. Qed.

Lemma receives_only_stream_iteration : receives_only stream_iteration.
Proof.
  unfold stream_iteration, stream_try. receives.
  match goal with e : exn |- _ => destruct e end; auto with receives.
Qed.

Lemma receives_only_stream_loop fuel : receives_only (stream_loop fuel).
Proof.
  induction fuel as [|fuel IH]; simpl stream_loop; [apply receives_only_lift|].
  apply receives_only_bind; [apply receives_only_stream_iteration|].
  intros [v|]; [apply receives_only_ret | exact IH].
Qed.

Lemma receives_only_stream_events : receives_only stream_events.
Proof. intros fs. apply receives_only_stream_loop. Qed.

(** The conversation item is the one thing [submit_content] sends, and it
    is sent whenever the content list could be built. *)
Lemma submit_content_sends messages fs :
  sends (trace (submit_content messages fs))
  = match content_messages messages with
    | Returned content => [create_item_request content]
    | _ => []
    end.
Proof.
  unfold submit_content. rewrite trace_bind.
  destruct (content_messages messages) as [content|e|]; try reflexivity.
  cbn [lift out unread trace app]. rewrite trace_bind.
  cbn [send_message out unread trace]. rewrite sends_app.
  assert (Hrest : receives_only
            (response <- receive_message ;;
             has_error <- lift (py_in (py "error") response) ;;
             if (has_error : bool) then
               error_details <- lift (py_get response (py "error") empty_dict) ;;
               raise (Exception (ItemCreationError error_details))
             else
               ty <- lift (py_get response (py "type") VNone) ;;
               if negb (py_eq_str ty (py "conversation.item.created")) then
                 raise (Exception ExpectedItemCreated)
               else ret tt)).
  { receives. }
  rewrite (Hrest fs). reflexivity.
Qed.

Lemma submit_content_returned messages fs u more t :
  submit_content messages fs = mkRun (Returned u) more t ->
  exists content, content_messages messages = Returned content.
Proof.
  intros H. destruct (content_messages messages) as [content|e|] eqn:Hc.
  - now exists content.
  - rewrite (submit_content_no_content messages e fs Hc) in H. discriminate.
  - exfalso. now apply (content_messages_not_blocked messages).
Qed.

Lemma py_getitem_field msg k :
  py_getitem msg k
  = match field k msg with
    | Some v => Returned v
    | None => Raised (if is_dict msg then KeyError else TypeError)
    end.
Proof. destruct msg; reflexivity. Qed.

Lemma content_messages_returned messages parts :
  content_messages messages = Returned parts ->
  exists contents,
    Forall2 (fun m c => field (py "content") m = Some c) messages contents
    /\ parts = map input_text contents.
Proof.
  revert parts. induction messages as [|m messages IH]; intros parts H.
  - injection H as <-. exists []. split; [constructor | reflexivity].
  - simpl in H. rewrite py_getitem_field in H.
    destruct (field (py "content") m) as [c|] eqn:Hm; [|discriminate].
    simpl in H.
    destruct (content_messages messages) as [rest|e|]; try discriminate.
    injection H as <-. destruct (IH rest eq_refl) as (contents & Hall & ->).
    exists (c :: contents). split; [now constructor | reflexivity].
Qed.

(** X6.  Whatever the peer sends and whatever the messages are, a call of
    [chat_completion] sends nothing, or the event [conversation.item.create]
    alone, or that event followed by the request [response.create]: never
    more than these two messages, never in another order, and nothing while
    it reads the stream.  The event is one message of role [user] with one
    [input_text] part for the content of each message given. *)
Theorem chat_completion_sends_at_most_two deployment messages session_id ep :
  sends (trace (chat_completion deployment messages session_id ep)) = []
  \/ exists contents,
       Forall2 (fun m c => field (py "content") m = Some c) messages contents
       /\ (sends (trace (chat_completion deployment messages session_id ep))
           = [VDict [(py "type", VStr (py "conversation.item.create"));
                     (py "item",
                      VDict [(py "type", VStr (py "message"));
                             (py "role", VStr (py "user"));
                             (py "content",
                              VList (map (fun c =>
                                            VDict [(py "type", VStr (py "input_text"));
                                                   (py "text", c)])
                                         contents))])]]
           \/ sends (trace (chat_completion deployment messages session_id ep))
              = [VDict [(py "type", VStr (py "conversation.item.create"));
                        (py "item",
                         VDict [(py "type", VStr (py "message"));
                                (py "role", VStr (py "user"));
                                (py "content",
                                 VList (map (fun c =>
                                               VDict [(py "type", VStr (py "input_text"));
                                                      (py "text", c)])
                                            contents))])];
                 VDict [(py "type", VStr (py "response.create"));
                        (py "response", VDict [])]]).
Proof.
  destruct ep as [|script]; [now left|].
  unfold chat_completion, with_connect. rewrite trace_scoped.
  change (Connect deployment :: ?t) with ([Connect deployment] ++ t).
  rewrite !sends_app.
  replace (sends (if exited (out (chat_session messages session_id script))
                  then [Disconnect] else [])) with (@nil pyval)
    by (now destruct (exited _)).
  rewrite app_nil_r. change (sends [Connect deployment]) with (@nil pyval).
  cbn [app].
  unfold chat_session. rewrite trace_bind, sends_app.
  rewrite (receives_only_negotiate script). cbn [app].
  destruct (out (negotiate script)) as [id|e|]; [|now left|now left].
  rewrite trace_bind, sends_app, submit_content_sends.
  destruct (content_messages messages) as [content|e'|] eqn:Hc.
  2: { left. now rewrite (submit_content_no_content messages e' _ Hc). }
  2: { exfalso. now apply (content_messages_not_blocked messages). }
  destruct (content_messages_returned messages content Hc) as (contents & Hall & ->).
  right. exists contents. split; [exact Hall|].
  destruct (submit_content messages (unread (negotiate script)))
    as [[u|e|] more t] eqn:Hsub; cbn [out unread]; [right | now left..].
  rewrite trace_bind. cbn [send_message out unread trace].
  rewrite sends_app, (receives_only_stream_events more). reflexivity.
Qed.

(** ** Messages and frames of the wrong shape *)

Lemma content_messages_app good rest :
  content_messages (good ++ rest)
  = (parts <- content_messages good ;;
     more <- content_messages rest ;;
     Returned (parts ++ more)).
Proof.
  induction good as [|msg good IH]; simpl.
  - destruct (content_messages rest); reflexivity.
  - destruct (py_getitem msg (py "content")) as [text|e|]; simpl;
      [|reflexivity|reflexivity].
    rewrite IH. destruct (content_messages good) as [parts|e|]; simpl;
      [|reflexivity|reflexivity].
    destruct (content_messages rest); reflexivity.
Qed.

Lemma content_messages_contents messages contents :
  Forall2 (fun m c => field (py "content") m = Some c) messages contents ->
  content_messages messages = Returned (map input_text contents).
Proof.
  induction 1 as [|m c messages contents Hm _ IH]; [reflexivity|].
  simpl. rewrite py_getitem_field, Hm. simpl. now rewrite IH.
Qed.




(** X8.  A message without a [content] member is found only after the
    connection is open and the handshake is done: the call then raises
    [KeyError] ([TypeError] if the message is not an object), has sent
    nothing, and closes the connection. *)
Theorem chat_completion_message_without_content
    deployment good bad rest contents session_id hs more :
  Forall2 (fun m c => field (py "content") m = Some c) good contents ->
  field (py "content") bad = None ->
  handshake_ok hs = true ->
  chat_completion deployment (good ++ bad :: rest) session_id
    (Accept (Message hs :: more))
  = mkRun (Raised (if is_dict bad then KeyError else TypeError)) more
      [Connect deployment; RecvFrame (Message hs); Disconnect].
Proof.
  intros Hgood Hbad Hhs.
  assert (Hc : content_messages (good ++ bad :: rest)
               = Raised (if is_dict bad then KeyError else TypeError)).
  { rewrite content_messages_app, (content_messages_contents _ _ Hgood).
    simpl. now rewrite py_getitem_field, Hbad. }
  unfold chat_completion, with_connect, chat_session.
  rewrite (bind_returned _ _ _ _ _ _ (negotiate_accepts hs _ Hhs)).
  rewrite (bind_raised _ _ _ _ _ _ (submit_content_no_content _ _ more Hc)).
  reflexivity.
Qed.

Lemma chat_completion_message_without_content_witness :
  chat_completion demo_deployment
    ([turn_message (mkTurn System (py "Be brief."))]
       ++ obj [("role", str "user")]%string :: [])
    VNone (Accept (Message session_created_s1 :: [Message item_created]))
  = mkRun (Raised KeyError) [Message item_created]
      [Connect demo_deployment; RecvFrame (Message session_created_s1);
       Disconnect].
Proof.
  apply (chat_completion_message_without_content demo_deployment
           [turn_message (mkTurn System (py "Be brief."))]
           (obj [("role", str "user")]%string) [] [str "Be brief."]
           VNone session_created_s1 [Message item_created]).
  - repeat constructor.
  - reflexivity.
  - reflexivity.
Defined.

Lemma submit_content_not_an_object messages content event more :
  content_messages messages = Returned content ->
  is_dict event = false ->
  submit_content messages (Message event :: more)
  = mkRun (Raised (not_an_object_error event)) more
      [SendMsg (create_item_request content); RecvFrame (Message event)].
Proof.
  intros Hc Hd. unfold submit_content. rewrite Hc, bind_lift_returned.
  rewrite bind_send_message, bind_receive_message.
  destruct event as [|b|n|s|items|kvs]; try discriminate; try reflexivity.
  - unfold py_in. rewrite bind_lift_returned.
    destruct (is_substring (py "error") s); reflexivity.
  - unfold py_in. rewrite bind_lift_returned.
    destruct (existsb _ items); reflexivity.
Qed.

Lemma stream_events_not_an_object event fs :
  is_dict event = false ->
  stream_events (Message event :: fs)
  = mkRun (Raised (not_an_object_error event)) fs [RecvFrame (Message event)].
Proof.
  intros Hd. unfold stream_events. simpl List.length.
  destruct (stream_loop_step (S (List.length fs)) (Message event) fs)
    as (o & Hrun & ->).
  assert (Ho : o = Raised (not_an_object_error event)).
  { revert Hrun. unfold stream_iteration, try_except, stream_try.
    rewrite bind_receive_message.
    destruct event as [|b|n|s|items|kvs]; try discriminate.
    - intros H. now injection H as <-.
    - intros H. now injection H as <-.
    - intros H. now injection H as <-.
    - unfold py_in. rewrite bind_lift_returned.
      destruct (is_substring (py "error") s); intros H; now injection H as <-.
    - unfold py_in. rewrite bind_lift_returned.
      destruct (existsb _ items); intros H; now injection H as <-. }
  now rewrite Ho.
Qed.

(** X9.  A frame that decodes to something other than an object never
    passes for an event: as the first frame it raises [AttributeError], and
    as the answer to the conversation item or in the stream it raises
    [AttributeError] for a list or a string and [TypeError] for [None], a
    boolean or a number, whatever the list or string contains.  The
    connection is closed and nothing more is sent. *)
Theorem chat_completion_frame_not_an_object
    deployment conversation session_id event hs ic mids more :
  is_dict event = false ->
  chat_completion deployment (map turn_message conversation) session_id
    (Accept (Message event :: more))
  = mkRun (Raised AttributeError) more
      [Connect deployment; RecvFrame (Message event); Disconnect]
  /\ (handshake_ok hs = true ->
      chat_completion deployment (map turn_message conversation) session_id
        (Accept (Message hs :: Message event :: more))
      = mkRun (Raised (not_an_object_error event)) more
          [Connect deployment; RecvFrame (Message hs);
           SendMsg (create_item_request (parts_of conversation));
           RecvFrame (Message event); Disconnect])
  /\ (handshake_ok hs = true -> item_created_ok ic = true ->
      forallb intermediate mids = true ->
      chat_completion deployment (map turn_message conversation) session_id
        (Accept (Message hs :: Message ic ::
                 map Message mids ++ Message event :: more))
      = mkRun (Raised (not_an_object_error event)) more
          (exchange_prefix deployment conversation hs ic
             ++ map (fun e => RecvFrame (Message e)) mids
             ++ [RecvFrame (Message event); Disconnect])).
Proof.
  intros Hd. split; [|split].
  - destruct event; try discriminate; reflexivity.
  - intros Hhs. apply chat_completion_item_raises; [exact Hhs|].
    apply submit_content_not_an_object; [apply content_messages_turns | exact Hd].
  - intros Hhs Hic Hmids.
    rewrite chat_completion_stream by assumption.
    rewrite stream_events_skip by assumption.
    rewrite stream_events_not_an_object by exact Hd.
    simpl. now rewrite <- app_assoc.
Qed.

Lemma chat_completion_frame_not_an_object_witness :
  chat_completion demo_deployment (map turn_message demo_conversation) VNone
    (Accept (Message (VList [str "error"]) :: []))
  = mkRun (Raised AttributeError) []
      [Connect demo_deployment; RecvFrame (Message (VList [str "error"]));
       Disconnect]
  /\ chat_completion demo_deployment (map turn_message demo_conversation) VNone
       (Accept (Message session_created_s1 :: Message (str "an error") :: []))
     = mkRun (Raised AttributeError) []
         [Connect demo_deployment; RecvFrame (Message session_created_s1);
          SendMsg (create_item_request (parts_of demo_conversation));
          RecvFrame (Message (str "an error")); Disconnect]
  /\ chat_completion demo_deployment (map turn_message demo_conversation) VNone
       (Accept (Message session_created_s1 :: Message item_created ::
                map Message [audio_delta] ++ Message VNone :: []))
     = mkRun (Raised TypeError) []
         (exchange_prefix demo_deployment demo_conversation
            session_created_s1 item_created
            ++ map (fun e => RecvFrame (Message e)) [audio_delta]
            ++ [RecvFrame (Message VNone); Disconnect]).
Proof.
  split; [|split].
  - apply (proj1 (chat_completion_frame_not_an_object demo_deployment
             demo_conversation VNone (VList [str "error"])
             session_created_s1 item_created [] [] eq_refl)).
  - apply (proj1 (proj2 (chat_completion_frame_not_an_object demo_deployment
             demo_conversation VNone (str "an error")
             session_created_s1 item_created [] [] eq_refl)) eq_refl).
  - apply (proj2 (proj2 (chat_completion_frame_not_an_object demo_deployment
             demo_conversation VNone VNone
             session_created_s1 item_created [audio_delta] [] eq_refl))
             eq_refl eq_refl eq_refl).
Defined.

(** ** The reply the caller extracts *)

Lemma executeTurn_done deployment conversation hs ic mids done more :
  handshake_ok hs = true -> item_created_ok ic = true ->
  forallb intermediate mids = true -> response_done done = true ->
  out (executeTurn deployment (map turn_message conversation)
         (Accept (Message hs :: Message ic ::
                  map Message mids ++ Message done :: more)))
  = (response <- extract_transcript (response_payload done) ;;
     require_response response).
Proof.
  intros Hhs Hic Hmids Hdone.
  rewrite executeTurn_stream by assumption.
  rewrite stream_events_skip by assumption.
  rewrite stream_events_done by assumption.
  reflexivity.
Qed.

Lemma scan_output_app items1 items2 response :
  scan_output (items1 ++ items2) response
  = (r <- scan_output items1 response ;; scan_output items2 r).
Proof.
  revert response. induction items1 as [|item items1 IH]; intros response.
  - simpl. destruct (scan_output items2 response); reflexivity.
  - simpl. destruct (is_assistant_message item) as [[|]|e|]; simpl;
      try reflexivity; [|apply IH].
    destruct (py_get item (py "content") (VList [])) as [c|e|]; simpl;
      try reflexivity.
    destruct (py_iter c) as [parts|e|]; simpl; try reflexivity.
    destruct (first_audio parts) as [found|e|]; simpl; try reflexivity.
    apply IH.
Qed.

Lemma first_audio_dicts parts :
  forallb is_dict parts = true -> exists found, first_audio parts = Returned found.
Proof.
  induction parts as [|p parts IH]; intros H; [now exists None|].
  simpl in H. apply andb_true_iff in H. destruct H as [Hp H].
  destruct (is_dict_dict _ Hp) as [kvs ->]. simpl.
  destruct (py_eq_str _ (py "audio")); [eexists; reflexivity | now apply IH].
Qed.

Lemma scan_output_readable items response :
  forallb readable items = true ->
  exists r, scan_output items response = Returned r.
Proof.
  revert response. induction items as [|item items IH]; intros response H;
    [now exists response|].
  simpl in H. apply andb_true_iff in H. destruct H as [Hi H].
  unfold readable in Hi. apply andb_true_iff in Hi. destruct Hi as [Hd Hi].
  destruct (is_dict_dict _ Hd) as [kvs ->].
  simpl. rewrite is_assistant_message_dict. simpl.
  destruct (assistant_message (VDict kvs)); simpl in Hi; [|now apply IH].
  destruct (lookup (py "content") kvs) as [[]|]; try discriminate.
  - simpl. destruct (first_audio_dicts _ Hi) as [found ->]. simpl. now apply IH.
  - simpl. now apply IH.
Qed.

(** X10.  When several output items are assistant messages with an audio
    part, the reply comes from the last of them: the items before it, audio
    or not, have no say.  The reply is the [transcript] member of that item's
    first audio part, and the turn fails with "No valid response received"
    when that member is missing or falsy. *)
Theorem executeTurn_last_audio_item_decides
    deployment conversation hs ic mids done more
    rkvs before item after cpre part cpost :
  handshake_ok hs = true ->
  item_created_ok ic = true ->
  forallb intermediate mids = true ->
  response_done done = true ->
  field (py "response") done = Some (VDict rkvs) ->
  lookup (py "output") rkvs = Some (VList (before ++ item :: after)) ->
  forallb readable before = true ->
  forallb silent after = true ->
  assistant_message item = true ->
  field (py "content") item = Some (VList (cpre ++ part :: cpost)) ->
  forallb not_audio cpre = true ->
  has_type part (py "audio") = true ->
  out (executeTurn deployment (map turn_message conversation)
         (Accept (Message hs :: Message ic ::
                  map Message mids ++ Message done :: more)))
  = match field (py "transcript") part with
    | Some transcript =>
        if truthy transcript then Returned transcript
        else Raised (Exception NoValidResponse)
    | None => Raised (Exception NoValidResponse)
    end.
Proof.
  intros Hhs Hic Hmids Hdone Hresp Hout Hbefore Hafter Hitem Hcontent Hcpre Hpart.
  rewrite executeTurn_done by assumption.
  unfold response_payload. rewrite Hresp.
  unfold extract_transcript, has_key. rewrite Hout.
  simpl. rewrite Hout. simpl.
  rewrite scan_output_app.
  destruct (scan_output_readable before (VDict rkvs) Hbefore) as [r ->].
  cbn [bind Monad_outcome outcome_bind].
  change (item :: after) with ([] ++ item :: after).
  rewrite (scan_output_found [] item after cpre part cpost r)
    by (try assumption; reflexivity).
  cbn [bind Monad_outcome outcome_bind]. unfold require_response.
  destruct (field (py "transcript") part) as [t|]; [|reflexivity].
  now destruct (truthy t).
Qed.

Lemma executeTurn_last_audio_item_decides_witness :
  out (executeTurn demo_deployment (map turn_message demo_conversation)
         (Accept (Message session_created_s1 :: Message item_created ::
                  map Message [] ++
                  Message (response_done_with
                             [assistant_item [audio_part "First."];
                              assistant_item [text_part "x"; audio_part "Second."]])
                  :: [])))
  = match field (py "transcript") (audio_part "Second.") with
    | Some transcript =>
        if truthy transcript then Returned transcript
        else Raised (Exception NoValidResponse)
    | None => Raised (Exception NoValidResponse)
    end.
Proof.
  apply (executeTurn_last_audio_item_decides demo_deployment demo_conversation
           session_created_s1 item_created []
           (response_done_with
              [assistant_item [audio_part "First."];
               assistant_item [text_part "x"; audio_part "Second."]])
           []
           [(py "output",
             VList [assistant_item [audio_part "First."];
                    assistant_item [text_part "x"; audio_part "Second."]])]
           [assistant_item [audio_part "First."]]
           (assistant_item [text_part "x"; audio_part "Second."]) []
           [text_part "x"] (audio_part "Second.") []);
    reflexivity.
Defined.

Lemma extract_transcript_falsy v :
  truthy v = false -> extract_transcript v = Returned v.
Proof.
  destruct v as [|b|n|s|items|kvs]; try reflexivity.
  destruct kvs; [reflexivity | discriminate].
Qed.

(** X11.  A completion whose [response] payload is missing or falsy (an
    empty object, [null], an empty string or list, zero, [false]) makes the
    turn fail with "No valid response received". *)
Theorem executeTurn_falsy_payload_fails
    deployment conversation hs ic mids done more :
  handshake_ok hs = true ->
  item_created_ok ic = true ->
  forallb intermediate mids = true ->
  response_done done = true ->
  truthy (response_payload done) = false ->
  out (executeTurn deployment (map turn_message conversation)
         (Accept (Message hs :: Message ic ::
                  map Message mids ++ Message done :: more)))
  = Raised (Exception NoValidResponse).
Proof.
  intros Hhs Hic Hmids Hdone Hfalsy.
  rewrite executeTurn_done by assumption.
  rewrite extract_transcript_falsy by exact Hfalsy.
  simpl. unfold require_response. now rewrite Hfalsy.
Qed.

Lemma executeTurn_falsy_payload_fails_witness :
  out (executeTurn demo_deployment (map turn_message demo_conversation)
         (Accept (Message session_created_s1 :: Message item_created ::
                  map Message [audio_delta] ++
                  Message (obj [("type", str "response.done")]%string) :: [])))
  = Raised (Exception NoValidResponse).
Proof.
  apply (executeTurn_falsy_payload_fails demo_deployment demo_conversation
           session_created_s1 item_created [audio_delta]
           (obj [("type", str "response.done")]%string) []);
    reflexivity.
Defined.

(** X12.  An [output] member that cannot be iterated ([null], a boolean, a
    number) makes the turn fail with [TypeError], and an output item that is
    not an object, met after readable items, makes it fail with
    [AttributeError]: no reply is produced from a payload of the wrong
    shape. *)
Theorem executeTurn_malformed_output_fails
    deployment conversation hs ic mids done more rkvs output :
  handshake_ok hs = true ->
  item_created_ok ic = true ->
  forallb intermediate mids = true ->
  response_done done = true ->
  field (py "response") done = Some (VDict rkvs) ->
  lookup (py "output") rkvs = Some output ->
  (match output with VNone | VBool _ | VInt _ => True | _ => False end ->
   out (executeTurn deployment (map turn_message conversation)
          (Accept (Message hs :: Message ic ::
                   map Message mids ++ Message done :: more)))
   = Raised TypeError)
  /\ (forall before bad after,
        output = VList (before ++ bad :: after) ->
        forallb readable before = true -> is_dict bad = false ->
        out (executeTurn deployment (map turn_message conversation)
               (Accept (Message hs :: Message ic ::
                        map Message mids ++ Message done :: more)))
        = Raised AttributeError).
Proof.
  intros Hhs Hic Hmids Hdone Hresp Hout.
  rewrite executeTurn_done by assumption.
  unfold response_payload. rewrite Hresp.
  unfold extract_transcript, has_key. rewrite Hout.
  simpl. rewrite Hout. simpl. split.
  - destruct output; intros H; try contradiction; reflexivity.
  - intros before bad after -> Hbefore Hbad. simpl.
    rewrite scan_output_app.
    destruct (scan_output_readable before (VDict rkvs) Hbefore) as [r ->].
    simpl. destruct bad; try discriminate; reflexivity.
Qed.

Lemma executeTurn_malformed_output_fails_witness :
  out (executeTurn demo_deployment (map turn_message demo_conversation)
         (Accept (Message session_created_s1 :: Message item_created ::
                  map Message [] ++
                  Message (obj [("type", str "response.done");
                                ("response", obj [("output", VNone)])]%string)
                  :: [])))
  = Raised TypeError
  /\ out (executeTurn demo_deployment (map turn_message demo_conversation)
         (Accept (Message session_created_s1 :: Message item_created ::
                  map Message [] ++
                  Message (response_done_with
                             ([assistant_item [audio_part "Hello!"]]
                                ++ str "stray" :: []))
                  :: [])))
  = Raised AttributeError.
Proof.
  split.
  - apply (proj1 (executeTurn_malformed_output_fails demo_deployment
             demo_conversation session_created_s1 item_created []
             (obj [("type", str "response.done");
                   ("response", obj [("output", VNone)])]%string) []
             [(py "output", VNone)] VNone
             eq_refl eq_refl eq_refl eq_refl eq_refl eq_refl) I).
  - apply (proj2 (executeTurn_malformed_output_fails demo_deployment
             demo_conversation session_created_s1 item_created []
             (response_done_with
                ([assistant_item [audio_part "Hello!"]] ++ str "stray" :: []))
             []
             [(py "output",
               VList ([assistant_item [audio_part "Hello!"]] ++ str "stray" :: []))]
             (VList ([assistant_item [audio_part "Hello!"]] ++ str "stray" :: []))
             eq_refl eq_refl eq_refl eq_refl eq_refl eq_refl)
             [assistant_item [audio_part "Hello!"]] (str "stray") []
             eq_refl eq_refl eq_refl).
Defined.
(** ** The history of the voice chat *)








Lemma voice_turn_grows deployment history text ep :
  exists tail,
    fst (voice_turn deployment history text ep) = history ++ tail
    /\ List.length tail <= 2
    /\ forallb (fun m => has_role (py "user") m || has_role (py "assistant") m)
         tail = true.
Proof.
  unfold voice_turn.
  destruct (out (executeTurn _ _ _)) as [reply|e|];
    [destruct (prints reply)| |]; cbn [fst].
  - exists [message_of (py "user") (VStr text);
            message_of (py "assistant") reply].
    split; [now rewrite <- app_assoc|]. split; [simpl; lia | reflexivity].
  - eexists. split; [reflexivity|]. split; [simpl; lia | reflexivity].
  - eexists. split; [reflexivity|]. split; [simpl; lia | reflexivity].
  - eexists. split; [reflexivity|]. split; [simpl; lia | reflexivity].
Qed.

(** X14.  The history of a voice chat only grows at its end: after any
    number of utterances (blank ones, the word [exit], turns that fail or
    not) the history it started from is still its beginning, with at most
    two messages added per utterance, and every message added has the role
    [user] or [assistant]. *)
Theorem voice_chat_history_append_only deployment history utterances :
  exists tail,
    fst (voice_chat deployment history utterances) = history ++ tail
    /\ List.length tail <= 2 * List.length utterances
    /\ forallb (fun m => has_role (py "user") m || has_role (py "assistant") m)
         tail = true.
Proof.
  revert history.
  induction utterances as [|[result_text ep] utterances IH]; intros history.
  - exists []. split; [now rewrite app_nil_r|]. split; [simpl; lia | reflexivity].
  - cbn [voice_chat].
    destruct (negb (truthy (VStr (strip result_text)))).
    { destruct (IH history) as (tail & E & Hlen & Hroles).
      exists tail. split; [exact E|]. split; [simpl List.length; lia | exact Hroles]. }
    destruct (negb (prints (VStr (strip result_text)))).
    { exists []. split; [now rewrite app_nil_r|].
      split; [simpl; lia | reflexivity]. }
    destruct (lower_is_exit (strip result_text)).
    { exists []. split; [now rewrite app_nil_r|].
      split; [simpl; lia | reflexivity]. }
    destruct (voice_turn_grows deployment history (strip result_text) ep)
      as (tail1 & E1 & Hlen1 & Hroles1).
    destruct (voice_turn deployment history (strip result_text) ep)
      as [history1 r].
    cbn [fst] in E1. subst history1.
    destruct (match out r with
              | Returned _ => true
              | Raised e => is_Exception e
              | Blocked => false
              end).
    + destruct (IH (history ++ tail1)) as (tail2 & E2 & Hlen2 & Hroles2).
      destruct (voice_chat deployment (history ++ tail1) utterances)
        as [final later].
      cbn [fst] in *. subst final. exists (tail1 ++ tail2).
      split; [now rewrite app_assoc|].
      split; [rewrite length_app; simpl List.length; lia|].
      now rewrite forallb_app, Hroles1, Hroles2.
    + cbn [fst]. exists tail1. split; [reflexivity|].
      split; [simpl List.length; lia | exact Hroles1].
Qed.

(** ** [initialize_session] *)

Lemma initialize_session_ws_run deployment f more :
  initialize_session_ws deployment (f :: more)
  = prepend [SendMsg (session_create_request deployment); RecvFrame f]
      (match f with
       | Message response =>
           (has_error <- lift (py_in (py "error") response) ;;
            if (has_error : bool) then
              error_details <- lift (py_get response (py "error") empty_dict) ;;
              raise (Exception (SessionInitializationError error_details))
            else
              session <- lift (py_get response (py "session") empty_dict) ;;
              lift (py_get session (py "id") VNone)) more
       | _ => mkRun (match frame_error f with
                     | Some e => Raised e
                     | None => Blocked
                     end) more []
       end).
Proof.
  unfold initialize_session_ws. rewrite bind_send_message.
  destruct f as [response| | |]; reflexivity.
Qed.

(** X15.  [initialize_session] sends the request
    [{"type": "session.create", "session": {"deployment_id": deployment,
    "output_format": "text"}}] before it reads anything, then reads one
    event.  An event with an [error] member makes it raise the
    initialization exception carrying the error details; any other object,
    whatever its type, makes it return the [id] of its [session] member, or
    [None] when there is no such member.  The connection is closed either
    way. *)
Theorem initialize_session_exchange deployment kvs more :
  initialize_session deployment (Accept [])
  = mkRun Blocked []
      [Connect deployment;
       SendMsg (VDict [(py "type", VStr (py "session.create"));
                       (py "session",
                        VDict [(py "deployment_id", VStr deployment);
                               (py "output_format", VStr (py "text"))])])]
  /\ trace (initialize_session deployment (Accept (Message (VDict kvs) :: more)))
     = [Connect deployment;
        SendMsg (VDict [(py "type", VStr (py "session.create"));
                        (py "session",
                         VDict [(py "deployment_id", VStr deployment);
                                (py "output_format", VStr (py "text"))])]);
        RecvFrame (Message (VDict kvs)); Disconnect]
  /\ unread (initialize_session deployment (Accept (Message (VDict kvs) :: more)))
     = more
  /\ (has_error (VDict kvs) = true ->
      out (initialize_session deployment (Accept (Message (VDict kvs) :: more)))
      = Raised (Exception (SessionInitializationError
                             (error_details (VDict kvs)))))
  /\ (has_error (VDict kvs) = false ->
      (lookup (py "session") kvs = None ->
       out (initialize_session deployment
              (Accept (Message (VDict kvs) :: more)))
       = Returned VNone)
      /\ (forall session,
            lookup (py "session") kvs = Some (VDict session) ->
            out (initialize_session deployment
                   (Accept (Message (VDict kvs) :: more)))
            = Returned (match lookup (py "id") session with
                        | Some id => id
                        | None => VNone
                        end))).
Proof.
  split; [reflexivity|].
  unfold initialize_session, with_connect.
  rewrite initialize_session_ws_run.
  unfold py_in. rewrite bind_lift_returned.
  change (has_key (py "error") kvs) with (has_error (VDict kvs)).
  destruct (has_error (VDict kvs)) eqn:He.
  - unfold py_get. rewrite bind_lift_returned.
    split; [reflexivity|]. split; [reflexivity|].
    split; [reflexivity|]. discriminate.
  - unfold py_get. rewrite bind_lift_returned.
    destruct (lookup (py "session") kvs) as [payload|] eqn:Hs.
    + destruct payload as [|b|n|s|items|session];
        (split; [reflexivity|]); (split; [reflexivity|]);
        (split; [discriminate|]); intros _;
        (split; [discriminate|]); intros session' H; try discriminate.
      injection H as <-. reflexivity.
    + split; [reflexivity|]. split; [reflexivity|].
      split; [discriminate|]. intros _.
      split; [reflexivity|]. discriminate.
Qed.

Lemma initialize_session_exchange_witness :
  out (initialize_session demo_deployment
         (Accept (Message (error_event "error" "denied") :: [])))
  = Raised (Exception (SessionInitializationError
                         (VDict [(py "message", VStr (py "denied"))])))
  /\ out (initialize_session demo_deployment
            (Accept (Message item_created :: [])))
     = Returned VNone
  /\ out (initialize_session demo_deployment
            (Accept (Message session_created_s1 :: [])))
     = Returned (VStr (py "s1")).
Proof.
  split; [|split].
  - apply (proj1 (proj2 (proj2 (proj2
      (initialize_session_exchange demo_deployment
         [(py "type", str "error");
          (py "error", obj [("message", str "denied")]%string)] []))))
      eq_refl).
  - apply (proj1 (proj2 (proj2 (proj2 (proj2
      (initialize_session_exchange demo_deployment
         [(py "type", str "conversation.item.created")] []))))
      eq_refl) eq_refl).
  - apply (proj2 (proj2 (proj2 (proj2 (proj2
      (initialize_session_exchange demo_deployment
         [(py "type", str "session.created");
          (py "session", obj [("id", str "s1")]%string)] []))))
      eq_refl) [(py "id", str "s1")] eq_refl).
Defined.

(** ** The text on the wire *)








(** *** The characters of a frame *)

Lemma printable_hex_digit n : (n < 16)%N -> printable (hex_digit n) = true.
Proof.
  intros H. unfold printable, hex_digit, ch. simpl N_of_ascii.
  destruct (N.ltb_spec n 10); apply andb_true_iff; split; apply N.leb_le; lia.
Qed.

Lemma printable_u_escape n : forallb printable (u_escape n) = true.
Proof.
  unfold u_escape. cbn [forallb].
  rewrite !printable_hex_digit by (apply N.mod_lt; discriminate).
  reflexivity.
Qed.

Lemma printable_escape_char c : forallb printable (escape_char c) = true.
Proof.
  unfold escape_char.
  repeat match goal with
         | |- context [if ?b then _ else _] => destruct b eqn:?
         end;
    try reflexivity.
  - cbn [forallb]. unfold printable.
    match goal with H : _ && _ = true |- _ => rewrite H end. reflexivity.
  - apply printable_u_escape.
  - rewrite forallb_app, !printable_u_escape. reflexivity.
Qed.

Lemma printable_encode_string s : forallb printable (encode_string s) = true.
Proof.
  unfold encode_string. cbn [forallb]. rewrite forallb_app.
  change (printable dquote) with true. cbn [andb forallb].
  rewrite andb_true_r.
  induction s as [|c s IH]; [reflexivity|].
  cbn [flat_map]. now rewrite forallb_app, printable_escape_char, IH.
Qed.

Lemma printable_uint_digits d : forallb printable (uint_digits d) = true.
Proof.
  induction d; cbn [uint_digits forallb]; try reflexivity; now rewrite IHd.
Qed.

Lemma printable_encode_int n : forallb printable (encode_int n) = true.
Proof.
  destruct n as [|p|p]; cbn [encode_int forallb]; try reflexivity.
  - apply printable_uint_digits.
  - now rewrite printable_uint_digits.
Qed.

Lemma printable_join_comma chunks :
  Forall (fun c => forallb printable c = true) chunks ->
  forallb printable (join_comma chunks) = true.
Proof.
  induction 1 as [|c chunks Hc Hall IH]; [reflexivity|].
  destruct chunks as [|c' chunks]; [exact Hc|].
  rewrite join_comma_cons, !forallb_app, Hc. exact IH.
Qed.

(** X17.  A message goes out as printable ASCII on a single line, whatever
    text it carries: [json.dumps] escapes every other character. *)
Theorem dumps_printable v : forallb printable (dumps v) = true.
Proof.
  induction v as [|[|]|n|s|items IH|kvs IH] using pyval_nested_ind;
    try reflexivity.
  - apply printable_encode_int.
  - apply printable_encode_string.
  - cbn [dumps forallb]. rewrite forallb_app.
    change (printable (ch "[")) with true. cbn [andb forallb].
    change (printable (ch "]")) with true. rewrite andb_true_r.
    apply printable_join_comma. now apply Forall_map.
  - rewrite dumps_dict. cbn [forallb]. rewrite forallb_app.
    change (printable (ch "{")) with true. cbn [andb forallb].
    change (printable (ch "}")) with true. rewrite andb_true_r.
    apply printable_join_comma. apply Forall_map.
    apply Forall_forall. intros [k x] Hin.
    rewrite Forall_forall in IH. specialize (IH _ Hin). cbn [snd] in IH.
    unfold member_text. rewrite !forallb_app, printable_encode_string, IH.
    reflexivity.
Qed.

(** *** The objects of a decoded message *)

Lemma dict_set_keys k v d :
  map fst (dict_set k v d)
  = if existsb (pystr_eqb k) (map fst d) then map fst d else map fst d ++ [k].
Proof.
  induction d as [|[k' v'] d IH]; [reflexivity|].
  cbn [dict_set map fst existsb].
  destruct (pystr_eqb k k'); cbn [orb map fst]; [reflexivity|].
  rewrite IH. now destruct (existsb (pystr_eqb k) (map fst d)).
Qed.

Lemma pystr_eqb_sym a b : pystr_eqb a b = pystr_eqb b a.
Proof.
  destruct (pystr_eqb b a) eqn:E.
  - apply pystr_eqb_eq in E. subst. apply pystr_eqb_refl.
  - apply pystr_eqb_neq. apply pystr_eqb_neq in E. congruence.
Qed.

Lemma keys_distinct_snoc ks k :
  keys_distinct ks = true -> existsb (pystr_eqb k) ks = false ->
  keys_distinct (ks ++ [k]) = true.
Proof.
  induction ks as [|a ks IH]; intros Hd Hk; [reflexivity|].
  cbn [keys_distinct existsb app] in *.
  apply andb_true_iff in Hd. destruct Hd as [Ha Hd].
  apply orb_false_iff in Hk. destruct Hk as [Hka Hk].
  rewrite existsb_app. cbn [existsb].
  rewrite (pystr_eqb_sym a k), Hka.
  apply negb_true_iff in Ha. rewrite Ha. cbn [orb negb andb].
  now apply IH.
Qed.

Lemma dict_set_distinct k v d :
  keys_distinct (map fst d) = true ->
  keys_distinct (map fst (dict_set k v d)) = true.
Proof.
  intros H. rewrite dict_set_keys.
  destruct (existsb (pystr_eqb k) (map fst d)) eqn:E; [exact H|].
  now apply keys_distinct_snoc.
Qed.

Lemma dict_set_unique k v d :
  keys_unique v = true ->
  forallb (fun kv : pystr * pyval => let (_, x) := kv in keys_unique x) d = true ->
  forallb (fun kv : pystr * pyval => let (_, x) := kv in keys_unique x)
          (dict_set k v d) = true.
Proof.
  intros Hv. induction d as [|[k' v'] d IH]; intros H.
  - cbn [dict_set forallb]. now rewrite Hv.
  - cbn [forallb] in H. apply andb_true_iff in H. destruct H as [H1 H2].
    cbn [dict_set]. destruct (pystr_eqb k k'); cbn [forallb].
    + now rewrite Hv, H2.
    + now rewrite H1, IH.
Qed.

Lemma fold_dict_set_unique pairs acc :
  keys_unique (VDict acc) = true ->
  forallb (fun kv : pystr * pyval => let (_, x) := kv in keys_unique x) pairs
  = true ->
  keys_unique
    (VDict (fold_left (fun d kv => dict_set (fst kv) (snd kv) d) pairs acc))
  = true.
Proof.
  revert acc. induction pairs as [|[k v] pairs IH]; intros acc Hacc H.
  - exact Hacc.
  - cbn [forallb] in H. apply andb_true_iff in H. destruct H as [Hv H].
    cbn [fold_left fst snd]. apply IH; [|exact H].
    cbn [keys_unique] in *. apply andb_true_iff in Hacc.
    destruct Hacc as [Hd Hu].
    now rewrite dict_set_distinct, dict_set_unique.
Qed.

Lemma dict_of_pairs_unique pairs :
  forallb (fun kv : pystr * pyval => let (_, x) := kv in keys_unique x) pairs
  = true ->
  keys_unique (VDict (dict_of_pairs pairs)) = true.
Proof. intros H. unfold dict_of_pairs. now apply fold_dict_set_unique. Qed.

Ltac break_scan H :=
  repeat match type of H with
         | context [match ?x with _ => _ end] => destruct x eqn:?; try discriminate
         end.

Lemma scan_unique fuel :
  (forall s v r, scan_once fuel s = Some (v, r) -> keys_unique v = true)
  /\ (forall s vs r,
        scan_elements fuel s = Some (vs, r) -> forallb keys_unique vs = true)
  /\ (forall s ps r,
        scan_members fuel s = Some (ps, r) ->
        forallb (fun kv : pystr * pyval => let (_, x) := kv in keys_unique x) ps
        = true).
Proof.
  induction fuel as [|fuel (IH1 & IH2 & IH3)].
  - repeat split; intros; discriminate.
  - repeat split.
    + intros s v r H. cbn [scan_once] in H. break_scan H;
        injection H as <- <-; try reflexivity.
      * apply dict_of_pairs_unique. eauto.
      * cbn [keys_unique]. eauto.
    + intros s vs r H. cbn [scan_elements] in H. break_scan H;
        injection H as <- <-; cbn [forallb];
        repeat match goal with
               | E : scan_once _ _ = Some _ |- _ => apply IH1 in E; rewrite E
               | E : scan_elements _ _ = Some _ |- _ => apply IH2 in E; rewrite E
               end; reflexivity.
    + intros s ps r H. cbn [scan_members] in H. break_scan H;
        injection H as <- <-; cbn [forallb];
        repeat match goal with
               | E : scan_once _ _ = Some _ |- _ => apply IH1 in E; rewrite E
               | E : scan_members _ _ = Some _ |- _ => apply IH3 in E; rewrite E
               end; reflexivity.
Qed.

(** X18.  No object of a message that [receive_message] returns holds a key
    twice, at any depth: where the text repeats a key, [json.loads] keeps
    one entry. *)
Theorem loads_keys_unique s v : loads s = Some v -> keys_unique v = true.
Proof.
  unfold loads. intros H. break_scan H. injection H as <-.
  eapply (proj1 (scan_unique _)). eassumption.
Qed.

Lemma loads_keys_unique_witness :
  loads (ch "{" :: encode_string (py "a") ++ py ": 1, "
           ++ encode_string (py "a") ++ py ": 2}")
  = Some (VDict [(py "a", VInt 2)])
  /\ keys_unique (VDict [(py "a", VInt 2)]) = true.
Proof.
  split; [reflexivity|].
  apply (loads_keys_unique
           (ch "{" :: encode_string (py "a") ++ py ": 1, "
              ++ encode_string (py "a") ++ py ": 2}")).
  reflexivity.
Defined.

(** ** The URL of the connection *)

Lemma replace_from_absent old new s :
  is_substring old s = false -> replace_from 0 old new s = s.
Proof.
  induction s as [|c s IH]; intros H; [reflexivity|].
  cbn [is_substring] in H. apply orb_false_iff in H. destruct H as [Hp Hs].
  cbn [replace_from]. rewrite Hp. f_equal. now apply IH.
Qed.

Lemma replace_from_skip l old new s :
  replace_from (List.length l) old new (l ++ s) = replace_from 0 old new s.
Proof.
  induction l as [|c l IH]; [reflexivity|]. exact IH.
Qed.

Lemma is_prefix_app p s : is_prefix p (p ++ s) = true.
Proof.
  induction p as [|c p IH]; [reflexivity|].
  cbn [app is_prefix]. now rewrite N.eqb_refl.
Qed.

Lemma str_replace_head c old new s :
  str_replace (c :: old) new ((c :: old) ++ s)
  = new ++ str_replace (c :: old) new s.
Proof.
  unfold str_replace.
  change ((c :: old) ++ s) with (c :: old ++ s) at 1.
  cbn [replace_from].
  change (c :: old ++ s) with ((c :: old) ++ s). rewrite is_prefix_app.
  cbn [List.length]. rewrite Nat.sub_succ, Nat.sub_0_r. f_equal. apply replace_from_skip.
Qed.

(** X19.  The URL of the connection: an endpoint that starts with
    [https://] and one written without it give the same URL, [wss://], the
    rest of the endpoint, the API version and the deployment; a deployment
    that is not set is written as [None]. *)
Theorem ws_url_scheme host deployment :
  is_substring (py "https://") host = false ->
  ws_url (Some (py "https://" ++ host)) deployment
  = Returned (py "wss://" ++ host
              ++ py "?api-version=2024-10-01-preview&deployment="
              ++ format_env deployment)
  /\ ws_url (Some host) deployment
     = ws_url (Some (py "https://" ++ host)) deployment.
Proof.
  intros H. unfold ws_url.
  change (py "https://") with (ch "h" :: py "ttps://").
  rewrite str_replace_head.
  unfold str_replace. rewrite (replace_from_absent _ _ _ H).
  split; reflexivity.
Qed.

Lemma ws_url_scheme_witness :
  ws_url (Some (py "https://res.openai.azure.com/openai/realtime")) None
  = Returned (py ("wss://res.openai.azure.com/openai/realtime"
                  ++ "?api-version=2024-10-01-preview&deployment=None"))
  /\ ws_url (Some (py "res.openai.azure.com/openai/realtime")) None
     = ws_url (Some (py "https://res.openai.azure.com/openai/realtime")) None.
Proof.
  apply (ws_url_scheme (py "res.openai.azure.com/openai/realtime") None).
  reflexivity.
Defined.
